(** * finance-data-pipeline: normalisation, classification, deduplication
      and aggregation

    A shallow embedding of [src/transform.py] and of the SQL views of
    [src/queries.py], with the properties of the natural-language
    specification stated and proved over it.

    Conventions.
    - A Python [str] is a Rocq [string]; a character is one of the 256 code
      points of [ascii] (the Latin-1 range of Unicode).
    - A cell of an object column is an [option string]: [None] is the missing
      value (NaN / NA / NULL).
    - A pandas [Series] is a [list]; vectorised operations are maps over it.
    - pandas, numpy and SQLite primitives whose bodies are not part of the
      repository (date inference, float parsing, float rounding and
      rendering, REAL arithmetic) are [Variable]s of the sections that use
      them; what a proof needs from them is an explicit hypothesis. *)

From Stdlib Require Import ZArith Ascii String List Bool Lia.
From Stdlib Require DecimalString DecimalNat DecimalFacts.
From stdpp Require Import base decidable option list strings gmap sorting.

Local Open Scope string_scope.

(** ** Text primitives (Python [str] methods and the [re] patterns used) *)

Module Text.

(** [str.isspace] on one character, which is also what [\s] matches in a
    [str] pattern: TAB..CR, FS..US, SPACE, NEL and NBSP. *)
Definition is_space (c : ascii) : bool :=
  let n := nat_of_ascii c in
  ((9 <=? n) && (n <=? 13) || (28 <=? n) && (n <=? 32)
   || (n =? 133) || (n =? 160))%nat.

(** [re.sub] of the pattern [\s+] by one space: every maximal run of
    whitespace becomes one space.  [in_run] tells that the previous character was whitespace. *)
Fixpoint sub_ws_from (in_run : bool) (s : string) : string :=
  match s with
  | EmptyString => EmptyString
  | String c r =>
      if is_space c
      then (if in_run then sub_ws_from true r
            else String " " (sub_ws_from true r))
      else String c (sub_ws_from false r)
  end.

Definition sub_ws (s : string) : string := sub_ws_from false s.

(** [str.lstrip()] and [str.rstrip()] without argument. *)
Fixpoint lstrip (s : string) : string :=
  match s with
  | EmptyString => EmptyString
  | String c r => if is_space c then lstrip r else s
  end.

Fixpoint rstrip (s : string) : string :=
  match s with
  | EmptyString => EmptyString
  | String c r =>
      match rstrip r with
      | EmptyString => if is_space c then EmptyString else String c EmptyString
      | r' => String c r'
      end
  end.

Definition strip (s : string) : string := rstrip (lstrip s).

(** [str.lower()] on the Latin-1 range: A..Z and the accented capitals
    (except the multiplication sign) move up by 32. *)
Definition lower_char (c : ascii) : ascii :=
  let n := nat_of_ascii c in
  if ((65 <=? n) && (n <=? 90)
      || (192 <=? n) && (n <=? 222) && negb (n =? 215))%nat
  then ascii_of_nat (n + 32) else c.

Fixpoint lower (s : string) : string :=
  match s with
  | EmptyString => EmptyString
  | String c r => String (lower_char c) (lower r)
  end.

(** [re.sub] of the character class of comma and dollar by nothing. *)
Fixpoint remove_comma_dollar (s : string) : string :=
  match s with
  | EmptyString => EmptyString
  | String c r =>
      if (Ascii.eqb c ",") || (Ascii.eqb c "$")
      then remove_comma_dollar r
      else String c (remove_comma_dollar r)
  end.

(** Does the character occur in the string? *)
Fixpoint has_char (a : ascii) (s : string) : bool :=
  match s with
  | EmptyString => false
  | String c r => Ascii.eqb c a || has_char a r
  end.

(** [s] without its last character when that character is [a]. *)
Fixpoint chop_last (a : ascii) (s : string) : option string :=
  match s with
  | EmptyString => None
  | String c EmptyString => if Ascii.eqb c a then Some EmptyString else None
  | String c r => String c <$> chop_last a r
  end.

Definition newline : ascii := ascii_of_nat 10.

(** [re.sub] of the pattern: start, open parenthesis, a greedy group of
    any characters, close parenthesis, end; by a minus sign followed by the
    group.  The pattern is anchored at both ends, so there is at most one
    match, starting at position 0; the dot does not match a line break; the
    end anchor matches at the very end and also just before a final line
    break, which then stays. *)
Definition paren_to_minus (s : string) : string :=
  match s with
  | String "(" r =>
      match chop_last ")" r with
      | Some mid =>
          if has_char newline mid then s else String "-" mid
      | None =>
          match chop_last newline r with
          | Some r' =>
              match chop_last ")" r' with
              | Some mid =>
                  if has_char newline mid then s
                  else String "-" (mid ++ String newline EmptyString)
              | None => s
              end
          | None => s
          end
      end
  | _ => s
  end.

(** Every character of the string satisfies [P]. *)
Fixpoint str_all (P : ascii -> bool) (s : string) : bool :=
  match s with
  | EmptyString => true
  | String c r => P c && str_all P r
  end.

(** Whitespace-only (or empty) text. *)
Definition all_space (s : string) : bool := str_all is_space s.

(** A character that may occur in normalised text: not whitespace, or the
    plain space. *)
Definition tidy_char (c : ascii) : bool :=
  negb (is_space c) || Ascii.eqb c " ".

(** Shape of normalised text, read left to right: a whitespace character
    must be the plain space and is allowed only where [sp] says so, never
    twice in a row; the text may end here when [e] says so, and right after
    a space only when [trail] says so. *)
Fixpoint shaped (trail sp e : bool) (s : string) : bool :=
  match s with
  | EmptyString => e
  | String c r =>
      if is_space c then sp && Ascii.eqb c " " && shaped trail false trail r
      else shaped trail true true r
  end.

End Text.

(** ** The transform step ([src/transform.py]) *)

Module Transform.

(** A cell of a text column: the ingest step reads every CSV field as
    [str], and concatenating files with different headers leaves NaN. *)
Abbreviation cell := (option string).

(** The input table: its column labels and its rows in order.  A row maps
    a label to the text of the cell; a label without a binding is NaN. *)
Record DataFrame := {
  columns : list string;
  rows : list (gmap string string)
}.

Definition len (df : DataFrame) : nat := length (rows df).

(** [df[c]] *)
Definition getcol (df : DataFrame) (c : string) : list cell :=
  (λ r : gmap string string, r !! c) <$> rows df.

(** [Series.fillna(d)] *)
Definition fillna {A} (d : A) (s : list (option A)) : list A :=
  default d <$> s.

(** [isna] on one element. *)
Definition isna {A} (x : option A) : bool :=
  match x with None => true | Some _ => false end.

(** Boolean indexing [frame[mask]]. *)
Fixpoint mask_select {A} (l : list A) (m : list bool) : list A :=
  match l, m with
  | x :: l', b :: m' =>
      if b then x :: mask_select l' m' else mask_select l' m'
  | _, _ => []
  end.

(** [_clean_text]: NaN becomes the empty text, whitespace runs collapse to
    one space, both ends are stripped. *)
Definition clean_str (s : string) : string := Text.strip (Text.sub_ws s).

Definition _clean_text (series : list cell) : list string :=
  clean_str <$> fillna "" series.

(** The calendar date of a pandas [Timestamp]; its time of day does not
    reach the year-month-day rendering. *)
Record Timestamp := { year : nat; month : nat; day : nat }.

Definition digit (n : nat) : ascii :=
  match n mod 10 with
  | 0 => "0" | 1 => "1" | 2 => "2" | 3 => "3" | 4 => "4"
  | 5 => "5" | 6 => "6" | 7 => "7" | 8 => "8" | _ => "9"
  end%char.

Definition two_digits (n : nat) : string :=
  String (digit (n / 10)) (String (digit n) EmptyString).

(** [strftime] with the format year-month-day, zero padded; the years of a
    [Timestamp] (1677 to 2262) have four digits. *)
Definition strftime_ymd (t : Timestamp) : string :=
  two_digits (year t / 100) ++ two_digits (year t) ++ "-"
  ++ two_digits (month t) ++ "-" ++ two_digits (day t).

(** [TransformMetadata] *)
Record TransformMetadata := {
  rows_in : Z;
  rows_out_clean : Z;
  rows_out_issues : Z;
  duplicates_removed : Z
}.

Inductive Exception := ValueError (msg : string).

(** [Series.duplicated(keep=first)]: a position is marked when its key was
    seen at an earlier position. *)
Fixpoint duplicated_from (seen : gset string) (keys : list string)
  : list bool :=
  match keys with
  | [] => []
  | k :: ks => bool_decide (k ∈ seen) :: duplicated_from ({[k]} ∪ seen) ks
  end.

Definition duplicated (keys : list string) : list bool :=
  duplicated_from ∅ keys.

(** [c in cols], and the labels of a frame after [frame[c] = ...]. *)
Definition has_col (cols : list string) (c : string) : bool :=
  bool_decide (c ∈ cols).

Definition set_col (cols : list string) (c : string) : list string :=
  if has_col cols c then cols else cols ++ [c].

Section Pandas.

(** float64 values other than NaN; NaN is [None]. *)
Variable Float : Type.

(** [pd.to_datetime(raw, errors=coerce, infer_datetime_format=True)]:
    the value at position [i] of the result, NaT being [None].  The
    format pandas infers may depend on the whole series. *)
Variable to_datetime : list string -> nat -> option Timestamp.

(** [pd.to_numeric(raw, errors=coerce)] on one text. *)
Variable to_numeric : string -> option Float.

(** [round(2)] on one float, and the text [astype(str)] gives a float. *)
Variable round2 : Float -> Float.
Variable float_str : Float -> string.

(** [_parse_date] *)
Definition _parse_date (series : list cell) : list string * list bool :=
  let raw := _clean_text series in
  let raw_is_blank := (λ s, String.eqb s "") <$> raw in
  let parsed := imap (λ i _, to_datetime raw i) raw in
  let invalid :=
    zip_with (λ p b, isna p && negb b) parsed raw_is_blank in
  let iso := (λ p : option Timestamp, strftime_ymd <$> p) <$> parsed in
  let iso := fillna "" iso in
  (iso, invalid).

(** [_parse_amount] *)
Definition _parse_amount (series : list cell)
  : list (option Float) * list bool :=
  let raw := _clean_text series in
  let raw := Text.paren_to_minus <$> raw in
  let raw := Text.remove_comma_dollar <$> raw in
  let raw_is_blank := (λ s, String.eqb s "") <$> raw in
  let amt := to_numeric <$> raw in
  let invalid :=
    zip_with (λ a b, isna a && negb b) amt raw_is_blank in
  (amt, invalid).

(** [astype(Float64)] turns NaN into NA; [astype(str)] then renders
    every element, NA included, as a [str].  No element of the result
    is missing. *)
Definition NA_str : string := "<NA>".

Definition astype_str (s : list (option Float)) : list cell :=
  (λ x, Some (from_option float_str NA_str x)) <$> s.

(** [_make_txn_key] *)
Definition _make_txn_key (date_iso : list string) (desc : list cell)
    (amt : list (option Float)) : list string :=
  let desc_norm := Text.lower <$> _clean_text desc in
  let rounded := (λ a : option Float, round2 <$> a) <$> amt in
  let amt_norm := fillna "" (astype_str rounded) in
  zip_with (λ k a, k ++ "|" ++ a)
    (zip_with (λ d n, d ++ "|" ++ n) date_iso desc_norm) amt_norm.

(** The text that reaches the numeric parser for one amount cell. *)
Definition amount_text (c : cell) : string :=
  Text.remove_comma_dollar
    (Text.paren_to_minus (clean_str (default "" c))).

(** The text of the amount component of a key. *)
Definition amount_key (a : option Float) : string :=
  from_option float_str NA_str (round2 <$> a).

(** One row of the working frame [out].  [orig] holds the cells of the
    input row; the frame keeps them under every label the function does
    not set.  Under a label the function sets (description, category,
    source, date_iso, amount_num, the three flags, txn_key) the cell of
    the frame is the field of that name, and the cell the input had there
    is gone from the frame. *)
Record Row := {
  orig : gmap string string;
  description : string;
  category : string;
  source : string;
  date_iso : string;
  amount_num : option Float;
  issue_date_invalid : bool;
  issue_amount_invalid : bool;
  has_issue : bool;
  txn_key : string
}.

(** An output frame: labels in order, rows in order. *)
Record Table := { labels : list string; records : list Row }.

(** [drop_duplicates(subset=[txn_key], keep=first)] *)
Definition drop_duplicates (l : list Row) : list Row :=
  mask_select l (negb <$> duplicated (txn_key <$> l)).

(** An optional text column: cleaned when present, empty otherwise. *)
Definition optional_text (df : DataFrame) (c : string) : list string :=
  if has_col (columns df) c then _clean_text (getcol df c)
  else replicate (len df) "".

(** The rows of [out] once every derived column is set (source lines
    107 to 133). *)
Definition normalized (df : DataFrame) : list Row :=
  let description := optional_text df "description" in
  let category := optional_text df "category" in
  let source := optional_text df "source" in
  let '(date_iso, bad_date) := _parse_date (getcol df "date") in
  let '(amount_num, bad_amount) := _parse_amount (getcol df "amount") in
  let has_issue := zip_with orb bad_date bad_amount in
  let txn_key := _make_txn_key date_iso (Some <$> description) amount_num in
  imap (λ i r, {|
    orig := r;
    description := description !!! i;
    category := category !!! i;
    source := source !!! i;
    date_iso := date_iso !!! i;
    amount_num := mjoin (amount_num !! i);
    issue_date_invalid := bad_date !!! i;
    issue_amount_invalid := bad_amount !!! i;
    has_issue := has_issue !!! i;
    txn_key := txn_key !!! i |}) (rows df).

(** Row [i] of [out] written cell by cell; [normalized_lookup] below
    shows that the column-wise definition produces exactly this row. *)
Definition optional_cell (df : DataFrame) (c : string)
    (r : gmap string string) : string :=
  if has_col (columns df) c then clean_str (default "" (r !! c)) else "".

Definition row_at (df : DataFrame) (i : nat) (r : gmap string string)
  : Row :=
  let parsed := to_datetime (_clean_text (getcol df "date")) i in
  let iso := from_option strftime_ymd "" parsed in
  let bad_date :=
    isna parsed && negb (String.eqb (clean_str (default "" (r !! "date"))) "") in
  let txt := amount_text (r !! "amount") in
  let amt := to_numeric txt in
  let bad_amount := isna amt && negb (String.eqb txt "") in
  let desc := optional_cell df "description" r in
  {| orig := r;
     description := desc;
     category := optional_cell df "category" r;
     source := optional_cell df "source" r;
     date_iso := iso;
     amount_num := amt;
     issue_date_invalid := bad_date;
     issue_amount_invalid := bad_amount;
     has_issue := bad_date || bad_amount;
     txn_key :=
       iso ++ "|" ++ Text.lower (clean_str desc) ++ "|" ++ amount_key amt |}.

Definition out_columns (df : DataFrame) : list string :=
  foldl set_col (columns df)
    ["description"; "category"; "source"; "date_iso"; "amount_num";
     "issue_date_invalid"; "issue_amount_invalid"; "has_issue"; "txn_key"].

Definition clean_labels (cols : list string) : list string :=
  let base_cols :=
    filter (λ c, c ∈ cols)
      ["date_iso"; "description"; "amount_num"; "category"; "source";
       "source_file"; "txn_key"] in
  let extra_cols :=
    filter (λ c, (c ∉ base_cols) ∧ String.prefix "issue_" c = false
                 ∧ c ≠ "has_issue") cols in
  base_cols ++ extra_cols.

Definition issue_labels (cols : list string) : list string :=
  let issue_cols :=
    filter (λ c, c ∈ cols)
      ["date"; "date_iso"; "description"; "amount"; "amount_num";
       "category"; "source"; "source_file"; "txn_key";
       "issue_date_invalid"; "issue_amount_invalid"] in
  let extra_issue_cols :=
    filter (λ c, (c ∉ issue_cols) ∧ c ≠ "has_issue") cols in
  issue_cols ++ extra_issue_cols.

(** The rows without issue, before duplicates are removed. *)
Definition clean_before_dedup (df : DataFrame) : list Row :=
  let out := normalized df in
  mask_select out (negb <$> (has_issue <$> out)).

(** [transform_transactions] *)
Definition transform_transactions (df : DataFrame)
  : Exception + (Table * Table * TransformMetadata) :=
  let rows_in := Z.of_nat (len df) in
  if negb (has_col (columns df) "date") then
    inl (ValueError "transform_transactions missing required column: date")
  else if negb (has_col (columns df) "amount") then
    inl (ValueError "transform_transactions missing required column: amount")
  else
    let out := normalized df in
    let cols := out_columns df in
    let issues_df := mask_select out (has_issue <$> out) in
    let clean_df := mask_select out (negb <$> (has_issue <$> out)) in
    let before := Z.of_nat (length clean_df) in
    let clean_df := drop_duplicates clean_df in
    let after := Z.of_nat (length clean_df) in
    let duplicates_removed := (before - after)%Z in
    let clean_df := {| labels := clean_labels cols; records := clean_df |} in
    let issues_df := {| labels := issue_labels cols; records := issues_df |} in
    inr (clean_df, issues_df,
         {| rows_in := rows_in;
            rows_out_clean := Z.of_nat (length (records clean_df));
            rows_out_issues := Z.of_nat (length (records issues_df));
            duplicates_removed := duplicates_removed |}).

End Pandas.

Arguments _parse_amount {Float}.
Arguments astype_str {Float}.
Arguments _make_txn_key {Float}.
Arguments amount_key {Float}.
Arguments orig {Float}.
Arguments description {Float}.
Arguments category {Float}.
Arguments source {Float}.
Arguments date_iso {Float}.
Arguments amount_num {Float}.
Arguments issue_date_invalid {Float}.
Arguments issue_amount_invalid {Float}.
Arguments has_issue {Float}.
Arguments txn_key {Float}.
Arguments labels {Float}.
Arguments records {Float}.
Arguments drop_duplicates {Float}.
Arguments normalized {Float}.
Arguments row_at {Float}.
Arguments clean_before_dedup {Float}.
Arguments transform_transactions {Float}.

End Transform.

(** ** The KPI views ([src/queries.py]) *)

Module Queries.

(** SQLite [TRIM(X)]: removes the space character, and only it, from both
    ends. *)
Fixpoint ltrim (s : string) : string :=
  match s with
  | String c r => if Ascii.eqb c " " then ltrim r else s
  | EmptyString => EmptyString
  end.

Fixpoint rtrim (s : string) : string :=
  match s with
  | EmptyString => EmptyString
  | String c r =>
      match rtrim r with
      | EmptyString =>
          if Ascii.eqb c " " then EmptyString else String c EmptyString
      | r' => String c r'
      end
  end.

Definition TRIM (s : string) : string := rtrim (ltrim s).

(** SQLite [SUBSTR(X, 1, 7)] on a text value. *)
Definition SUBSTR_1_7 (s : string) : string := String.substring 0 7 s.

(** Ascending order of a text column: NULL sorts first, texts compare
    byte by byte. *)
Definition text_le (a b : option string) : Prop :=
  match a, b with
  | None, _ => True
  | Some _, None => False
  | Some x, Some y => String.le x y
  end.

Global Instance text_le_dec : RelDecision text_le.
Proof. intros [x|] [y|]; simpl; apply _. Defined.

(** SQLite compares the names of columns without regard to the case of the
    letters A to Z. *)
Definition sql_fold_char (c : ascii) : ascii :=
  let n := nat_of_ascii c in
  if ((65 <=? n) && (n <=? 90))%nat then ascii_of_nat (n + 32) else c.

Fixpoint sql_fold (s : string) : string :=
  match s with
  | EmptyString => EmptyString
  | String c r => String (sql_fold_char c) (sql_fold r)
  end.

(** Does the table have a column that the name [c] refers to? *)
Definition has_column (labels : list string) (c : string) : bool :=
  existsb (λ l, String.eqb (sql_fold l) (sql_fold c)) labels.

Section SQLite.

(** REAL values; NULL is [None]. *)
Variable Real : Type.
Variable zero : Real.
Variable add : Real -> Real -> Real.
Variable abs : Real -> Real.
Variable round2 : Real -> Real.
Variable leb : Real -> Real -> bool.

(** One row of the table [transactions], with the columns the views
    read. *)
Record Txn := {
  date_iso : option string;
  amount_num : option Real;
  category : option string;
  source_file : option string;
  run_id : option string
}.

(** The optional [WHERE run_id = ?] clause; an absent or empty run
    identifier leaves the table unfiltered. *)
Definition where_run (rid : option string) (t : list Txn) : list Txn :=
  match rid with
  | Some id =>
      if String.eqb id "" then t
      else filter (λ r, run_id r = Some id) t
  | None => t
  end.

(** [SUM(X)]: the non-NULL values added in row order, NULL when there is
    none. *)
Definition SUM (xs : list (option Real)) : option Real :=
  foldl (λ acc x,
           match x with
           | None => acc
           | Some v => Some (from_option (λ a, add a v) v acc)
           end) None xs.

Definition ROUND2 (x : option Real) : option Real := round2 <$> x.
Definition ABS (x : option Real) : option Real := abs <$> x.

(** [CASE WHEN amount_num > 0 THEN amount_num ELSE 0 END] and its
    mirror image; a NULL amount takes the ELSE branch. *)
Definition positive_part (a : option Real) : option Real :=
  match a with
  | Some v => if negb (leb v zero) then Some v else Some zero
  | None => Some zero
  end.

Definition negative_part (a : option Real) : option Real :=
  match a with
  | Some v => if negb (leb zero v) then Some v else Some zero
  | None => Some zero
  end.

(** Order of a REAL column: NULL is smaller than every value. *)
Definition real_le (a b : option Real) : Prop :=
  match a, b with
  | None, _ => True
  | Some _, None => False
  | Some x, Some y => leb x y = true
  end.

Global Instance real_le_dec : RelDecision real_le.
Proof. intros [x|] [y|]; simpl; apply _. Defined.

(** [GROUP BY key]: one group per distinct key value. *)
Definition group_keys {K} `{EqDecision K} (key : Txn -> K)
    (t : list Txn) : list K :=
  remove_dups (key <$> t).

Definition group {K} `{EqDecision K} (key : Txn -> K) (k : K)
    (t : list Txn) : list Txn :=
  filter (λ r, key r = k) t.

(** *** Monthly trends *)

Record MonthRow := {
  year_month : option string;
  m_net_total : option Real;
  income : option Real;
  expenses : option Real;
  m_row_count : nat
}.

Definition month_key (r : Txn) : option string :=
  SUBSTR_1_7 <$> date_iso r.

Definition month_row (t : list Txn) (k : option string) : MonthRow :=
  let g := group month_key k t in
  {| year_month := k;
     m_net_total := ROUND2 (SUM (amount_num <$> g));
     income := ROUND2 (SUM (positive_part <$> (amount_num <$> g)));
     expenses := ROUND2 (ABS (SUM (negative_part <$> (amount_num <$> g))));
     m_row_count := length g |}.

(** [ORDER BY year_month] *)
Definition by_year_month (a b : MonthRow) : Prop :=
  text_le (year_month a) (year_month b).

Global Instance by_year_month_dec : RelDecision by_year_month.
Proof. intros a b. unfold by_year_month. apply _. Defined.

Definition monthly_trends (rid : option string) (table : list Txn)
  : list MonthRow :=
  let t := where_run rid table in
  merge_sort by_year_month (month_row t <$> group_keys month_key t).

(** *** Category summary *)

Record CategoryRow := {
  c_category : string;
  c_net_total : option Real;
  c_row_count : nat
}.

Definition Uncategorized : string := "Uncategorized".

(** The CASE expression that is both selected and grouped by. *)
Definition category_key (r : Txn) : string :=
  match category r with
  | None => Uncategorized
  | Some c => if String.eqb (TRIM c) "" then Uncategorized else c
  end.

Definition category_row (t : list Txn) (k : string) : CategoryRow :=
  let g := group category_key k t in
  {| c_category := k;
     c_net_total := ROUND2 (SUM (amount_num <$> g));
     c_row_count := length g |}.

(** [ORDER BY ABS(net_total) DESC] when the name refers to the result
    column: a row comes before another when its absolute net total is not
    smaller. *)
Definition by_abs_net_desc (a b : CategoryRow) : Prop :=
  real_le (ABS (c_net_total b)) (ABS (c_net_total a)).

Global Instance by_abs_net_desc_dec : RelDecision by_abs_net_desc.
Proof. intros a b. unfold by_abs_net_desc. apply _. Defined.

(** Inside an expression of ORDER BY, SQLite looks a name up among the
    columns of the table before the result columns.  When the stored table
    has a column of its own called net_total (an input column of that name
    is kept by the transform and stored by the load), the term reads that
    column: for the group of a category, the number SQLite takes from one
    of the rows of the group, which this parameter stands for. *)
Variable own_net_total : string -> option Real.

Definition by_own_net_total (a b : CategoryRow) : Prop :=
  real_le (ABS (own_net_total (c_category b)))
    (ABS (own_net_total (c_category a))).

Global Instance by_own_net_total_dec : RelDecision by_own_net_total.
Proof. intros a b. unfold by_own_net_total. apply _. Defined.

(** The category summary of a stored table with the column labels
    [labels]. *)
Definition category_summary (labels : list string) (rid : option string)
    (table : list Txn) : list CategoryRow :=
  let t := where_run rid table in
  let rows := category_row t <$> group_keys category_key t in
  if has_column labels "net_total" then merge_sort by_own_net_total rows
  else merge_sort by_abs_net_desc rows.

(** A category cell the view treats as blank: NULL, empty, or spaces
    only. *)
Definition blank_category (r : Txn) : bool :=
  match category r with
  | None => true
  | Some c => String.eqb (TRIM c) ""
  end.

(** What [load_to_sqlite] stores in [transactions] for one clean row
    ([src/load.py], [to_sql] after the audit columns are added). *)
Definition to_sql (rid : string) (r : Transform.Row Real) : Txn :=
  {| date_iso := Some (Transform.date_iso r);
     amount_num := Transform.amount_num r;
     category := Some (Transform.category r);
     source_file := Transform.orig r !! "source_file";
     run_id := Some rid |}.

End SQLite.

Arguments date_iso {Real}.
Arguments amount_num {Real}.
Arguments category {Real}.
Arguments source_file {Real}.
Arguments run_id {Real}.
Arguments where_run {Real}.
Arguments group_keys {Real K _}.
Arguments group {Real K _}.
Arguments year_month {Real}.
Arguments m_net_total {Real}.
Arguments income {Real}.
Arguments expenses {Real}.
Arguments m_row_count {Real}.
Arguments month_key {Real}.
Arguments c_category {Real}.
Arguments c_net_total {Real}.
Arguments c_row_count {Real}.
Arguments category_key {Real}.
Arguments blank_category {Real}.
Arguments to_sql {Real}.

End Queries.

(** ** A small executable stand-in for the library primitives

    Amounts are counted in hundredths; dates are read in the two layouts
    year-month-day and month/day/year, element by element.  The stand-in is
    used to run the model on concrete tables; no general statement depends
    on it.  It reads fewer texts than the libraries do (no exponent, no
    leading point, no infinity, no name of a month), it does not check the
    day against the month, and it has one zero (the stand-in [Signed]
    below has two); pandas reads a column of dates in the layout of its
    first date, so a sample meant to run as the code does keeps to one
    layout. *)

Module Ref.
Import Transform.

Definition digit_val (c : ascii) : option nat :=
  let n := nat_of_ascii c in
  if ((48 <=? n) && (n <=? 57))%nat then Some (n - 48) else None.

Fixpoint digits_val (acc : nat) (s : string) : option nat :=
  match s with
  | EmptyString => Some acc
  | String c r =>
      match digit_val c with
      | Some d => digits_val (10 * acc + d) r
      | None => None
      end
  end.

(** A non-empty run of decimal digits. *)
Definition nat_of_digits (s : string) : option nat :=
  match s with
  | EmptyString => None
  | _ => digits_val 0 s
  end.

Definition mk_date (y m d : option nat) : option Timestamp :=
  match y, m, d with
  | Some y, Some m, Some d =>
      if ((1 <=? m) && (m <=? 12) && (1 <=? d) && (d <=? 31))%nat
      then Some {| year := y; month := m; day := d |}
      else None
  | _, _, _ => None
  end.

Definition date_of_text (s : string) : option Timestamp :=
  if negb (String.length s =? 10)%nat then None
  else if String.eqb (substring 4 1 s) "-" && String.eqb (substring 7 1 s) "-"
  then mk_date (nat_of_digits (substring 0 4 s))
         (nat_of_digits (substring 5 2 s)) (nat_of_digits (substring 8 2 s))
  else if String.eqb (substring 2 1 s) "/" && String.eqb (substring 5 1 s) "/"
  then mk_date (nat_of_digits (substring 6 4 s))
         (nat_of_digits (substring 0 2 s)) (nat_of_digits (substring 3 2 s))
  else None.

Definition to_datetime (raw : list string) (i : nat) : option Timestamp :=
  raw !! i ≫= date_of_text.

(** The text before the first point, and the text behind it. *)
Fixpoint split_point (s : string) : string * option string :=
  match s with
  | EmptyString => (EmptyString, None)
  | String c r =>
      if Ascii.eqb c "." then (EmptyString, Some r)
      else let '(a, b) := split_point r in (String c a, b)
  end.

(** Hundredths from an unsigned decimal text with at most two decimals. *)
Definition hundredths (s : string) : option nat :=
  let '(ip, fp) := split_point s in
  match nat_of_digits ip with
  | None => None
  | Some w =>
      match fp with
      | None | Some EmptyString => Some (100 * w)
      | Some (String a EmptyString) =>
          (λ d, 100 * w + 10 * d) <$> digit_val a
      | Some (String a (String b EmptyString)) =>
          match digit_val a, digit_val b with
          | Some d, Some e => Some (100 * w + 10 * d + e)
          | _, _ => None
          end
      | Some _ => None
      end
  end.

Definition to_numeric (s : string) : option Z :=
  match s with
  | String "-" r => (λ n, (- Z.of_nat n)%Z) <$> hundredths r
  | String "+" r => Z.of_nat <$> hundredths r
  | _ => Z.of_nat <$> hundredths s
  end.

(** Hundredths are already rounded to two decimals. *)
Definition round2 (z : Z) : Z := z.

Definition nat_str (n : nat) : string :=
  DecimalString.NilZero.string_of_uint (Nat.to_uint n).

(** The decimals of a float text: one digit when the second is zero. *)
Definition frac_str (f : nat) : string :=
  if (f mod 10 =? 0)%nat then String (digit (f / 10)) EmptyString
  else two_digits f.

Definition float_str (z : Z) : string :=
  let n := Z.abs_nat z in
  (if (z <? 0)%Z then "-" else "")
  ++ nat_str (n / 100) ++ "." ++ frac_str (n mod 100).

(** The same amounts as SQLite REAL values. *)
Definition real_leb (a b : Z) : bool := (a <=? b)%Z.

(** A sample input: four rows of the shape of the end-to-end scenario of
    the specification, one row without date and one without amount. *)
Definition sample : DataFrame :=
  {| columns := ["date"; "description"; "amount"; "category"; "source_file"];
     rows :=
       [ {[ "date" := "01/02/2024"; "description" := "Coffee";
            "amount" := "$4.50"; "category" := "Food";
            "source_file" := "a.csv" ]};
         {[ "date" := "2024-01-02"; "description" := " coffee ";
            "amount" := "4.50"; "category" := "";
            "source_file" := "a.csv" ]};
         {[ "date" := "bad-date"; "description" := "Lunch";
            "amount" := "12.00"; "category" := "Food";
            "source_file" := "a.csv" ]};
         {[ "date" := "2024-01-03"; "description" := "Rent";
            "amount" := "(1,200.00)"; "category" := "Uncategorized";
            "source_file" := "b.csv" ]};
         {[ "date" := "  "; "description" := "Cash";
            "amount" := "20"; "source_file" := "b.csv" ]};
         {[ "date" := "2024-02-01"; "description" := "Memo";
            "amount" := ""; "category" := " ";
            "source_file" := "b.csv" ]} ] |}.

Definition transform (df : DataFrame) :=
  transform_transactions to_datetime to_numeric round2 float_str df.

(** The working frame of the sample, and its row at a position. *)
Definition frame : list (Row Z) :=
  normalized to_datetime to_numeric round2 float_str sample.

Definition frame_row (i : nat) : Row Z :=
  row_at to_datetime to_numeric round2 float_str sample i
    (default ∅ (rows sample !! i)).

(** The table [transactions] after the sample run is loaded, and the two
    views queried for that run. *)
Definition run : string := "20240105_120000".

Definition transactions : list (Queries.Txn Z) :=
  match transform sample with
  | inr (clean, _, _) => Queries.to_sql run <$> records clean
  | inl _ => []
  end.

Definition monthly : list (Queries.MonthRow Z) :=
  Queries.monthly_trends Z 0%Z Z.add Z.abs round2 real_leb (Some run)
    transactions.

(** A second sample, with dates of one layout only, so that the run does
    not depend on how a column of mixed layouts is read: one category is
    the text Uncategorized, one is empty and one is a space. *)
Definition ledger : DataFrame :=
  {| columns := ["date"; "description"; "amount"; "category"; "source_file"];
     rows :=
       [ {[ "date" := "2024-01-02"; "description" := "Coffee";
            "amount" := "4.50"; "category" := "Food";
            "source_file" := "a.csv" ]};
         {[ "date" := "2024-01-03"; "description" := "Rent";
            "amount" := "(1,200.00)"; "category" := "Uncategorized";
            "source_file" := "a.csv" ]};
         {[ "date" := "2024-01-05"; "description" := "Cash";
            "amount" := "20.00"; "category" := "";
            "source_file" := "b.csv" ]};
         {[ "date" := "2024-02-01"; "description" := "Gift";
            "amount" := "15.00"; "category" := " ";
            "source_file" := "b.csv" ]} ] |}.

(** The rows and the column labels of the table [transactions] after the
    run of a frame is loaded. *)
Definition stored (df : DataFrame) : list (Queries.Txn Z) :=
  match transform df with
  | inr (clean, _, _) => Queries.to_sql run <$> records clean
  | inl _ => []
  end.

Definition stored_labels (df : DataFrame) : list string :=
  match transform df with
  | inr (clean, _, _) =>
      set_col (set_col (labels clean) "run_id") "loaded_at_utc"
  | inl _ => []
  end.

(** The category summary of the second sample; its table has no column
    net_total of its own. *)
Definition summary : list (Queries.CategoryRow Z) :=
  Queries.category_summary Z Z.add Z.abs round2 real_leb (λ _, None)
    (stored_labels ledger) (Some run) (stored ledger).

Definition is_digit (c : ascii) : bool :=
  match digit_val c with Some _ => true | None => false end.

(** The characters of a rendered amount. *)
Definition amount_char (c : ascii) : bool :=
  is_digit c || Ascii.eqb c "-" || Ascii.eqb c ".".

End Ref.

(** ** A stand-in for the floats with both zeros

    float64 has a zero and a negative zero, equal as numbers and rendered
    as 0.0 and -0.0.  An amount is a sign and a count of hundredths. *)

Module Signed.
Import Transform.

Record Float := { negative : bool; magnitude : nat }.

Definition to_numeric (s : string) : option Float :=
  match s with
  | String "-" r => Build_Float true <$> Ref.hundredths r
  | String "+" r => Build_Float false <$> Ref.hundredths r
  | _ => Build_Float false <$> Ref.hundredths s
  end.

(** Hundredths are already rounded to two decimals; the sign stays. *)
Definition round2 (x : Float) : Float := x.

Definition float_str (x : Float) : string :=
  (if negative x then "-" else "")
  ++ Ref.nat_str (magnitude x / 100) ++ "."
  ++ Ref.frac_str (magnitude x mod 100).

(** The comparison [==] of two floats: the two zeros are equal. *)
Definition feq (x y : Float) : bool :=
  (magnitude x =? magnitude y)%nat
  && ((magnitude x =? 0)%nat || Bool.eqb (negative x) (negative y)).

Definition zero : Float := {| negative := false; magnitude := 0 |}.
Definition negative_zero : Float := {| negative := true; magnitude := 0 |}.

(** Two records of the same date, description and amount; the amount is
    written as a plain zero and as a zero in parentheses. *)
Definition zeros : DataFrame :=
  {| columns := ["date"; "description"; "amount"; "source_file"];
     rows :=
       [ {[ "date" := "2024-01-02"; "description" := " Refund ";
            "amount" := "0.00"; "source_file" := "a.csv" ]};
         {[ "date" := "2024-01-02"; "description" := "refund";
            "amount" := "(0.00)"; "source_file" := "a.csv" ]} ] |}.

Definition transform (df : DataFrame) :=
  transform_transactions Ref.to_datetime to_numeric round2 float_str df.

End Signed.

(** ** The description of a record, in the words of the specification

    The specification compares descriptions after lowercase and whitespace
    normalisation.  Said without the functions of the code: two
    descriptions are the same when they have the same words, the case of
    the letters apart. *)

Module Spec.

(** The words of a text: its maximal runs of characters that are not
    whitespace. *)
Fixpoint words (s : string) : list string :=
  match s with
  | EmptyString => []
  | String c r =>
      let rest := words r in
      if Text.is_space c then rest
      else
        match r, rest with
        | String d _, w :: ws =>
            if Text.is_space d then String c EmptyString :: rest
            else String c w :: ws
        | _, _ => String c EmptyString :: rest
        end
  end.

(** The small letter of a capital letter, by its code in Latin-1: A to Z
    and the accented capitals have it 32 places up. *)
Definition small (c : ascii) : ascii :=
  let n := N_of_ascii c in
  if ((65 <=? n) && (n <=? 90) || (192 <=? n) && (n <=? 214)
      || (216 <=? n) && (n <=? 222))%N
  then ascii_of_N (n + 32) else c.

Fixpoint small_word (w : string) : string :=
  match w with
  | EmptyString => EmptyString
  | String c r => String (small c) (small_word r)
  end.

Definition same_description (d1 d2 : string) : Prop :=
  small_word <$> words d1 = small_word <$> words d2.

(** The description a record comes with: the text of its cell, empty when
    the cell or the whole column is missing. *)
Definition description_of (df : Transform.DataFrame)
    (r : gmap string string) : string :=
  if Transform.has_col (Transform.columns df) "description"
  then default "" (r !! "description") else "".

End Spec.

(** ** Column labels and the required-column check ([src/ingest.py]) *)

Module Ingest.

(** [str.replace] of the space by the underscore. *)
Fixpoint replace_space (s : string) : string :=
  match s with
  | EmptyString => EmptyString
  | String c r =>
      String (if Ascii.eqb c " " then "_"%char else c) (replace_space r)
  end.

(** [_standardize_columns]: strip, lower-case, spaces to underscores. *)
Definition standardize_label (c : string) : string :=
  replace_space (Text.lower (Text.strip c)).

Definition _standardize_columns (cols : list string) : list string :=
  standardize_label <$> cols.

(** [_find_first_existing_column] *)
Fixpoint _find_first_existing_column (df_cols aliases : list string)
  : option string :=
  match aliases with
  | [] => None
  | a :: rest =>
      if bool_decide (a ∈ df_cols) then Some a
      else _find_first_existing_column df_cols rest
  end.

Definition CANONICAL_REQUIRED : list string := ["date"; "amount"].

(** [sorted(set(l))]: distinct elements in ascending order of code
    points. *)
Definition sorted_set (l : list string) : list string :=
  merge_sort String.le (remove_dups l).

(** [sep.join(l)] *)
Fixpoint join (sep : string) (l : list string) : string :=
  match l with
  | [] => EmptyString
  | [x] => x
  | x :: rest => x ++ sep ++ join sep rest
  end.

Definition nl : string := String Text.newline EmptyString.

Inductive Exception := UserFacingError (msg : string).

(** [CANONICAL_REQUIRED - set(combined.columns)] *)
Definition missing_required (cols : list string) : list string :=
  filter (λ c, c ∉ cols) CANONICAL_REQUIRED.

(** The validation that ends [ingest_csv_folder] (source lines 128 to
    141), on the labels of the combined frame. *)
Definition validate_required (cols : list string) : Exception + unit :=
  let missing := missing_required cols in
  match missing with
  | [] => inr tt
  | _ =>
      let found := sorted_set cols in
      inl (UserFacingError
        ("Missing required canonical column(s) after mapping: "
         ++ join ", " (sorted_set missing) ++ nl ++ nl
         ++ "This project requires at minimum:" ++ nl
         ++ "- date (a date column)" ++ nl
         ++ "- amount (a numeric revenue/expense column like revenue/net_revenue)"
         ++ nl ++ nl
         ++ "Columns found in your file(s):" ++ nl ++ "- "
         ++ join (nl ++ "- ") found ++ nl ++ nl
         ++ "Fix by editing config/column_map.json to map your column names to 'date' and 'amount'."))
  end.

End Ingest.

(** ** The stored tables ([src/load.py]) and the remaining views *)

Module Store.

(** A wall-clock reading of [datetime.utcnow()], to the second. *)
Record DateTime := {
  dt_year : nat; dt_month : nat; dt_day : nat;
  dt_hour : nat; dt_minute : nat; dt_second : nat
}.

(** The readings whose year [strftime] writes with four digits. *)
Definition in_range (now : DateTime) : Prop :=
  1000 <= dt_year now < 100 * 100 ∧ 1 <= dt_month now <= 12
  ∧ 1 <= dt_day now <= 31 ∧ dt_hour now < 24 ∧ dt_minute now < 60
  ∧ dt_second now < 60.

Definition four_digits (n : nat) : string :=
  Transform.two_digits (n / 100) ++ Transform.two_digits n.

(** [_make_run_id]: the reading in the layout YYYYmmdd_HHMMSS. *)
Definition _make_run_id (now : DateTime) : string :=
  four_digits (dt_year now) ++ Transform.two_digits (dt_month now)
  ++ Transform.two_digits (dt_day now) ++ "_"
  ++ Transform.two_digits (dt_hour now)
  ++ Transform.two_digits (dt_minute now)
  ++ Transform.two_digits (dt_second now).

(** [_utc_now_iso]: ISO layout without microseconds, with a final Z. *)
Definition _utc_now_iso (now : DateTime) : string :=
  four_digits (dt_year now) ++ "-" ++ Transform.two_digits (dt_month now)
  ++ "-" ++ Transform.two_digits (dt_day now) ++ "T"
  ++ Transform.two_digits (dt_hour now) ++ ":"
  ++ Transform.two_digits (dt_minute now) ++ ":"
  ++ Transform.two_digits (dt_second now) ++ "Z".

(** One row of the table [pipeline_runs]; the run identifier is its
    primary key. *)
Record RunLog := {
  log_loaded_at_utc : string;
  log_rows_clean : Z;
  log_rows_issues : Z
}.

(** [LoadMetadata] *)
Record LoadMetadata := {
  db_path : string;
  run_id : string;
  loaded_at_utc : string;
  rows_loaded_clean : Z;
  rows_loaded_issues : Z
}.

(** The errors of the two modules; [DatabaseError] is the pandas error
    that [read_sql_query] raises when SQLite rejects a statement (its text
    quotes the statement and is not modelled). *)
Inductive Exception :=
  | ValueError (msg : string)
  | RuntimeError (msg : string)
  | DatabaseError.

Section SQLite.

Variable Real : Type.

(** A row of a frame with the two audit columns set. *)
Record Audited := {
  base : Transform.Row Real;
  au_run_id : string;
  au_loaded_at_utc : string
}.

Record AuditedTable := {
  a_labels : list string;
  a_records : list Audited
}.

(** [_add_audit_columns] *)
Definition _add_audit_columns (df : Transform.Table Real)
    (run_id loaded_at_utc : string) : AuditedTable :=
  {| a_labels :=
       Transform.set_col (Transform.set_col (Transform.labels df) "run_id")
         "loaded_at_utc";
     a_records :=
       (λ r, {| base := r; au_run_id := run_id;
                au_loaded_at_utc := loaded_at_utc |})
         <$> Transform.records df |}.

(** The database file: each table is absent or holds its column labels
    and its rows.  Of a row of [transactions] the columns the views read
    are kept. *)
Record Database := {
  transactions : option (list string * list (Queries.Txn Real));
  data_issues : option (list string * list Audited);
  pipeline_runs : option (gmap string RunLog)
}.

Definition empty_db : Database :=
  {| transactions := None; data_issues := None; pipeline_runs := None |}.

(** [frame.to_sql(table, if_exists=...)]: replace drops the old table and
    creates it from the frame, append keeps the old rows in front; an
    absent table is created from the frame. *)
Definition to_sql_table {A} (if_exists : string)
    (old : option (list string * list A)) (labels : list string)
    (new : list A) : option (list string * list A) :=
  if String.eqb if_exists "replace" then Some (labels, new)
  else
    match old with
    | None => Some (labels, new)
    | Some (l, rows) => Some (l, (rows ++ new)%list)
    end.

Definition stored (a : Audited) : Queries.Txn Real :=
  Queries.to_sql (au_run_id a) (base a).

(** [load_to_sqlite]; the two clock readings are those of [_make_run_id]
    and of [_utc_now_iso].  The two calls of [to_sql] are taken to succeed.
    pandas and SQLite refuse a frame with an empty label or with two
    labels that SQLite does not tell apart and, when appending, a frame
    with a column the stored table lacks; these failures are not modelled:
    the definition describes the calls that succeed. *)
Definition load_to_sqlite (clean_df issues_df : Transform.Table Real)
    (path : string) (mode : string) (now_id now_iso : DateTime)
    (db : Database)
  : Exception + (LoadMetadata * AuditedTable * AuditedTable * Database) :=
  if negb (String.eqb mode "replace" || String.eqb mode "append") then
    inl (ValueError "mode must be 'replace' or 'append'")
  else
    let run_id := _make_run_id now_id in
    let loaded_at_utc := _utc_now_iso now_iso in
    let clean_out := _add_audit_columns clean_df run_id loaded_at_utc in
    let issues_out := _add_audit_columns issues_df run_id loaded_at_utc in
    let runs := default ∅ (pipeline_runs db) in
    let if_exists := if String.eqb mode "replace" then "replace" else "append" in
    let n_clean := Z.of_nat (length (a_records clean_out)) in
    let n_issues := Z.of_nat (length (a_records issues_out)) in
    let db' :=
      {| transactions :=
           to_sql_table if_exists (transactions db) (a_labels clean_out)
             (stored <$> a_records clean_out);
         data_issues :=
           to_sql_table if_exists (data_issues db) (a_labels issues_out)
             (a_records issues_out);
         pipeline_runs :=
           Some (<[run_id :=
                     {| log_loaded_at_utc := loaded_at_utc;
                        log_rows_clean := n_clean;
                        log_rows_issues := n_issues |}]> runs) |} in
    inr ({| db_path := path; run_id := run_id;
            loaded_at_utc := loaded_at_utc;
            rows_loaded_clean := n_clean;
            rows_loaded_issues := n_issues |},
         clean_out, issues_out, db').

Variable zero : Real.
Variable add : Real -> Real -> Real.
Variable abs : Real -> Real.
Variable round2 : Real -> Real.
Variable leb : Real -> Real -> bool.

(** *** KPI summary: one row, also over an empty table *)

Record KpiRow := {
  k_row_count : nat;
  total_income : option Real;
  total_expenses : option Real;
  k_net_total : option Real
}.

Definition kpi_summary (rid : option string)
    (table : list (Queries.Txn Real)) : KpiRow :=
  let t := Queries.where_run rid table in
  let amounts := Queries.amount_num <$> t in
  {| k_row_count := length t;
     total_income :=
       Queries.ROUND2 Real round2
         (Queries.SUM Real add (Queries.positive_part Real zero leb <$> amounts));
     total_expenses :=
       Queries.ROUND2 Real round2
         (Queries.ABS Real abs
            (Queries.SUM Real add
               (Queries.negative_part Real zero leb <$> amounts)));
     k_net_total := Queries.ROUND2 Real round2 (Queries.SUM Real add amounts) |}.

(** *** Source-file summary *)

Record SourceRow := {
  s_source_file : option string;
  s_net_total : option Real;
  s_row_count : nat
}.

Definition source_row (t : list (Queries.Txn Real)) (k : option string)
  : SourceRow :=
  let g := Queries.group Queries.source_file k t in
  {| s_source_file := k;
     s_net_total :=
       Queries.ROUND2 Real round2
         (Queries.SUM Real add (Queries.amount_num <$> g));
     s_row_count := length g |}.

(** [ORDER BY row_count DESC] *)
Definition by_row_count_desc (a b : SourceRow) : Prop :=
  s_row_count b <= s_row_count a.

Global Instance by_row_count_desc_dec : RelDecision by_row_count_desc.
Proof. intros a b. unfold by_row_count_desc. apply _. Defined.

Definition source_file_summary (rid : option string)
    (table : list (Queries.Txn Real)) : list SourceRow :=
  let t := Queries.where_run rid table in
  merge_sort by_row_count_desc
    (source_row t <$> Queries.group_keys Queries.source_file t).

(** [QueryResults] *)
Record QueryResults := {
  r_kpi_summary : KpiRow;
  r_monthly_trends : list (Queries.MonthRow Real);
  r_category_summary : list (Queries.CategoryRow Real);
  r_source_file_summary : list SourceRow
}.

(** The columns the four statements name; the run identifier only when
    the filter clause is there. *)
Definition view_columns (run_id : option string) : list string :=
  ["amount_num"; "date_iso"; "category"; "source_file"]
  ++ match run_id with
     | Some id => if String.eqb id "" then [] else ["run_id"]
     | None => []
     end.

(** SQLite raises an integer overflow when a SUM or an ABS of the
    statements leaves the 64-bit range, which can happen when the amounts
    are stored as INTEGER (a column of whole numbers); the parameter tells
    for the rows of a run whether this happens. *)
Variable sqlite_overflow : list (Queries.Txn Real) -> bool.

(** The number the ORDER BY term of the category summary reads from a
    column net_total of the table itself (see [Queries.category_summary]). *)
Variable own_net_total : string -> option Real.

(** [get_query_results]: the check that the table exists, then the four
    statements, which SQLite rejects when the table lacks a column they
    name or when its arithmetic overflows. *)
Definition get_query_results (db : Database) (run_id : option string)
  : Exception + QueryResults :=
  match transactions db with
  | None =>
      inl (RuntimeError
             "SQLite table 'transactions' not found. Run the pipeline load step first.")
  | Some (labels, table) =>
      if forallb (Queries.has_column labels) (view_columns run_id) then
        if sqlite_overflow (Queries.where_run run_id table) then
          inl DatabaseError
        else
          inr {| r_kpi_summary := kpi_summary run_id table;
                 r_monthly_trends :=
                   Queries.monthly_trends Real zero add abs round2 leb
                     run_id table;
                 r_category_summary :=
                   Queries.category_summary Real add abs round2 leb
                     own_net_total labels run_id table;
                 r_source_file_summary := source_file_summary run_id table |}
      else inl DatabaseError
  end.

End SQLite.

Arguments base {Real}.
Arguments au_run_id {Real}.
Arguments au_loaded_at_utc {Real}.
Arguments a_labels {Real}.
Arguments a_records {Real}.
Arguments _add_audit_columns {Real}.
Arguments transactions {Real}.
Arguments data_issues {Real}.
Arguments pipeline_runs {Real}.
Arguments empty_db {Real}.
Arguments stored {Real}.
Arguments load_to_sqlite {Real}.
Arguments k_row_count {Real}.
Arguments total_income {Real}.
Arguments total_expenses {Real}.
Arguments k_net_total {Real}.
Arguments s_source_file {Real}.
Arguments s_net_total {Real}.
Arguments s_row_count {Real}.
Arguments r_kpi_summary {Real}.
Arguments r_monthly_trends {Real}.
Arguments r_category_summary {Real}.
Arguments r_source_file_summary {Real}.

End Store.

(** ** Sheet names and column widths ([src/report.py]) *)

Module Report.

(** The slice [s[:n]]. *)
Fixpoint str_take (n : nat) (s : string) : string :=
  match n, s with
  | S n', String c r => String c (str_take n' r)
  | _, _ => EmptyString
  end.

(** [_safe_sheet_name] *)
Definition _safe_sheet_name (name : string) : string :=
  str_take 31 (Text.strip name).

(** The width [_autofit_and_format] gives a column, from its header and
    the texts [astype(str)] gives its cells: the longest of the header and
    of the first fifty cells, plus two, capped at 45. *)
Definition column_width (header : string) (cells : list string) : nat :=
  let header_len := String.length header in
  let sample := String.length <$> take 50 cells in
  let max_len :=
    match sample with
    | [] => header_len
    | _ => foldr Nat.max 0 (header_len :: sample)
    end in
  Nat.min (max_len + 2) 45.

Definition sheet_names : list string :=
  ["Summary"; "Monthly_Trends"; "Category_Summary"; "Source_File_Summary";
   "Clean_Data"; "Data_Issues"].

(** [_write_df]: the title of the sheet the frame is written to. *)
Definition _write_df (sheet_name : string) : string :=
  _safe_sheet_name sheet_name.

(** One turn of the loop of [generate_excel_report], for the entry [name]
    of the sheets: the title under which [_write_df] writes the sheet, and
    the title under which [_autofit_and_format] then looks the sheet up in
    [writer.sheets]. *)
Definition loop_titles (name : string) : string * string :=
  let sheet_name := _safe_sheet_name name in
  (_write_df sheet_name, sheet_name).

End Report.


(** ** Further sample inputs *)

Module Samples.

(** A frame with the required columns and no rows. *)
Definition no_rows : Transform.DataFrame :=
  {| Transform.columns := ["date"; "amount"]; Transform.rows := [] |}.

(** Stored rows of a run that has income only, and a row of an earlier
    run. *)
Definition revenue : list (Queries.Txn Z) :=
  [ {| Queries.date_iso := Some "2024-01-02";
       Queries.amount_num := Some 450%Z;
       Queries.category := Some "Sales";
       Queries.source_file := Some "a.csv";
       Queries.run_id := Some Ref.run |};
    {| Queries.date_iso := Some "2024-02-10";
       Queries.amount_num := Some 120000%Z;
       Queries.category := Some "";
       Queries.source_file := Some "b.csv";
       Queries.run_id := Some Ref.run |} ].

Definition earlier : list (Queries.Txn Z) :=
  [ {| Queries.date_iso := Some "2023-12-31";
       Queries.amount_num := Some (-990)%Z;
       Queries.category := Some "Fees";
       Queries.source_file := Some "old.csv";
       Queries.run_id := Some "20231231_235959" |} ].

(** The clock reading of the sample run. *)
Definition clock : Store.DateTime :=
  {| Store.dt_year := 2024; Store.dt_month := 1; Store.dt_day := 5;
     Store.dt_hour := 12; Store.dt_minute := 0; Store.dt_second := 0 |}.

(** Two records that differ in the case and in the whitespace of the
    description only, and a third with another description. *)
Definition coffees : Transform.DataFrame :=
  {| Transform.columns := ["date"; "description"; "amount"];
     Transform.rows :=
       [ {[ "date" := "2024-01-02"; "description" := "Coffee  Shop";
            "amount" := "4.50" ]};
         {[ "date" := "2024-01-02"; "description" := " coffee shop ";
            "amount" := "4.50" ]};
         {[ "date" := "2024-01-02"; "description" := "coffeeshop";
            "amount" := "4.50" ]} ] |}.

(** Thirty characters, none of them whitespace. *)
Definition thirty : string := "Quarterly_Revenue_By_Region_EU".

End Samples.

(** ** Facts about the text primitives *)

Module TextFacts.
Import Text.

Lemma str_app_assoc (s t u : string) : (s ++ t) ++ u = s ++ t ++ u.
Proof.
  induction s as [|c s IH]; [reflexivity|].
  change (String c ((s ++ t) ++ u) = String c (s ++ t ++ u)).
  by f_equal.
Qed.

Lemma str_all_app P s t :
  str_all P (s ++ t) = str_all P s && str_all P t.
Proof.
  induction s as [|c s IH]; simpl; [reflexivity|].
  rewrite IH. apply andb_assoc.
Qed.

Lemma sub_ws_from_all_space b s :
  all_space s = true ->
  sub_ws_from b s
  = if b then EmptyString
    else match s with EmptyString => EmptyString | _ => " " end.
Proof.
  unfold all_space.
  revert b. induction s as [|c s IH]; intros b H; simpl in *.
  - destruct b; reflexivity.
  - apply andb_true_iff in H as [Hc Hs]. rewrite Hc.
    rewrite (IH true Hs). destruct b; reflexivity.
Qed.

Lemma all_space_sub_ws_from b s :
  all_space (sub_ws_from b s) = true -> all_space s = true.
Proof.
  unfold all_space.
  revert b. induction s as [|c s IH]; intros b; simpl; [done|].
  destruct (is_space c) eqn:Hc.
  - destruct b; simpl; intros H; rewrite (IH _ H); reflexivity.
  - simpl. rewrite Hc. simpl. discriminate.
Qed.

Lemma lstrip_all_space s : all_space (lstrip s) = true -> all_space s = true.
Proof.
  unfold all_space.
  induction s as [|c s IH]; simpl; [done|].
  destruct (is_space c) eqn:Hc; simpl; rewrite ?Hc; simpl;
    [auto | discriminate].
Qed.

Lemma rstrip_empty s : rstrip s = EmptyString <-> all_space s = true.
Proof.
  unfold all_space.
  induction s as [|c s IH]; simpl; [tauto|].
  destruct (rstrip s) eqn:Hr.
  - destruct (is_space c); simpl.
    + split; [intros _; apply IH; reflexivity | reflexivity].
    + split; discriminate.
  - split; [discriminate|]. intros H.
    apply andb_true_iff in H as [_ H]. apply IH in H. discriminate.
Qed.

Lemma lstrip_of_all_space s : all_space s = true -> lstrip s = EmptyString.
Proof.
  unfold all_space.
  induction s as [|c s IH]; simpl; [done|].
  intros H. apply andb_true_iff in H as [Hc Hs]. rewrite Hc. auto.
Qed.

Lemma strip_empty s : strip s = EmptyString <-> all_space s = true.
Proof.
  unfold strip. rewrite rstrip_empty. split.
  - apply lstrip_all_space.
  - intros H. rewrite (lstrip_of_all_space _ H). reflexivity.
Qed.

(** Normalised text is empty exactly for whitespace-only input. *)
Lemma strip_sub_ws_empty s :
  strip (sub_ws s) = EmptyString <-> all_space s = true.
Proof.
  rewrite strip_empty. unfold sub_ws. split.
  - apply all_space_sub_ws_from.
  - intros H. rewrite (sub_ws_from_all_space _ _ H). destruct s; reflexivity.
Qed.

Lemma sub_ws_from_tidy b s : str_all tidy_char (sub_ws_from b s) = true.
Proof.
  revert b. induction s as [|c s IH]; intros b; simpl; [done|].
  destruct (is_space c) eqn:Hc.
  - destruct b; simpl; rewrite IH; reflexivity.
  - simpl. unfold tidy_char at 1. rewrite Hc, IH. reflexivity.
Qed.

Lemma lstrip_str_all P s : str_all P s = true -> str_all P (lstrip s) = true.
Proof.
  induction s as [|c s IH]; simpl; [done|].
  intros H. destruct (is_space c); [|exact H].
  apply andb_true_iff in H as [_ H]. auto.
Qed.

Lemma rstrip_str_all P s : str_all P s = true -> str_all P (rstrip s) = true.
Proof.
  induction s as [|c s IH]; simpl; [done|].
  intros H. apply andb_true_iff in H as [Hc Hs]. specialize (IH Hs).
  destruct (rstrip s) eqn:Hr.
  - destruct (is_space c); simpl; [done|]. rewrite Hc. reflexivity.
  - simpl in *. rewrite Hc. exact IH.
Qed.

Lemma strip_sub_ws_tidy s : str_all tidy_char (strip (sub_ws s)) = true.
Proof.
  unfold strip, sub_ws.
  apply rstrip_str_all, lstrip_str_all, sub_ws_from_tidy.
Qed.

Lemma has_char_false_of_all P a s :
  P a = false -> str_all P s = true -> has_char a s = false.
Proof.
  intros Ha. induction s as [|c s IH]; simpl; [done|].
  intros H. apply andb_true_iff in H as [Hc Hs]. rewrite (IH Hs).
  destruct (Ascii.eqb_spec c a) as [->|]; [congruence | reflexivity].
Qed.

Lemma tidy_no_newline s :
  str_all tidy_char s = true -> has_char newline s = false.
Proof. apply has_char_false_of_all. reflexivity. Qed.

Lemma chop_last_app a s :
  chop_last a (s ++ String a EmptyString) = Some s.
Proof.
  induction s as [|c s IH]; simpl.
  - rewrite Ascii.eqb_refl. reflexivity.
  - rewrite IH. destruct s; reflexivity.
Qed.

(** On text without line break, a text wrapped in parentheses becomes the
    wrapped text behind a minus sign. *)
Lemma paren_to_minus_wrapped mid :
  has_char newline mid = false ->
  paren_to_minus (String "(" (mid ++ ")")) = String "-" mid.
Proof.
  intros H. unfold paren_to_minus.
  rewrite chop_last_app, H. reflexivity.
Qed.

Lemma remove_comma_dollar_clean s :
  has_char "$" (remove_comma_dollar s) = false
  /\ has_char "," (remove_comma_dollar s) = false.
Proof.
  induction s as [|c s [IH1 IH2]]; simpl; [done|].
  destruct (Ascii.eqb_spec c ",") as [->|Hc]; simpl; [done|].
  destruct (Ascii.eqb_spec c "$") as [->|Hd]; simpl; [done|].
  rewrite IH1, IH2.
  destruct (Ascii.eqb_spec c "$"), (Ascii.eqb_spec c ","); done.
Qed.

Lemma has_char_app a s t :
  has_char a (s ++ t) = has_char a s || has_char a t.
Proof.
  induction s as [|c s IH]; simpl; [reflexivity|].
  rewrite IH. apply orb_assoc.
Qed.

Lemma sub_ws_from_shaped b s : shaped true (negb b) true (sub_ws_from b s) = true.
Proof.
  revert b. induction s as [|c s IH]; intros b; simpl; [done|].
  destruct (is_space c) eqn:Hc.
  - destruct b; simpl; [apply (IH true)|]. apply (IH true).
  - simpl. rewrite Hc. apply (IH false).
Qed.

Lemma lstrip_shaped sp s :
  shaped true sp true s = true -> shaped true false true (lstrip s) = true.
Proof.
  revert sp. induction s as [|c s IH]; intros sp; simpl; [done|].
  destruct (is_space c) eqn:Hc.
  - intros H. apply andb_true_iff in H as [_ H]. by apply (IH false).
  - intros H. simpl. rewrite Hc. exact H.
Qed.

Lemma rstrip_nonspace_head c s :
  is_space c = false -> rstrip (String c s) = String c (rstrip s).
Proof. intros Hc. simpl. rewrite Hc. by destruct (rstrip s). Qed.

Lemma rstrip_shaped sp s :
  shaped true sp true s = true -> shaped false sp true (rstrip s) = true.
Proof.
  revert sp. induction s as [|c s IH]; intros sp; [done|].
  cbn [shaped]. destruct (is_space c) eqn:Hc.
  - intros H. apply andb_true_iff in H as [H1 H2].
    specialize (IH false H2). cbn [rstrip].
    destruct (rstrip s) as [|c' r'] eqn:Hr; [by rewrite Hc|].
    cbn [shaped] in *. rewrite Hc, H1.
    destruct (is_space c'); [discriminate | exact IH].
  - intros H. rewrite (rstrip_nonspace_head _ _ Hc). cbn [shaped].
    rewrite Hc. by apply IH.
Qed.

(** Normalised text has the normal shape... *)
Lemma strip_sub_ws_shaped s :
  shaped false false true (strip (sub_ws s)) = true.
Proof.
  unfold strip, sub_ws. apply rstrip_shaped.
  eapply lstrip_shaped. apply (sub_ws_from_shaped false).
Qed.

Lemma sub_ws_from_fixed trail sp e b s :
  shaped trail sp e s = true -> sp = false \/ b = false ->
  sub_ws_from b s = s.
Proof.
  revert sp e b. induction s as [|c s IH]; intros sp e b; simpl; [done|].
  destruct (is_space c) eqn:Hc.
  - intros H Hb. apply andb_true_iff in H as [H1 H2].
    apply andb_true_iff in H1 as [Hsp Hspace].
    destruct Hb as [->| ->]; [discriminate|].
    apply Ascii.eqb_eq in Hspace as ->.
    f_equal. apply (IH false trail true H2). by left.
  - intros H _. f_equal. apply (IH true true false H). by right.
Qed.

Lemma lstrip_fixed trail e s : shaped trail false e s = true -> lstrip s = s.
Proof.
  destruct s as [|c r]; simpl; [done|].
  destruct (is_space c); [discriminate | done].
Qed.

Lemma rstrip_fixed sp e s :
  shaped false sp e s = true ->
  rstrip s = s /\ (e = false -> s <> EmptyString).
Proof.
  revert sp e. induction s as [|c s IH]; intros sp e; [simpl; by intros ->|].
  cbn [shaped]. destruct (is_space c) eqn:Hc.
  - intros H. apply andb_true_iff in H as [_ H].
    destruct (IH _ _ H) as [Hr Hne]. split; [|discriminate].
    cbn [rstrip]. rewrite Hr. destruct s; [by destruct Hne | done].
  - intros H. destruct (IH _ _ H) as [Hr _]. split; [|discriminate].
    by rewrite (rstrip_nonspace_head _ _ Hc), Hr.
Qed.

(** ... and text of the normal shape is left as it is: normalising twice is
    normalising once. *)
Lemma strip_sub_ws_idempotent s :
  strip (sub_ws (strip (sub_ws s))) = strip (sub_ws s).
Proof.
  pose proof (strip_sub_ws_shaped s) as H.
  set (t := strip (sub_ws s)) in *.
  unfold sub_ws. rewrite (sub_ws_from_fixed _ _ _ false _ H) by (by left).
  unfold strip. rewrite (lstrip_fixed _ _ _ H).
  by destruct (rstrip_fixed _ _ _ H).
Qed.

End TextFacts.

(** ** Facts about the transform step *)

Module TransformFacts.
Import Text TextFacts Transform.

Lemma lookup_fillna {A} (d : A) (s : list (option A)) i :
  fillna d s !! i = default d <$> s !! i.
Proof. unfold fillna. apply list_lookup_fmap. Qed.

Lemma lookup_clean_text series i :
  _clean_text series !! i = (λ c : cell, clean_str (default "" c)) <$> series !! i.
Proof.
  unfold _clean_text. rewrite list_lookup_fmap, lookup_fillna.
  destruct (series !! i); reflexivity.
Qed.

Lemma length_mask_select_split {A} (l : list A) (m : list bool) :
  length m = length l ->
  length (mask_select l m) + length (mask_select l (negb <$> m)) = length l.
Proof.
  revert m. induction l as [|x l IH]; intros [|b m] Hm;
    try discriminate; [reflexivity|].
  injection Hm as Hm. specialize (IH m Hm). rewrite fmap_cons.
  destruct b; cbn [mask_select negb length]; lia.
Qed.

Section Pandas.
Variable Float : Type.
Variable to_datetime : list string -> nat -> option Timestamp.
Variable to_numeric : string -> option Float.
Variable round2 : Float -> Float.
Variable float_str : Float -> string.

Lemma parse_date_lookup series i c :
  series !! i = Some c ->
  (_parse_date to_datetime series).1 !! i
    = Some (from_option strftime_ymd "" (to_datetime (_clean_text series) i))
  /\ (_parse_date to_datetime series).2 !! i
    = Some (isna (to_datetime (_clean_text series) i)
            && negb (String.eqb (clean_str (default "" c)) "")).
Proof.
  intros H. unfold _parse_date. simpl.
  rewrite lookup_fillna, list_lookup_fmap, list_lookup_imap.
  rewrite lookup_zip_with, list_lookup_imap, list_lookup_fmap.
  rewrite lookup_clean_text, H. simpl.
  split; [|reflexivity].
  destruct (to_datetime _ i); reflexivity.
Qed.

Lemma parse_amount_lookup series i c :
  series !! i = Some c ->
  (_parse_amount to_numeric series).1 !! i
    = Some (to_numeric (amount_text c))
  /\ (_parse_amount to_numeric series).2 !! i
    = Some (isna (to_numeric (amount_text c))
            && negb (String.eqb (amount_text c) "")).
Proof.
  intros H. unfold _parse_amount. simpl.
  rewrite lookup_zip_with, !list_lookup_fmap.
  rewrite lookup_clean_text, H. simpl. split; reflexivity.
Qed.

Lemma make_txn_key_lookup date_iso desc amt i d s a :
  date_iso !! i = Some d -> desc !! i = Some s -> amt !! i = Some a ->
  _make_txn_key round2 float_str date_iso desc amt !! i
  = Some (d ++ "|" ++ lower (clean_str (default "" s)) ++ "|"
            ++ amount_key round2 float_str a).
Proof.
  intros Hd Hs Ha. unfold _make_txn_key.
  rewrite !lookup_zip_with, Hd. simpl.
  rewrite list_lookup_fmap, lookup_clean_text, Hs. simpl.
  unfold astype_str. rewrite lookup_fillna, !list_lookup_fmap, Ha. simpl.
  unfold amount_key. rewrite str_app_assoc. reflexivity.
Qed.

Lemma lookup_optional_text df c i r :
  rows df !! i = Some r ->
  optional_text df c !! i = Some (optional_cell df c r).
Proof.
  intros H. unfold optional_text, optional_cell.
  destruct (has_col (columns df) c).
  - unfold getcol. rewrite lookup_clean_text, list_lookup_fmap, H.
    reflexivity.
  - apply lookup_replicate_2. unfold len.
    apply lookup_lt_Some in H. exact H.
Qed.

(** The column-wise frame and the row-wise reading agree. *)
Lemma normalized_lookup df i r :
  rows df !! i = Some r ->
  normalized to_datetime to_numeric round2 float_str df !! i
  = Some (row_at to_datetime to_numeric round2 float_str df i r).
Proof.
  intros H. unfold normalized.
  assert (Hdate : getcol df "date" !! i = Some (r !! "date"))
    by (unfold getcol; rewrite list_lookup_fmap, H; reflexivity).
  assert (Hamt : getcol df "amount" !! i = Some (r !! "amount"))
    by (unfold getcol; rewrite list_lookup_fmap, H; reflexivity).
  destruct (parse_date_lookup _ _ _ Hdate) as [Hiso Hbd].
  destruct (parse_amount_lookup _ _ _ Hamt) as [Hnum Hba].
  destruct (_parse_date to_datetime (getcol df "date")) as [iso bad_date].
  destruct (_parse_amount to_numeric (getcol df "amount"))
    as [amount bad_amount].
  simpl in *.
  rewrite list_lookup_imap, H. simpl. f_equal.
  unfold row_at. f_equal.
  - apply list_lookup_total_correct, lookup_optional_text, H.
  - apply list_lookup_total_correct, lookup_optional_text, H.
  - apply list_lookup_total_correct, lookup_optional_text, H.
  - apply list_lookup_total_correct, Hiso.
  - rewrite Hnum. reflexivity.
  - apply list_lookup_total_correct, Hbd.
  - apply list_lookup_total_correct, Hba.
  - apply list_lookup_total_correct.
    rewrite lookup_zip_with, Hbd, Hba. reflexivity.
  - apply list_lookup_total_correct.
    erewrite make_txn_key_lookup; cycle 1.
    + exact Hiso.
    + rewrite list_lookup_fmap, (lookup_optional_text _ _ _ _ H).
      reflexivity.
    + exact Hnum.
    + reflexivity.
Qed.

Lemma length_normalized df :
  length (normalized to_datetime to_numeric round2 float_str df)
  = length (rows df).
Proof.
  unfold normalized.
  destruct (_parse_date _ _), (_parse_amount _ _).
  apply length_imap.
Qed.

End Pandas.
End TransformFacts.

(** ** Separators and duplicates *)

Module KeyFacts.
Import Text TextFacts Transform.

(** Splitting at the first separator, when the part before it has none. *)
Lemma split_at_first a d1 d2 x1 x2 :
  has_char a d1 = false -> has_char a d2 = false ->
  d1 ++ String a x1 = d2 ++ String a x2 -> d1 = d2 /\ x1 = x2.
Proof.
  revert d2. induction d1 as [|c d1 IH]; intros [|c2 d2] H1 H2 E.
  - injection E as ->. done.
  - injection E as <- _. simpl in H2. rewrite Ascii.eqb_refl in H2. done.
  - injection E as -> _. simpl in H1. rewrite Ascii.eqb_refl in H1. done.
  - injection E as -> E. simpl in H1, H2.
    apply orb_false_iff in H1 as [_ H1]. apply orb_false_iff in H2 as [_ H2].
    destruct (IH _ H1 H2 E) as [-> ->]. done.
Qed.

(** Splitting at the last separator, when the part behind it has none. *)
Lemma split_at_last a n1 n2 x1 x2 :
  has_char a x1 = false -> has_char a x2 = false ->
  n1 ++ String a x1 = n2 ++ String a x2 -> n1 = n2 /\ x1 = x2.
Proof.
  intros H1 H2. revert n2. induction n1 as [|c n1 IH]; intros [|c2 n2] E.
  - injection E as ->. done.
  - injection E as <- E. exfalso. rewrite E, has_char_app in H1.
    simpl in H1. rewrite Ascii.eqb_refl, orb_true_r in H1. done.
  - injection E as -> E. exfalso. rewrite <- E, has_char_app in H2.
    simpl in H2. rewrite Ascii.eqb_refl, orb_true_r in H2. done.
  - injection E as -> E. destruct (IH _ E) as [-> ->]. done.
Qed.

(** A key determines its three parts when the date part and the amount
    part are free of the separator. *)
Lemma key_parts_inj d1 n1 a1 d2 n2 a2 :
  has_char "|" d1 = false -> has_char "|" d2 = false ->
  has_char "|" a1 = false -> has_char "|" a2 = false ->
  d1 ++ "|" ++ n1 ++ "|" ++ a1 = d2 ++ "|" ++ n2 ++ "|" ++ a2 ->
  d1 = d2 /\ n1 = n2 /\ a1 = a2.
Proof.
  intros Hd1 Hd2 Ha1 Ha2 E.
  change (d1 ++ String "|" (n1 ++ String "|" a1)
          = d2 ++ String "|" (n2 ++ String "|" a2)) in E.
  destruct (split_at_first _ _ _ _ _ Hd1 Hd2 E) as [-> E'].
  destruct (split_at_last _ _ _ _ _ Ha1 Ha2 E') as [-> ->]. done.
Qed.

Lemma digit_not_bar n : Ascii.eqb (digit n) "|" = false.
Proof.
  unfold digit.
  destruct (n mod 10) as [|[|[|[|[|[|[|[|[|k]]]]]]]]]; reflexivity.
Qed.

Lemma two_digits_no_bar n : has_char "|" (two_digits n) = false.
Proof. unfold two_digits. simpl. rewrite !digit_not_bar. reflexivity. Qed.

(** A rendered date has ten characters, none of them the separator. *)
Lemma strftime_ymd_no_bar t : has_char "|" (strftime_ymd t) = false.
Proof.
  unfold strftime_ymd.
  rewrite !has_char_app, !two_digits_no_bar. reflexivity.
Qed.

Lemma strftime_ymd_length t : String.length (strftime_ymd t) = 10.
Proof. reflexivity. Qed.

Lemma iso_no_bar (p : option Timestamp) :
  has_char "|" (from_option strftime_ymd "" p) = false.
Proof. destruct p; [apply strftime_ymd_no_bar | reflexivity]. Qed.

(** *** [mask_select] and [duplicated] *)

Lemma mask_select_fmap {A B} (f : A -> B) l m :
  f <$> mask_select l m = mask_select (f <$> l) m.
Proof.
  revert m. induction l as [|x l IH]; intros [|b m]; try reflexivity.
  rewrite fmap_cons. cbn [mask_select]. destruct b.
  - rewrite fmap_cons, IH. reflexivity.
  - apply IH.
Qed.

Lemma mask_select_filter {A} (f : A -> bool) (l : list A) :
  mask_select l (f <$> l) = filter (λ x, f x = true) l.
Proof.
  induction l as [|x l IH]; [reflexivity|].
  rewrite fmap_cons, filter_cons. cbn [mask_select].
  destruct (f x) eqn:Hx.
  - rewrite decide_True by done. by rewrite IH.
  - rewrite decide_False by (by intros ?). exact IH.
Qed.

Lemma mask_select_sublist {A} (l : list A) m : sublist (mask_select l m) l.
Proof.
  revert m. induction l as [|x l IH]; intros [|b m]; cbn [mask_select];
    try apply sublist_nil_l.
  destruct b; [apply sublist_skip | apply sublist_cons]; apply IH.
Qed.

Lemma length_duplicated_from seen keys :
  length (duplicated_from seen keys) = length keys.
Proof.
  revert seen. induction keys as [|k ks IH]; intros seen; simpl;
    [reflexivity | by rewrite IH].
Qed.


(** The keys that survive are pairwise distinct and outside the initial
    set. *)
Lemma kept_keys_NoDup seen keys :
  NoDup (mask_select keys (negb <$> duplicated_from seen keys))
  ∧ ∀ k, k ∈ mask_select keys (negb <$> duplicated_from seen keys) ->
         (k ∉ seen) ∧ k ∈ keys.
Proof.
  revert seen. induction keys as [|k0 ks IH]; intros seen.
  { split; [constructor | intros k Hk; by apply elem_of_nil in Hk]. }
  cbn [duplicated_from]. rewrite fmap_cons. cbn [mask_select].
  destruct (IH ({[k0]} ∪ seen)) as [IHnd IHin].
  case_bool_decide as Hk0; cbn [negb].
  - split; [exact IHnd|]. intros k Hk. destruct (IHin k Hk) as [Hs Hi].
    split; [|by apply elem_of_cons; right].
    intros Hx. apply Hs, elem_of_union. by right.
  - split.
    + constructor; [|exact IHnd]. intros Hin.
      destruct (IHin _ Hin) as [Hs _].
      apply Hs, elem_of_union. left. by apply elem_of_singleton.
    + intros k Hk. apply elem_of_cons in Hk as [->|Hk].
      * split; [done | by apply elem_of_cons; left].
      * destruct (IHin k Hk) as [Hs Hi].
        split; [|by apply elem_of_cons; right].
        intros Hx. apply Hs, elem_of_union. by right.
Qed.

(** Every key of the input that is outside the initial set survives. *)
Lemma kept_keys_complete seen keys k :
  k ∈ keys -> k ∉ seen ->
  k ∈ mask_select keys (negb <$> duplicated_from seen keys).
Proof.
  revert seen. induction keys as [|k0 ks IH]; intros seen Hk Hs.
  { by apply elem_of_nil in Hk. }
  cbn [duplicated_from]. rewrite fmap_cons. cbn [mask_select].
  destruct (decide (k = k0)) as [->|Hne].
  - rewrite bool_decide_eq_false_2 by done. cbn [negb].
    by apply elem_of_cons; left.
  - apply elem_of_cons in Hk as [?|Hk]; [done|].
    assert (k ∈ mask_select ks
              (negb <$> duplicated_from ({[k0]} ∪ seen) ks)) as Hin
      by (apply IH; [done|];
          intros [Hx%elem_of_singleton|Hx]%elem_of_union; done).
    destruct (negb _); [by apply elem_of_cons; right | done].
Qed.

End KeyFacts.

(** ** The stand-in renders and reads amounts consistently *)

Module RefFacts.
Import Text TextFacts Transform KeyFacts Ref.

Lemma digit_val_digit n : digit_val (digit n) = Some (n mod 10).
Proof.
  pose proof (Nat.mod_upper_bound n 10 ltac:(lia)) as Hlt.
  unfold digit.
  destruct (n mod 10) as [|[|[|[|[|[|[|[|[|[|k]]]]]]]]]];
    try reflexivity; lia.
Qed.

Lemma is_digit_digit n : is_digit (digit n) = true.
Proof. unfold is_digit. by rewrite digit_val_digit. Qed.

Lemma digits_val_of_uint d acc :
  digits_val acc (DecimalString.NilEmpty.string_of_uint d)
  = Some (Nat.of_uint_acc d acc).
Proof.
  revert acc. induction d; intros acc; simpl; [reflexivity|..];
    rewrite IHd; do 2 f_equal; rewrite Nat.tail_mul_spec; lia.
Qed.

Lemma uint_str_digits d :
  str_all is_digit (DecimalString.NilEmpty.string_of_uint d) = true.
Proof. induction d; simpl; auto. Qed.

Lemma nat_str_digits n : str_all is_digit (nat_str n) = true.
Proof.
  unfold nat_str, DecimalString.NilZero.string_of_uint.
  destruct (Nat.to_uint n); try apply uint_str_digits. reflexivity.
Qed.

Lemma nat_str_read n : nat_of_digits (nat_str n) = Some n.
Proof.
  unfold nat_str, DecimalString.NilZero.string_of_uint.
  rewrite <- (DecimalNat.Unsigned.of_to n) at 2.
  unfold Nat.of_uint.
  destruct (Nat.to_uint n) as [|d|d|d|d|d|d|d|d|d|d]; [reflexivity|..];
    unfold nat_of_digits;
    rewrite <- digits_val_of_uint; reflexivity.
Qed.

Lemma nat_str_head n : ∃ c r, nat_str n = String c r ∧ is_digit c = true.
Proof.
  pose proof (nat_str_digits n) as H. pose proof (nat_str_read n) as R.
  destruct (nat_str n) as [|c r]; [discriminate|].
  exists c, r. split; [reflexivity|].
  simpl in H. by apply andb_true_iff in H as [H _].
Qed.

Lemma split_point_digits s t :
  str_all is_digit s = true ->
  split_point (s ++ String "." t) = (s, Some t).
Proof.
  induction s as [|c s IH]; intros H; [reflexivity|].
  simpl in H. apply andb_true_iff in H as [Hc Hs].
  change (String c s ++ String "." t) with (String c (s ++ String "." t)).
  cbn [split_point]. rewrite (IH Hs).
  destruct (Ascii.eqb_spec c ".") as [->|]; [discriminate | reflexivity].
Qed.

Lemma hundredths_read q f :
  f < 100 ->
  hundredths (nat_str q ++ "." ++ frac_str f) = Some (100 * q + f).
Proof.
  intros Hf. unfold hundredths.
  change (nat_str q ++ "." ++ frac_str f)
    with (nat_str q ++ String "." (frac_str f)).
  rewrite (split_point_digits _ _ (nat_str_digits q)), nat_str_read.
  unfold frac_str.
  destruct (Nat.eqb_spec (f mod 10) 0) as [H0|H0].
  - rewrite digit_val_digit. cbn [fmap option_fmap option_map]. f_equal.
    pose proof (Nat.div_mod_eq f 10).
    rewrite (Nat.mod_small (f / 10) 10)
      by (apply Nat.Div0.div_lt_upper_bound; lia).
    lia.
  - unfold two_digits. rewrite !digit_val_digit. f_equal.
    pose proof (Nat.div_mod_eq f 10).
    rewrite (Nat.mod_small (f / 10) 10)
      by (apply Nat.Div0.div_lt_upper_bound; lia).
    lia.
Qed.

Lemma to_numeric_digit_head c r :
  is_digit c = true ->
  to_numeric (String c r) = Z.of_nat <$> hundredths (String c r).
Proof.
  destruct c as [[] [] [] [] [] [] [] []]; try discriminate; reflexivity.
Qed.

(** Reading a rendered amount gives the amount back. *)
Lemma to_numeric_float_str z : to_numeric (float_str z) = Some z.
Proof.
  unfold float_str.
  set (n := Z.abs_nat z).
  assert (n mod 100 < 100) as Hf by (apply Nat.mod_upper_bound; lia).
  pose proof (hundredths_read (n / 100) (n mod 100) Hf) as Hr.
  rewrite <- (Nat.div_mod_eq n 100) in Hr.
  destruct (Z.ltb_spec z 0) as [Hneg|Hpos].
  - change ("-" ++ ?s) with (String "-" s). cbn [to_numeric].
    rewrite Hr. simpl. f_equal. lia.
  - change ("" ++ ?s) with s.
    destruct (nat_str_head (n / 100)) as (c & r & Hs & Hc).
    revert Hr. rewrite Hs.
    change (String c r ++ ?s) with (String c (r ++ s)). intros Hr.
    rewrite (to_numeric_digit_head c _ Hc), Hr. simpl. f_equal. lia.
Qed.

Lemma float_str_inj x y : float_str x = float_str y -> x = y.
Proof.
  intros E. apply (f_equal to_numeric) in E.
  rewrite !to_numeric_float_str in E. congruence.
Qed.

Lemma str_all_weaken (P Q : ascii -> bool) s :
  (∀ c, P c = true -> Q c = true) ->
  str_all P s = true -> str_all Q s = true.
Proof.
  intros HPQ. induction s as [|c s IH]; simpl; [done|].
  intros H. apply andb_true_iff in H as [Hc Hs].
  by rewrite (HPQ _ Hc), IH.
Qed.

Lemma float_str_chars z : str_all amount_char (float_str z) = true.
Proof.
  unfold float_str. rewrite !str_all_app.
  assert (∀ c, is_digit c = true -> amount_char c = true) as Hd
    by (intros c Hc; unfold amount_char; by rewrite Hc).
  rewrite (str_all_weaken _ _ _ Hd (nat_str_digits _)).
  assert (str_all amount_char (frac_str (Z.abs_nat z mod 100)) = true)
    as ->.
  { unfold frac_str, two_digits, amount_char.
    destruct (_ =? _)%nat; simpl; rewrite ?is_digit_digit; reflexivity. }
  destruct (z <? 0)%Z; reflexivity.
Qed.

Lemma float_str_no_bar z : has_char "|" (float_str z) = false.
Proof.
  apply (has_char_false_of_all amount_char); [reflexivity|].
  apply float_str_chars.
Qed.

Lemma float_str_not_NA z : float_str z ≠ NA_str.
Proof.
  intros E. pose proof (float_str_chars z) as H. rewrite E in H. discriminate.
Qed.

Lemma date_of_text_empty raw j :
  raw !! j = Some "" -> to_datetime raw j = None.
Proof. intros H. unfold to_datetime. rewrite H. reflexivity. Qed.

End RefFacts.

(** ** Properties of the transform step *)

Module TransformClaims.
Import Text TextFacts Transform TransformFacts KeyFacts.

Section Pandas.
Variable Float : Type.
Variable to_datetime : list string -> nat -> option Timestamp.
Variable to_numeric : string -> option Float.
Variable round2 : Float -> Float.
Variable float_str : Float -> string.

Local Abbreviation transform :=
  (transform_transactions to_datetime to_numeric round2 float_str).
Local Abbreviation out := (normalized to_datetime to_numeric round2 float_str).
Local Abbreviation before :=
  (clean_before_dedup to_datetime to_numeric round2 float_str).

Lemma clean_str_blank s : clean_str s = "" <-> all_space s = true.
Proof. apply strip_sub_ws_empty. Qed.

Lemma eqb_clean_str_blank s : String.eqb (clean_str s) "" = all_space s.
Proof.
  destruct (all_space s) eqn:H.
  - apply clean_str_blank in H. rewrite H. reflexivity.
  - apply String.eqb_neq. intros E. apply clean_str_blank in E. congruence.
Qed.

Lemma elem_of_out df row :
  row ∈ out df ->
  ∃ i r, rows df !! i = Some r
         ∧ row = row_at to_datetime to_numeric round2 float_str df i r.
Proof.
  intros H. apply list_elem_of_lookup in H as [i Hi].
  assert (i < length (rows df)) as Hlt.
  { rewrite <- (length_normalized Float to_datetime to_numeric round2 float_str).
    eapply lookup_lt_Some, Hi. }
  apply lookup_lt_is_Some in Hlt as [r Hr].
  exists i, r. split; [exact Hr|].
  rewrite (normalized_lookup _ _ _ _ _ _ _ _ Hr) in Hi. congruence.
Qed.

Lemma transform_accepts df :
  has_col (columns df) "date" = true ->
  has_col (columns df) "amount" = true ->
  transform df
  = inr ({| labels := clean_labels (out_columns df);
            records := drop_duplicates (before df) |},
         {| labels := issue_labels (out_columns df);
            records := mask_select (out df) (has_issue <$> out df) |},
         {| rows_in := Z.of_nat (len df);
            rows_out_clean := Z.of_nat (length (drop_duplicates (before df)));
            rows_out_issues :=
              Z.of_nat (length (mask_select (out df) (has_issue <$> out df)));
            duplicates_removed :=
              Z.of_nat (length (before df))
              - Z.of_nat (length (drop_duplicates (before df))) |}).
Proof.
  intros Hd Ha. unfold transform_transactions. rewrite Hd, Ha. reflexivity.
Qed.

Lemma length_drop_duplicates_le (l : list (Row Float)) :
  length (drop_duplicates l) <= length l.
Proof. apply sublist_length, mask_select_sublist. Qed.

(** C9: [transform_transactions] raises its [ValueError] exactly for a table
    that lacks the column date or the column amount; with both present it
    returns a result whatever other columns exist, and the fields of an
    absent optional column (description, category, source) are the empty
    text. *)
Theorem transform_raises_iff_required_missing df :
  ((∃ msg, transform df = inl (ValueError msg))
   ↔ has_col (columns df) "date" = false ∨ has_col (columns df) "amount" = false)
  ∧ ((∃ res, transform df = inr res)
     ↔ has_col (columns df) "date" = true ∧ has_col (columns df) "amount" = true)
  ∧ (∀ c r, has_col (columns df) c = false -> optional_cell df c r = "")
  ∧ (∀ row, row ∈ out df ->
       (has_col (columns df) "description" = false -> description row = "")
       ∧ (has_col (columns df) "category" = false -> category row = "")
       ∧ (has_col (columns df) "source" = false -> source row = "")).
Proof.
  split; [|split; [|split]].
  - unfold transform_transactions.
    destruct (has_col (columns df) "date"); simpl.
    + destruct (has_col (columns df) "amount"); simpl.
      * split; [intros [msg H]; discriminate | intros [H|H]; discriminate].
      * split; [by right | by eexists].
    + split; [by left | by eexists].
  - unfold transform_transactions.
    destruct (has_col (columns df) "date"); simpl.
    + destruct (has_col (columns df) "amount"); simpl.
      * split; [done | by eexists].
      * split; [intros [res H]; discriminate | intros [_ H]; discriminate].
    + split; [intros [res H]; discriminate | intros [H _]; discriminate].
  - intros c r H. unfold optional_cell. rewrite H. reflexivity.
  - intros row Hrow. destruct (elem_of_out _ _ Hrow) as (i & r & _ & ->).
    unfold row_at, optional_cell; simpl.
    repeat split; intros ->; reflexivity.
Qed.

(** C4: for every accepted table the counts satisfy
    issue rows + clean rows before deduplication = input rows and
    clean rows before deduplication - duplicates removed = clean rows, and
    every row of the working frame lies in exactly one of the issue set and
    the clean set before deduplication. *)
Theorem transform_count_identities df :
  has_col (columns df) "date" = true ->
  has_col (columns df) "amount" = true ->
  ∃ clean issues meta,
    transform df = inr (clean, issues, meta)
    ∧ rows_in meta = Z.of_nat (len df)
    ∧ rows_out_issues meta = Z.of_nat (length (records issues))
    ∧ rows_out_clean meta = Z.of_nat (length (records clean))
    ∧ (rows_out_issues meta + Z.of_nat (length (before df)) = rows_in meta)%Z
    ∧ (Z.of_nat (length (before df)) - duplicates_removed meta
       = rows_out_clean meta)%Z
    ∧ (0 <= duplicates_removed meta)%Z
    ∧ (∀ row, row ∈ out df ->
         (row ∈ records issues ∧ row ∉ before df)
         ∨ (row ∈ before df ∧ row ∉ records issues)).
Proof.
  intros Hd Ha. do 3 eexists. split; [apply transform_accepts; assumption|].
  cbn [rows_in rows_out_issues rows_out_clean duplicates_removed records].
  pose proof (length_mask_select_split (out df) (has_issue <$> out df)
                ltac:(by rewrite length_fmap)) as Hsplit.
  pose proof (length_drop_duplicates_le (before df)) as Hle.
  unfold clean_before_dedup in *. unfold len.
  rewrite <- (length_normalized Float to_datetime to_numeric round2 float_str df).
  repeat split; try lia.
  intros row Hrow. rewrite (mask_select_filter has_issue).
  rewrite <- list_fmap_compose, (mask_select_filter (negb ∘ has_issue)).
  rewrite !list_elem_of_filter. simpl.
  destruct (has_issue row) eqn:Hi.
  - left. split; [done|]. intros [? _]. done.
  - right. split; [done|]. intros [? _]. done.
Qed.

Lemma clean_str_idempotent s : clean_str (clean_str s) = clean_str s.
Proof. apply strip_sub_ws_idempotent. Qed.

Lemma optional_cell_clean df c r :
  clean_str (optional_cell df c r) = optional_cell df c r.
Proof.
  unfold optional_cell. destruct (has_col (columns df) c);
    [apply clean_str_idempotent | reflexivity].
Qed.

(** Every row of the working frame carries a date text that is empty or a
    rendered date, a description that is already normalised, and the key
    assembled from its own fields. *)
Lemma row_key_parts df row :
  row ∈ out df ->
  has_char "|" (date_iso row) = false
  ∧ clean_str (description row) = description row
  ∧ txn_key row
    = date_iso row ++ "|" ++ lower (description row) ++ "|"
      ++ amount_key round2 float_str (amount_num row).
Proof.
  intros H. destruct (elem_of_out _ _ H) as (i & r & _ & ->).
  split; [apply iso_no_bar|]. split; [apply optional_cell_clean|].
  unfold row_at. cbn [txn_key description].
  by rewrite optional_cell_clean.
Qed.

Lemma elem_of_before df row :
  row ∈ before df <-> row ∈ out df ∧ has_issue row = false.
Proof.
  unfold clean_before_dedup.
  rewrite <- list_fmap_compose, (mask_select_filter (negb ∘ has_issue)).
  rewrite list_elem_of_filter. simpl.
  destruct (has_issue row); simpl; intuition congruence.
Qed.

Lemma elem_of_issues df row :
  row ∈ mask_select (out df) (has_issue <$> out df)
  <-> row ∈ out df ∧ has_issue row = true.
Proof.
  rewrite (mask_select_filter has_issue), list_elem_of_filter. tauto.
Qed.


(** C7: at every position of the column, a missing, empty or
    whitespace-only date gives the empty text without the invalid flag
    (pandas reads the empty text as NaT), and any other text that does not
    parse gives the empty text with the flag; so the flag is raised exactly
    for non-blank text that fails to parse. *)
Theorem parse_date_blank_and_invalid series :
  (∀ raw j, raw !! j = Some "" -> to_datetime raw j = None) ->
  let iso := (_parse_date to_datetime series).1 in
  let invalid := (_parse_date to_datetime series).2 in
  ∀ i c, series !! i = Some c ->
    (all_space (default "" c) = true ->
       iso !! i = Some "" ∧ invalid !! i = Some false)
    ∧ (all_space (default "" c) = false ->
       to_datetime (_clean_text series) i = None ->
       iso !! i = Some "" ∧ invalid !! i = Some true)
    ∧ (invalid !! i = Some true ↔
       all_space (default "" c) = false
       ∧ to_datetime (_clean_text series) i = None).
Proof.
  intros Hdt iso invalid i c Hc. subst iso invalid.
  destruct (parse_date_lookup to_datetime _ _ _ Hc) as [-> ->].
  rewrite eqb_clean_str_blank.
  split; [|split].
  - intros Hb. rewrite Hb, andb_false_r.
    rewrite (Hdt (_clean_text series) i); [done|].
    rewrite lookup_clean_text, Hc. simpl. f_equal. by apply clean_str_blank.
  - intros Hb Hp. rewrite Hb, Hp. done.
  - destruct (all_space (default "" c)), (to_datetime (_clean_text series) i);
      simpl; intuition congruence.
Qed.

(** C6: at every position of the column, the text handed to the numeric
    parser is the normalised text with a full pair of parentheses replaced
    by a leading minus sign and then every dollar sign and comma removed;
    when that text is empty the amount is undefined and not flagged; the
    flag is raised exactly when that text is non-empty and does not parse;
    and the three sample texts reach the parser as -45.10, 1234.56 and -10,
    whose values are returned unflagged. *)
Theorem parse_amount_steps series v1 v2 v3 :
  to_numeric "" = None ->
  to_numeric "-45.10" = Some v1 ->
  to_numeric "1234.56" = Some v2 ->
  to_numeric "-10" = Some v3 ->
  let amt := (_parse_amount to_numeric series).1 in
  let invalid := (_parse_amount to_numeric series).2 in
  (∀ i c, series !! i = Some c ->
     let txt := amount_text c in
     (∀ mid, clean_str (default "" c) = String "(" (mid ++ ")") ->
        txt = remove_comma_dollar (String "-" mid))
     ∧ has_char "$" txt = false ∧ has_char "," txt = false
     ∧ amt !! i = Some (to_numeric txt)
     ∧ (txt = "" -> amt !! i = Some None ∧ invalid !! i = Some false)
     ∧ (invalid !! i = Some true ↔ txt ≠ "" ∧ to_numeric txt = None))
  ∧ (∀ i, series !! i = Some (Some "(45.10)") ->
       amt !! i = Some (Some v1) ∧ invalid !! i = Some false)
  ∧ (∀ i, series !! i = Some (Some "$1,234.56") ->
       amt !! i = Some (Some v2) ∧ invalid !! i = Some false)
  ∧ (∀ i, series !! i = Some (Some "-10") ->
       amt !! i = Some (Some v3) ∧ invalid !! i = Some false).
Proof.
  clear to_datetime round2 float_str.
  intros H0 H1 H2 H3 amt invalid. subst amt invalid.
  split; [|split; [|split]].
  - intros i c Hc txt. subst txt.
    destruct (parse_amount_lookup _ to_numeric _ _ _ Hc) as [-> ->].
    split; [|split; [|split; [|split; [|split]]]].
    + intros mid Hmid. unfold amount_text. rewrite Hmid.
      rewrite paren_to_minus_wrapped; [reflexivity|].
      pose proof (strip_sub_ws_tidy (default "" c)) as Ht.
      fold (clean_str (default "" c)) in Ht. rewrite Hmid in Ht.
      simpl in Ht. rewrite str_all_app in Ht.
      apply andb_true_iff in Ht as [Ht _]. by apply tidy_no_newline.
    + apply remove_comma_dollar_clean.
    + apply remove_comma_dollar_clean.
    + reflexivity.
    + intros ->. rewrite H0. done.
    + destruct (String.eqb_spec (amount_text c) "") as [->|Hne].
      * rewrite H0. simpl. intuition congruence.
      * destruct (to_numeric (amount_text c)); simpl; intuition congruence.
  - intros i Hc.
    destruct (parse_amount_lookup _ to_numeric _ _ _ Hc) as [-> ->].
    change (amount_text (Some "(45.10)")) with "-45.10". rewrite H1. done.
  - intros i Hc.
    destruct (parse_amount_lookup _ to_numeric _ _ _ Hc) as [-> ->].
    change (amount_text (Some "$1,234.56")) with "1234.56". rewrite H2. done.
  - intros i Hc.
    destruct (parse_amount_lookup _ to_numeric _ _ _ Hc) as [-> ->].
    change (amount_text (Some "-10")) with "-10". rewrite H3. done.
Qed.

(** C10: a row whose date is missing, empty or whitespace-only and whose
    amount is blank or parses gets the empty [date_iso] and no issue flag;
    it is in the clean set before deduplication and not in the issue set,
    and the clean output keeps a row with its key, whose [date_iso] is
    empty as well. *)
Theorem blank_date_row_is_clean df i r :
  (∀ raw j, raw !! j = Some "" -> to_datetime raw j = None) ->
  has_col (columns df) "date" = true ->
  has_col (columns df) "amount" = true ->
  rows df !! i = Some r ->
  all_space (default "" (r !! "date")) = true ->
  amount_text (r !! "amount") = ""
    ∨ is_Some (to_numeric (amount_text (r !! "amount"))) ->
  ∃ row clean issues meta,
    out df !! i = Some row
    ∧ date_iso row = ""
    ∧ has_issue row = false
    ∧ transform df = inr (clean, issues, meta)
    ∧ row ∈ before df
    ∧ (row ∉ records issues)
    ∧ ∃ row', row' ∈ records clean
              ∧ txn_key row' = txn_key row ∧ date_iso row' = "".
Proof.
  intros Hdt Hd Ha Hr Hblank Hamt.
  set (row := row_at to_datetime to_numeric round2 float_str df i r).
  assert (out df !! i = Some row) as Hrow by by apply normalized_lookup.
  assert (to_datetime (_clean_text (getcol df "date")) i = None) as Hnat.
  { apply Hdt. unfold getcol.
    rewrite lookup_clean_text, list_lookup_fmap, Hr. simpl.
    f_equal. by apply clean_str_blank. }
  assert (date_iso row = "") as Hiso
    by (subst row; unfold row_at; simpl; by rewrite Hnat).
  assert (has_issue row = false) as Hok.
  { subst row. unfold row_at. simpl.
    rewrite eqb_clean_str_blank, Hblank, andb_false_r. simpl.
    destruct Hamt as [->|[v ->]]; [apply andb_false_r | reflexivity]. }
  assert (row ∈ out df) as Hin by (eapply list_elem_of_lookup_2, Hrow).
  assert (row ∈ before df) as Hbef by (apply elem_of_before; done).
  exists row. do 3 eexists.
  split; [exact Hrow|]. split; [exact Hiso|]. split; [exact Hok|].
  split; [apply transform_accepts; assumption|].
  cbn [records]. split; [exact Hbef|]. split.
  { rewrite elem_of_issues. intros [_ ?]. congruence. }
  assert (txn_key row ∈ mask_select (txn_key <$> before df)
            (negb <$> duplicated (txn_key <$> before df))) as Hkept.
  { apply kept_keys_complete; [|apply not_elem_of_empty].
    apply list_elem_of_fmap. by exists row. }
  rewrite <- mask_select_fmap in Hkept.
  apply list_elem_of_fmap in Hkept as (row' & Hk & Hrow').
  exists row'. split; [exact Hrow'|]. split; [done|].
  assert (row' ∈ out df) as Hin'.
  { eapply elem_of_before, elem_of_sublist;
      [exact Hrow' | apply mask_select_sublist]. }
  destruct (row_key_parts _ _ Hin) as (Hb1 & _ & Hk1).
  destruct (row_key_parts _ _ Hin') as (Hb2 & _ & Hk2).
  rewrite Hk1, Hk2, Hiso in Hk.
  change ("" ++ String "|" (lower (description row) ++ "|"
            ++ amount_key round2 float_str (amount_num row))
          = date_iso row' ++ String "|" (lower (description row')
              ++ "|" ++ amount_key round2 float_str (amount_num row'))) in Hk.
  destruct (split_at_first "|" "" _ _ _ eq_refl Hb2 Hk) as [<- _]. done.
Qed.

(** C2 (what the code does): the key of a record with an undefined amount
    ends with the text of NA, which [astype(str)] produces before [fillna]
    runs; its amount component is not the empty text. *)
Theorem txn_key_of_undefined_amount d s :
  _make_txn_key round2 float_str [d] [s] [None]
  = [d ++ "|" ++ lower (clean_str (default "" s)) ++ "|" ++ "<NA>"]
  ∧ _make_txn_key round2 float_str [d] [s] [None]
    ≠ [d ++ "|" ++ lower (clean_str (default "" s)) ++ "|" ++ ""].
Proof.
  assert (_make_txn_key round2 float_str [d] [s] [None]
          = [d ++ "|" ++ lower (clean_str (default "" s)) ++ "|" ++ "<NA>"])
    as E.
  { unfold _make_txn_key. simpl. by rewrite str_app_assoc. }
  split; [exact E|]. rewrite E. intros H. injection H as H.
  do 4 apply String.app_inj in H. discriminate.
Qed.

(** C1 (what the code does): the key holds the text of the rounded
    amount, and the two zeros of the floats, equal as amounts, have the
    texts 0.0 and -0.0; so two records of the same date, the same
    normalised description and the same amount zero get different keys. *)
Theorem txn_key_of_signed_zero (feq : Float -> Float -> bool)
    (z nz : Float) d s1 s2 :
  feq (round2 z) (round2 nz) = true ->
  float_str (round2 z) = "0.0" ->
  float_str (round2 nz) = "-0.0" ->
  lower (clean_str (default "" s1)) = lower (clean_str (default "" s2)) ->
  _make_txn_key round2 float_str [d] [s1] [Some z]
  = [d ++ "|" ++ lower (clean_str (default "" s1)) ++ "|" ++ "0.0"]
  ∧ _make_txn_key round2 float_str [d] [s2] [Some nz]
    = [d ++ "|" ++ lower (clean_str (default "" s1)) ++ "|" ++ "-0.0"]
  ∧ _make_txn_key round2 float_str [d] [s1] [Some z]
    ≠ _make_txn_key round2 float_str [d] [s2] [Some nz].
Proof.
  clear to_datetime to_numeric.
  intros _ Hz Hnz Hs.
  assert (_make_txn_key round2 float_str [d] [s1] [Some z]
          = [d ++ "|" ++ lower (clean_str (default "" s1)) ++ "|" ++ "0.0"])
    as E1.
  { unfold _make_txn_key. simpl. by rewrite Hz, str_app_assoc. }
  assert (_make_txn_key round2 float_str [d] [s2] [Some nz]
          = [d ++ "|" ++ lower (clean_str (default "" s1)) ++ "|" ++ "-0.0"])
    as E2.
  { unfold _make_txn_key. simpl. by rewrite Hnz, Hs, str_app_assoc. }
  split; [exact E1|]. split; [exact E2|].
  rewrite E1, E2. intros H. injection H as H.
  do 4 apply String.app_inj in H. discriminate.
Qed.

End Pandas.
End TransformClaims.

(** ** Properties of the KPI views *)

Module QueriesClaims.
Import Queries.

Lemma sum_list_Permutation (l k : list nat) :
  l ≡ₚ k -> sum_list l = sum_list k.
Proof. induction 1; simpl; lia. Qed.

Lemma sum_list_one_hit {K} `{EqDecision K} (f : K -> nat) (k0 : K)
    (ks : list K) :
  NoDup ks -> k0 ∈ ks ->
  sum_list ((λ k, f k + if decide (k0 = k) then 1 else 0) <$> ks)
  = S (sum_list (f <$> ks)).
Proof.
  induction ks as [|k ks IH]; intros Hnd Hin; [by apply elem_of_nil in Hin|].
  apply NoDup_cons in Hnd as [Hk Hnd]. rewrite !fmap_cons. cbn [sum_list].
  cbn beta. destruct (decide (k0 = k)) as [->|Hne].
  - assert (sum_list ((λ k', f k' + if decide (k = k') then 1 else 0) <$> ks)
            = sum_list (f <$> ks)) as ->; [|unfold id; lia].
    f_equal. apply list_fmap_ext. intros i k' Hk'.
    rewrite decide_False; [lia|]. intros ->.
    apply Hk. eapply list_elem_of_lookup_2, Hk'.
  - apply elem_of_cons in Hin as [?|Hin]; [done|].
    rewrite (IH Hnd Hin). unfold id. lia.
Qed.

(** The sizes of the groups of a partition by key add up to the size of
    the list. *)
Lemma group_sizes_sum {A K} `{EqDecision K} (key : A -> K) (ks : list K)
    (l : list A) :
  NoDup ks -> (∀ x, x ∈ l -> key x ∈ ks) ->
  sum_list ((λ k, length (filter (λ x, key x = k) l)) <$> ks) = length l.
Proof.
  intros Hnd. induction l as [|x l IH]; intros Hin.
  - rewrite (list_fmap_ext _ (λ _, 0) ks) by done.
    rewrite sum_list_fmap_const. simpl. lia.
  - rewrite (list_fmap_ext _
               (λ k, length (filter (λ y, key y = k) l)
                     + if decide (key x = k) then 1 else 0) ks).
    + rewrite sum_list_one_hit; [|done|apply Hin; by left].
      simpl. f_equal. apply IH. intros y Hy. apply Hin. by right.
    + intros i k _. rewrite filter_cons.
      destruct (decide (key x = k)); simpl; lia.
Qed.

Lemma length_filter_or {A} (P Q : A -> Prop) `{∀ x, Decision (P x)}
    `{∀ x, Decision (Q x)} (l : list A) :
  (∀ x, P x -> Q x -> False) ->
  length (filter (λ x, P x ∨ Q x) l)
  = length (filter P l) + length (filter Q l).
Proof.
  intros Hdis. induction l as [|x l IH]; [reflexivity|].
  rewrite !filter_cons.
  destruct (decide (P x)) as [HP|HP], (decide (Q x)) as [HQ|HQ].
  - destruct (Hdis _ HP HQ).
  - rewrite decide_True by (by left). simpl. lia.
  - rewrite decide_True by (by right). simpl. lia.
  - rewrite decide_False by (intros [?|?]; done). exact IH.
Qed.

Lemma SUBSTR_1_7_empty s : SUBSTR_1_7 s = "" <-> s = "".
Proof. destruct s; simpl; split; intros; done. Qed.

(** Normalised text of a blank cell is empty, hence blank for [TRIM] too. *)
Lemma TRIM_clean_blank s :
  Text.all_space s = true -> TRIM (Transform.clean_str s) = "".
Proof.
  intros H. apply TextFacts.strip_sub_ws_empty in H.
  unfold Transform.clean_str. rewrite H. reflexivity.
Qed.

Section SQLite.
Variable Real : Type.
Variable zero : Real.
Variable add : Real -> Real -> Real.
Variable abs : Real -> Real.
Variable round2 : Real -> Real.
Variable leb : Real -> Real -> bool.

Local Abbreviation monthly := (monthly_trends Real zero add abs round2 leb).
Local Abbreviation Txn := (Queries.Txn Real).

Lemma category_key_Uncategorized (r : Txn) :
  category_key r = Uncategorized
  <-> blank_category r = true ∨ category r = Some Uncategorized.
Proof.
  clear zero add abs round2 leb.
  unfold category_key, blank_category.
  destruct (category r) as [c|]; [|naive_solver].
  destruct (String.eqb (TRIM c) "") eqn:E; [naive_solver|].
  split; [intros ->; by right | intros [?|[= ->]]; done].
Qed.

(** C3 (amended): every row the view reads, whatever its [date_iso], gets
    the first seven characters of [date_iso] as month key and is counted in
    the one month row of that key; the view excludes no row, so a row with
    empty [date_iso] is counted under the empty key; the row counts of the
    month rows add up to the number of rows read. *)
Theorem monthly_trends_counts rid (table : list Txn) :
  let t := where_run rid table in
  let view := monthly rid table in
  (∀ r, r ∈ t ->
     month_key r = SUBSTR_1_7 <$> date_iso r
     ∧ ∃ m, m ∈ view ∧ year_month m = month_key r)
  ∧ NoDup (year_month <$> view)
  ∧ (∀ m, m ∈ view ->
       m_row_count m
       = length (filter (λ r, month_key r = year_month m) t)
       ∧ 0 < m_row_count m)
  ∧ (∀ r, r ∈ t -> date_iso r = Some "" ->
       ∃ m, m ∈ view ∧ year_month m = Some ""
            ∧ m_row_count m
              = length (filter (λ r, date_iso r = Some "") t))
  ∧ sum_list (m_row_count <$> view) = length t.
Proof.
  intros t view. subst view. unfold monthly_trends. fold t.
  set (keys := group_keys month_key t).
  assert (∀ r, r ∈ t -> month_key r ∈ keys) as Hkeys.
  { intros r Hr. apply elem_of_remove_dups, list_elem_of_fmap. by exists r. }
  assert (∀ m, m ∈ merge_sort (by_year_month Real) (month_row Real zero add abs round2 leb t <$> keys)
            <-> ∃ k, k ∈ keys ∧ m = month_row Real zero add abs round2 leb t k) as Hview.
  { intros m. rewrite merge_sort_Permutation, list_elem_of_fmap.
    split; intros (k & ? & ?); exists k; done. }
  split; [|split; [|split; [|split]]].
  - intros r Hr. split; [reflexivity|].
    exists (month_row Real zero add abs round2 leb t (month_key r)).
    split; [|reflexivity]. apply Hview. exists (month_key r). auto.
  - rewrite merge_sort_Permutation, <- list_fmap_compose.
    rewrite (list_fmap_ext _ id keys) by done.
    rewrite list_fmap_id. apply NoDup_remove_dups.
  - intros m Hm. apply Hview in Hm as (k & Hk & ->). simpl.
    split; [reflexivity|].
    apply elem_of_remove_dups, list_elem_of_fmap in Hk as (r & -> & Hr).
    unfold group. destruct (filter _ t) eqn:E; [|simpl; lia].
    assert (r ∈ filter (λ r0 : Txn, month_key r0 = month_key r) t) as Hin
      by (apply list_elem_of_filter; done).
    rewrite E in Hin. by apply elem_of_nil in Hin.
  - intros r Hr Hd.
    exists (month_row Real zero add abs round2 leb t (Some "")).
    split; [|split; [reflexivity|]].
    + apply Hview. exists (Some ""). split; [|reflexivity].
      replace (Some "") with (month_key r); [by apply Hkeys|].
      unfold month_key. by rewrite Hd.
    + simpl. unfold group. f_equal. apply list_filter_iff. intros x.
      unfold month_key. destruct (date_iso x) as [s|]; simpl; [|done].
      split; intros [= E]; f_equal; by apply SUBSTR_1_7_empty.
  - rewrite merge_sort_Permutation, <- list_fmap_compose.
    rewrite (list_fmap_ext _ (λ k, length (filter (λ r, month_key r = k) t))
               keys) by done.
    apply group_sizes_sum; [apply NoDup_remove_dups | exact Hkeys].
Qed.

Variable own_net_total : string -> option Real.

Local Abbreviation summary :=
  (category_summary Real add abs round2 leb own_net_total).

(** Whatever the ORDER BY term reads, the view holds the rows of the
    groups, each once. *)
Lemma category_summary_Permutation labels rid (table : list Txn) :
  summary labels rid table
  ≡ₚ category_row Real add round2 (where_run rid table)
       <$> group_keys category_key (where_run rid table).
Proof.
  clear zero. unfold category_summary. cbv zeta.
  destruct (has_column labels "net_total"); apply merge_sort_Permutation.
Qed.

(** C8 (amended): a row whose category is NULL, empty or made of spaces
    only (which is what the transform step stores for a missing, blank or
    whitespace-only category) is grouped under the key Uncategorized; the
    view has one row per key, so one such bucket; its row count is the
    number of those rows plus the number of rows whose category is
    literally Uncategorized; and when the stored table has no column of
    its own called net_total, the view is ordered by descending absolute
    net total. *)
Theorem category_summary_buckets labels rid (table : list Txn) :
  (∀ x y, leb x y = true ∨ leb y x = true) ->
  let t := where_run rid table in
  let view := summary labels rid table in
  (∀ r : Txn, blank_category r = true -> category_key r = Uncategorized)
  ∧ (∀ (r : Txn) s, Text.all_space s = true ->
       category r = Some (Transform.clean_str s) ->
       category_key r = Uncategorized)
  ∧ NoDup (c_category <$> view)
  ∧ (∀ r, r ∈ t -> ∃ b, b ∈ view ∧ c_category b = category_key r)
  ∧ (∀ b, b ∈ view ->
       c_row_count b
       = length (filter (λ r, category_key r = c_category b) t))
  ∧ (∀ b, b ∈ view -> c_category b = Uncategorized ->
       c_row_count b
       = length (filter (λ r, blank_category r = true) t)
         + length (filter (λ r, category r = Some Uncategorized) t))
  ∧ (has_column labels "net_total" = false ->
       Sorted (by_abs_net_desc Real abs leb) view).
Proof.
  clear zero.
  intros Htot t view. subst view.
  pose proof (category_summary_Permutation labels rid table) as Hperm.
  fold t in Hperm.
  set (keys := group_keys category_key t) in *.
  set (mk := category_row Real add round2 t) in *.
  assert (∀ b, b ∈ summary labels rid table
            <-> ∃ k, k ∈ keys ∧ b = mk k) as Hview.
  { intros m. rewrite Hperm, list_elem_of_fmap.
    split; intros (k & ? & ?); exists k; done. }
  assert (∀ b, b ∈ summary labels rid table ->
            c_row_count b
            = length (filter (λ r, category_key r = c_category b) t)) as Hcount.
  { intros b Hb. apply Hview in Hb as (k & Hk & ->). reflexivity. }
  split; [|split; [|split; [|split; [|split; [|split]]]]].
  - intros r Hr. apply category_key_Uncategorized. by left.
  - intros r s Hs Hc. apply category_key_Uncategorized. left.
    unfold blank_category. rewrite Hc, (TRIM_clean_blank _ Hs). reflexivity.
  - rewrite Hperm, <- list_fmap_compose.
    rewrite (list_fmap_ext _ id keys) by done.
    rewrite list_fmap_id. apply NoDup_remove_dups.
  - intros r Hr. exists (mk (category_key r)). split; [|reflexivity].
    apply Hview. exists (category_key r). split; [|reflexivity].
    apply elem_of_remove_dups, list_elem_of_fmap. by exists r.
  - exact Hcount.
  - intros b Hb Hu. rewrite (Hcount b Hb), Hu.
    rewrite <- length_filter_or.
    + f_equal. apply list_filter_iff. intros r.
      apply category_key_Uncategorized.
    + intros r Hbl Hc. unfold blank_category in Hbl. rewrite Hc in Hbl.
      discriminate.
  - intros Hown. unfold category_summary. cbv zeta. rewrite Hown.
    apply Sorted_merge_sort. intros a b. unfold by_abs_net_desc, real_le, ABS.
    destruct (c_net_total a) as [x|], (c_net_total b) as [y|]; simpl; auto.
Qed.

End SQLite.
End QueriesClaims.

(** ** The properties on the sample run *)

Module Runs.
Import Text Transform.

Example clean_str_sample : clean_str "  a 	 b  " = "a b".
Proof. reflexivity. Qed.

(** The end-to-end scenario: the second coffee row is a duplicate of the
    first, the row with the bad date is the one issue, and the rent is
    negative. *)
Example sample_run :
  match Ref.transform Ref.sample with
  | inr (clean, issues, meta) =>
    txn_key <$> records clean
    = ["2024-01-02|coffee|4.5"; "2024-01-03|rent|-1200.0"; "|cash|20.0";
       "2024-02-01|memo|<NA>"]
    ∧ txn_key <$> records issues = ["|lunch|12.0"]
    ∧ meta = {| rows_in := 6; rows_out_clean := 4; rows_out_issues := 1;
                duplicates_removed := 1 |}
  | inl _ => False
  end.
Proof. vm_compute. auto. Qed.

Lemma frame_row_in i :
  i < 6 -> Ref.frame !! i = Some (Ref.frame_row i).
Proof.
  intros Hi. unfold Ref.frame, Ref.frame_row.
  destruct (rows Ref.sample !! i) as [r|] eqn:Hr.
  - by apply TransformFacts.normalized_lookup.
  - apply lookup_ge_None in Hr. simpl in Hr. lia.
Qed.

Lemma transform_count_identities_witness :
  has_col (columns Ref.sample) "date" = true
  ∧ has_col (columns Ref.sample) "amount" = true
  ∧ ∃ clean issues meta,
    Ref.transform Ref.sample = inr (clean, issues, meta)
    ∧ rows_in meta = Z.of_nat (len Ref.sample)
    ∧ rows_out_issues meta = Z.of_nat (length (records issues))
    ∧ rows_out_clean meta = Z.of_nat (length (records clean))
    ∧ (rows_out_issues meta
       + Z.of_nat (length (clean_before_dedup Ref.to_datetime
                             Ref.to_numeric Ref.round2 Ref.float_str
                             Ref.sample))
       = rows_in meta)%Z
    ∧ (Z.of_nat (length (clean_before_dedup Ref.to_datetime
                           Ref.to_numeric Ref.round2 Ref.float_str
                           Ref.sample))
       - duplicates_removed meta = rows_out_clean meta)%Z
    ∧ (0 <= duplicates_removed meta)%Z
    ∧ (∀ row, row ∈ Ref.frame ->
         (row ∈ records issues
          ∧ row ∉ clean_before_dedup Ref.to_datetime Ref.to_numeric
                    Ref.round2 Ref.float_str Ref.sample)
         ∨ (row ∈ clean_before_dedup Ref.to_datetime Ref.to_numeric
                    Ref.round2 Ref.float_str Ref.sample
            ∧ row ∉ records issues)).
Proof.
  split; [reflexivity|]. split; [reflexivity|].
  apply (TransformClaims.transform_count_identities Z Ref.to_datetime
         Ref.to_numeric Ref.round2 Ref.float_str Ref.sample);
    reflexivity.
Defined.


Lemma parse_amount_steps_witness :
  let series := [Some "(45.10)"; Some "$1,234.56"; Some "-10"; Some " $ ";
                 Some "n/a"; None] in
  let amt := (_parse_amount Ref.to_numeric series).1 in
  let invalid := (_parse_amount Ref.to_numeric series).2 in
  Ref.to_numeric "" = None
  ∧ Ref.to_numeric "-45.10" = Some (-4510)%Z
  ∧ Ref.to_numeric "1234.56" = Some 123456%Z
  ∧ Ref.to_numeric "-10" = Some (-1000)%Z
  ∧ (∀ i c, series !! i = Some c ->
       let txt := amount_text c in
       (∀ mid, clean_str (default "" c) = String "(" (mid ++ ")") ->
          txt = remove_comma_dollar (String "-" mid))
       ∧ has_char "$" txt = false ∧ has_char "," txt = false
       ∧ amt !! i = Some (Ref.to_numeric txt)
       ∧ (txt = "" -> amt !! i = Some None ∧ invalid !! i = Some false)
       ∧ (invalid !! i = Some true ↔ txt ≠ "" ∧ Ref.to_numeric txt = None))
  ∧ (∀ i, series !! i = Some (Some "(45.10)") ->
       amt !! i = Some (Some (-4510)%Z) ∧ invalid !! i = Some false)
  ∧ (∀ i, series !! i = Some (Some "$1,234.56") ->
       amt !! i = Some (Some 123456%Z) ∧ invalid !! i = Some false)
  ∧ (∀ i, series !! i = Some (Some "-10") ->
       amt !! i = Some (Some (-1000)%Z) ∧ invalid !! i = Some false).
Proof.
  intros series amt invalid.
  do 4 (split; [reflexivity|]).
  apply (TransformClaims.parse_amount_steps Z Ref.to_numeric series
           (-4510)%Z 123456%Z (-1000)%Z); reflexivity.
Defined.

(** What the sample column of amounts evaluates to. *)
Example parse_amount_sample :
  _parse_amount Ref.to_numeric
    [Some "(45.10)"; Some "$1,234.56"; Some "-10"; Some " $ "; Some "n/a";
     None]
  = ([Some (-4510)%Z; Some 123456%Z; Some (-1000)%Z; None; None; None],
     [false; false; false; false; true; false]).
Proof. vm_compute. reflexivity. Qed.

Lemma parse_date_blank_and_invalid_witness :
  let series := [Some "  "; Some "bad-date"; None; Some "2024-01-03"] in
  let iso := (_parse_date Ref.to_datetime series).1 in
  let invalid := (_parse_date Ref.to_datetime series).2 in
  (∀ raw j, raw !! j = Some "" -> Ref.to_datetime raw j = None)
  ∧ ∀ i c, series !! i = Some c ->
      (all_space (default "" c) = true ->
         iso !! i = Some "" ∧ invalid !! i = Some false)
      ∧ (all_space (default "" c) = false ->
         Ref.to_datetime (_clean_text series) i = None ->
         iso !! i = Some "" ∧ invalid !! i = Some true)
      ∧ (invalid !! i = Some true ↔
         all_space (default "" c) = false
         ∧ Ref.to_datetime (_clean_text series) i = None).
Proof.
  intros series iso invalid.
  split; [exact RefFacts.date_of_text_empty|].
  exact (TransformClaims.parse_date_blank_and_invalid Ref.to_datetime series
           RefFacts.date_of_text_empty).
Defined.

(** What the sample column of dates evaluates to. *)
Example parse_date_sample :
  _parse_date Ref.to_datetime
    [Some "  "; Some "bad-date"; None; Some "2024-01-03"; Some "01/02/2024"]
  = ([""; ""; ""; "2024-01-03"; "2024-01-02"],
     [false; true; false; false; false]).
Proof. vm_compute. reflexivity. Qed.

Lemma blank_date_row_is_clean_witness :
  let r := default ∅ (rows Ref.sample !! 4) in
  (∀ raw j, raw !! j = Some "" -> Ref.to_datetime raw j = None)
  ∧ has_col (columns Ref.sample) "date" = true
  ∧ has_col (columns Ref.sample) "amount" = true
  ∧ rows Ref.sample !! 4 = Some r
  ∧ all_space (default "" (r !! "date")) = true
  ∧ (amount_text (r !! "amount") = ""
   ∨ is_Some (Ref.to_numeric (amount_text (r !! "amount"))))
  ∧ ∃ row clean issues meta,
    Ref.frame !! 4 = Some row
    ∧ date_iso row = ""
    ∧ has_issue row = false
    ∧ Ref.transform Ref.sample = inr (clean, issues, meta)
    ∧ row ∈ clean_before_dedup Ref.to_datetime Ref.to_numeric Ref.round2
              Ref.float_str Ref.sample
    ∧ (row ∉ records issues)
    ∧ ∃ row', row' ∈ records clean
              ∧ txn_key row' = txn_key row ∧ date_iso row' = "".
Proof.
  intros r.
  assert (amount_text (r !! "amount") = ""
          ∨ is_Some (Ref.to_numeric (amount_text (r !! "amount")))) as Hamt
    by (right; vm_compute; eauto).
  split; [exact RefFacts.date_of_text_empty|].
  do 4 (split; [reflexivity|]). split; [exact Hamt|].
  apply (TransformClaims.blank_date_row_is_clean Z Ref.to_datetime
         Ref.to_numeric Ref.round2 Ref.float_str Ref.sample 4 r
         RefFacts.date_of_text_empty); try reflexivity.
  exact Hamt.
Defined.

Lemma real_leb_total x y : Ref.real_leb x y = true ∨ Ref.real_leb y x = true.
Proof. unfold Ref.real_leb. lia. Qed.

Lemma category_summary_buckets_witness :
  let t := Queries.where_run (Some Ref.run) (Ref.stored Ref.ledger) in
  let view := Ref.summary in
  (∀ x y, Ref.real_leb x y = true ∨ Ref.real_leb y x = true)
  ∧ (∀ r : Queries.Txn Z,
     Queries.blank_category r = true ->
     Queries.category_key r = Queries.Uncategorized)
  ∧ (∀ (r : Queries.Txn Z) s, Text.all_space s = true ->
     Queries.category r = Some (clean_str s) ->
     Queries.category_key r = Queries.Uncategorized)
  ∧ NoDup (Queries.c_category <$> view)
  ∧ (∀ r, r ∈ t ->
     ∃ b, b ∈ view ∧ Queries.c_category b = Queries.category_key r)
  ∧ (∀ b, b ∈ view ->
     Queries.c_row_count b
     = length (filter (λ r, Queries.category_key r = Queries.c_category b) t))
  ∧ (∀ b, b ∈ view -> Queries.c_category b = Queries.Uncategorized ->
     Queries.c_row_count b
     = length (filter (λ r, Queries.blank_category r = true) t)
       + length (filter (λ r, Queries.category r
                              = Some Queries.Uncategorized) t))
  ∧ (Queries.has_column (Ref.stored_labels Ref.ledger) "net_total" = false ->
     Sorted (Queries.by_abs_net_desc Z Z.abs Ref.real_leb) view).
Proof.
  intros t view. split; [exact real_leb_total|].
  exact (QueriesClaims.category_summary_buckets Z Z.add Z.abs Ref.round2
         Ref.real_leb (λ _, None) (Ref.stored_labels Ref.ledger)
         (Some Ref.run) (Ref.stored Ref.ledger) real_leb_total).
Defined.

(** C3, as stated, fails on the sample run: the row without date is stored
    with the empty [date_iso], gets the empty month key and is counted in
    the first month row of the view. *)
Lemma monthly_trends_counts_empty_date :
  (λ r : Queries.Txn Z, Queries.date_iso r) <$> Ref.transactions
  = [Some "2024-01-02"; Some "2024-01-03"; Some ""; Some "2024-02-01"]
  ∧ (λ m, (Queries.year_month m, Queries.m_row_count m)) <$> Ref.monthly
  = [(Some "", 1); (Some "2024-01", 2); (Some "2024-02", 1)]
  ∧ ¬ (∀ r, r ∈ Ref.transactions -> Queries.date_iso r = Some "" ->
       ∀ m, m ∈ Ref.monthly -> Queries.year_month m ≠ Queries.month_key r).
Proof.
  split; [vm_compute; reflexivity|]. split; [vm_compute; reflexivity|].
  intros H.
  assert (Ref.transactions !! 2
          = Some {| Queries.date_iso := Some "";
                    Queries.amount_num := Some 2000%Z;
                    Queries.category := Some "";
                    Queries.source_file := Some "b.csv";
                    Queries.run_id := Some "20240105_120000" |}) as Hr
    by (vm_compute; reflexivity).
  assert (Ref.monthly !! 0
          = Some {| Queries.year_month := Some "";
                    Queries.m_net_total := Some 2000%Z;
                    Queries.income := Some 2000%Z;
                    Queries.expenses := Some 0%Z;
                    Queries.m_row_count := 1 |}) as Hm
    by (vm_compute; reflexivity).
  apply (H _ (list_elem_of_lookup_2 _ _ _ Hr) eq_refl
           _ (list_elem_of_lookup_2 _ _ _ Hm)).
  reflexivity.
Qed.

(** C8, as stated, fails on the sample run: two stored rows have a blank
    category, yet the bucket Uncategorized counts three rows, the third
    being the row whose category is the text Uncategorized itself. *)
Lemma category_bucket_counts_literal_label :
  (λ r : Queries.Txn Z, Queries.category r) <$> Ref.stored Ref.ledger
  = [Some "Food"; Some "Uncategorized"; Some ""; Some ""]
  ∧ Queries.has_column (Ref.stored_labels Ref.ledger) "net_total" = false
  ∧ length (filter (λ r, Queries.blank_category r = true)
              (Ref.stored Ref.ledger)) = 2
  ∧ (λ b, (Queries.c_category b, Queries.c_net_total b, Queries.c_row_count b))
      <$> Ref.summary
    = [("Uncategorized", Some (-116500)%Z, 3); ("Food", Some 450%Z, 1)]
  ∧ ¬ (∀ b, b ∈ Ref.summary ->
         Queries.c_category b = Queries.Uncategorized ->
         Queries.c_row_count b
         = length (filter (λ r, Queries.blank_category r = true)
                     (Ref.stored Ref.ledger))).
Proof.
  assert (length (filter (λ r, Queries.blank_category r = true)
                    (Ref.stored Ref.ledger)) = 2) as Hblank
    by (vm_compute; reflexivity).
  split; [vm_compute; reflexivity|]. split; [vm_compute; reflexivity|].
  split; [exact Hblank|].
  split; [vm_compute; reflexivity|].
  intros H. rewrite Hblank in H.
  assert (Ref.summary !! 0
          = Some {| Queries.c_category := "Uncategorized";
                    Queries.c_net_total := Some (-116500)%Z;
                    Queries.c_row_count := 3 |}) as Hb
    by (vm_compute; reflexivity).
  pose proof (H _ (list_elem_of_lookup_2 _ _ _ Hb) eq_refl) as Hc.
  discriminate Hc.
Qed.

Lemma txn_key_of_signed_zero_witness :
  Signed.feq (Signed.round2 Signed.zero) (Signed.round2 Signed.negative_zero)
  = true
  ∧ Signed.float_str (Signed.round2 Signed.zero) = "0.0"
  ∧ Signed.float_str (Signed.round2 Signed.negative_zero) = "-0.0"
  ∧ lower (clean_str " Refund ") = lower (clean_str "refund")
  ∧ _make_txn_key Signed.round2 Signed.float_str ["2024-01-02"]
      [Some " Refund "] [Some Signed.zero]
    = ["2024-01-02|refund|0.0"]
  ∧ _make_txn_key Signed.round2 Signed.float_str ["2024-01-02"]
      [Some "refund"] [Some Signed.negative_zero]
    = ["2024-01-02|refund|-0.0"]
  ∧ _make_txn_key Signed.round2 Signed.float_str ["2024-01-02"]
      [Some " Refund "] [Some Signed.zero]
    ≠ _make_txn_key Signed.round2 Signed.float_str ["2024-01-02"]
        [Some "refund"] [Some Signed.negative_zero].
Proof.
  split; [reflexivity|]. split; [reflexivity|]. split; [reflexivity|].
  split; [reflexivity|].
  exact (TransformClaims.txn_key_of_signed_zero Signed.Float Signed.round2
           Signed.float_str Signed.feq Signed.zero Signed.negative_zero
           "2024-01-02" (Some " Refund ") (Some "refund")
           eq_refl eq_refl eq_refl eq_refl).
Defined.

(** The two records through the whole transform: both are clean, their
    amounts are equal, their keys differ, and no duplicate is removed. *)
Example signed_zero_run :
  match Signed.transform Signed.zeros with
  | inr (clean, issues, meta) =>
      (λ r, (date_iso r, description r, amount_num r, txn_key r))
        <$> records clean
      = [("2024-01-02", "Refund", Some Signed.zero, "2024-01-02|refund|0.0");
         ("2024-01-02", "refund", Some Signed.negative_zero,
          "2024-01-02|refund|-0.0")]
      ∧ Signed.feq Signed.zero Signed.negative_zero = true
      ∧ records issues = []
      ∧ duplicates_removed meta = 0%Z
  | inl _ => False
  end.
Proof. vm_compute. auto. Qed.

End Runs.

(** ** Further properties of the text and transform helpers *)

Module TransformExtras.
Import Text TextFacts Transform TransformFacts KeyFacts.

Lemma length_clean_text series : length (_clean_text series) = length series.
Proof. unfold _clean_text, fillna. by rewrite !length_fmap. Qed.

Lemma is_space_lower_char c : is_space (lower_char c) = is_space c.
Proof. destruct c as [[] [] [] [] [] [] [] []]; reflexivity. Qed.

Lemma lower_char_idempotent c : lower_char (lower_char c) = lower_char c.
Proof. destruct c as [[] [] [] [] [] [] [] []]; reflexivity. Qed.

Lemma lower_char_space c :
  is_space c = true -> lower_char c = c.
Proof. destruct c as [[] [] [] [] [] [] [] []]; try discriminate; reflexivity. Qed.

Lemma lower_idempotent s : lower (lower s) = lower s.
Proof.
  induction s as [|c s IH]; simpl; [done|].
  by rewrite lower_char_idempotent, IH.
Qed.

Lemma lower_sub_ws_from b s :
  sub_ws_from b (lower s) = lower (sub_ws_from b s).
Proof.
  revert b. induction s as [|c s IH]; intros b; simpl; [done|].
  rewrite is_space_lower_char. destruct (is_space c) eqn:Hc.
  - destruct b; simpl; by rewrite IH.
  - simpl. by rewrite IH.
Qed.

Lemma lower_lstrip s : lstrip (lower s) = lower (lstrip s).
Proof.
  induction s as [|c s IH]; simpl; [done|].
  rewrite is_space_lower_char. by destruct (is_space c).
Qed.

Lemma lower_rstrip s : rstrip (lower s) = lower (rstrip s).
Proof.
  induction s as [|c s IH]; simpl; [done|].
  rewrite IH, is_space_lower_char.
  destruct (rstrip s); simpl; [by destruct (is_space c) | done].
Qed.

(** Lower-casing and normalising commute. *)
Lemma lower_clean_str s : clean_str (lower s) = lower (clean_str s).
Proof.
  unfold clean_str, strip, sub_ws.
  by rewrite lower_sub_ws_from, lower_lstrip, lower_rstrip.
Qed.

(** X1: normalising a column twice is normalising it once. *)
Theorem clean_text_idempotent series :
  _clean_text (Some <$> _clean_text series) = _clean_text series.
Proof.
  unfold _clean_text, fillna. rewrite <- !list_fmap_compose.
  apply list_fmap_ext. intros i c _. simpl.
  apply strip_sub_ws_idempotent.
Qed.

(** X2: the normalised column has the length of the input; at each
    position the text has no whitespace character but the plain space, is
    left unchanged by collapsing runs and by stripping, and is empty
    exactly when the cell is missing or whitespace-only. *)
Theorem clean_text_normal_form series :
  length (_clean_text series) = length series
  ∧ ∀ i c, series !! i = Some c ->
      ∃ t, _clean_text series !! i = Some t
           ∧ str_all tidy_char t = true
           ∧ sub_ws t = t
           ∧ strip t = t
           ∧ (t = "" ↔ all_space (default "" c) = true).
Proof.
  split; [apply length_clean_text|].
  intros i c Hc. exists (clean_str (default "" c)).
  rewrite lookup_clean_text, Hc.
  pose proof (strip_sub_ws_shaped (default "" c)) as Hs.
  fold (clean_str (default "" c)) in Hs.
  split; [reflexivity|]. split; [apply strip_sub_ws_tidy|].
  split; [|split].
  - unfold sub_ws. apply (sub_ws_from_fixed _ _ _ false _ Hs). by left.
  - unfold strip. rewrite (lstrip_fixed _ _ _ Hs).
    by destruct (rstrip_fixed _ _ _ Hs).
  - apply strip_sub_ws_empty.
Qed.

(** X3: [_parse_date] returns two columns of the length of the input; a
    flagged position has the empty ISO text, a non-empty ISO text has ten
    characters with dashes at positions 4 and 7 and is not flagged, and a
    missing or whitespace-only cell is never flagged. *)
Theorem parse_date_shape (to_datetime : list string -> nat -> option Timestamp)
    series :
  length (_parse_date to_datetime series).1 = length series
  ∧ length (_parse_date to_datetime series).2 = length series
  ∧ ∀ i c, series !! i = Some c ->
      ∃ d b, (_parse_date to_datetime series).1 !! i = Some d
             ∧ (_parse_date to_datetime series).2 !! i = Some b
             ∧ (b = true -> d = "")
             ∧ (d ≠ "" ->
                  b = false ∧ String.length d = 10
                  ∧ String.get 4 d = Some "-"%char
                  ∧ String.get 7 d = Some "-"%char
                  ∧ has_char "|" d = false)
             ∧ (all_space (default "" c) = true -> b = false).
Proof.
  split; [|split].
  - unfold _parse_date, fillna. simpl.
    by rewrite !length_fmap, length_imap, length_clean_text.
  - unfold _parse_date. simpl.
    rewrite length_zip_with, length_imap, length_fmap, length_clean_text. lia.
  - intros i c Hc.
    destruct (parse_date_lookup to_datetime _ _ _ Hc) as [H1 H2].
    do 2 eexists. split; [exact H1|]. split; [exact H2|].
    destruct (to_datetime (_clean_text series) i) as [t|]; simpl.
    + split; [discriminate|]. split.
      * intros _. split; [reflexivity|]. split; [reflexivity|].
        split; [reflexivity|]. split; [reflexivity|].
        apply strftime_ymd_no_bar.
      * done.
    + split; [done|]. split; [done|].
      intros Hb. apply strip_sub_ws_empty in Hb.
      unfold clean_str. by rewrite Hb.
Qed.

(** X4: [_parse_amount] returns two columns of the length of the input; a
    flagged position has no amount, a position with an amount is not
    flagged, and a flagged cell is never missing or whitespace-only. *)
Theorem parse_amount_shape {Float} (to_numeric : string -> option Float)
    series :
  length (_parse_amount to_numeric series).1 = length series
  ∧ length (_parse_amount to_numeric series).2 = length series
  ∧ ∀ i c, series !! i = Some c ->
      ∃ a b, (_parse_amount to_numeric series).1 !! i = Some a
             ∧ (_parse_amount to_numeric series).2 !! i = Some b
             ∧ (b = true -> a = None)
             ∧ (is_Some a -> b = false)
             ∧ (b = true -> all_space (default "" c) = false).
Proof.
  split; [|split].
  - unfold _parse_amount. simpl. by rewrite !length_fmap, length_clean_text.
  - unfold _parse_amount. simpl.
    rewrite length_zip_with, !length_fmap, length_clean_text. lia.
  - intros i c Hc.
    destruct (parse_amount_lookup _ to_numeric _ _ _ Hc) as [H1 H2].
    do 2 eexists. split; [exact H1|]. split; [exact H2|].
    destruct (to_numeric (amount_text c)) as [v|] eqn:Hv; simpl.
    + split; [discriminate|]. split; [done | discriminate].
    + split; [done|]. split; [by intros [? ?]|].
      intros Hb. destruct (all_space (default "" c)) eqn:Hsp; [|done].
      apply strip_sub_ws_empty in Hsp. unfold amount_text, clean_str in Hb.
      rewrite Hsp in Hb. discriminate.
Qed.

Lemma clean_text_idempotent_lower desc :
  lower <$> _clean_text (Some <$> (lower <$> _clean_text desc))
  = lower <$> _clean_text desc.
Proof.
  unfold _clean_text, fillna. rewrite <- !list_fmap_compose.
  apply list_fmap_ext. intros i c _. cbn [compose default]. unfold id.
  rewrite lower_clean_str, lower_idempotent. f_equal.
  apply strip_sub_ws_idempotent.
Qed.

(** X5: the key does not see the case or the whitespace layout of the
    description: building it from the normalised, lower-cased descriptions
    gives the same keys. *)
Theorem txn_key_ignores_case_and_layout {Float} (round2 : Float -> Float)
    (float_str : Float -> string) date_iso desc amt :
  _make_txn_key round2 float_str date_iso
    (Some <$> (lower <$> _clean_text desc)) amt
  = _make_txn_key round2 float_str date_iso desc amt.
Proof.
  unfold _make_txn_key. cbv zeta. do 2 f_equal.
  rewrite clean_text_idempotent_lower. reflexivity.
Qed.


Lemma mask_keep_all {A} (l : list A) keys seen :
  length keys = length l -> NoDup keys -> (∀ k, k ∈ keys -> k ∉ seen) ->
  mask_select l (negb <$> duplicated_from seen keys) = l.
Proof.
  revert l seen. induction keys as [|k ks IH]; intros [|x l] seen Hlen Hnd Hs;
    try discriminate; [reflexivity|].
  apply NoDup_cons in Hnd as [Hk Hnd].
  cbn [duplicated_from]. rewrite fmap_cons.
  rewrite bool_decide_eq_false_2 by (apply Hs; by left).
  cbn [negb mask_select]. f_equal. apply IH; [by injection Hlen | done |].
  intros k' Hk' [Hx%elem_of_singleton|Hx]%elem_of_union.
  - by subst.
  - apply (Hs k'); [by right | done].
Qed.

Lemma mask_full_length {A} (l : list A) keys seen :
  length keys = length l ->
  length (mask_select l (negb <$> duplicated_from seen keys)) = length l ->
  mask_select l (negb <$> duplicated_from seen keys) = l.
Proof.
  revert l seen. induction keys as [|k ks IH]; intros [|x l] seen Hlen Hfull;
    try discriminate; [reflexivity|].
  revert Hfull. cbn [duplicated_from]. rewrite fmap_cons.
  destruct (bool_decide (k ∈ seen)); cbn [negb mask_select length].
  - intros Hfull.
    pose proof (sublist_length _ _
      (mask_select_sublist l (negb <$> duplicated_from ({[k]} ∪ seen) ks))).
    lia.
  - intros Hfull. f_equal. apply IH; [by injection Hlen | lia].
Qed.

Section Pandas.

Variable Float : Type.
Variable to_datetime : list string -> nat -> option Timestamp.
Variable to_numeric : string -> option Float.
Variable round2 : Float -> Float.
Variable float_str : Float -> string.

Local Abbreviation transform :=
  (transform_transactions to_datetime to_numeric round2 float_str).
Local Abbreviation out := (normalized to_datetime to_numeric round2 float_str).
Local Abbreviation before :=
  (clean_before_dedup to_datetime to_numeric round2 float_str).

Lemma keys_of_drop_duplicates (l : list (Row Float)) :
  NoDup (txn_key <$> drop_duplicates l).
Proof.
  unfold drop_duplicates, duplicated. rewrite mask_select_fmap.
  apply kept_keys_NoDup.
Qed.

Lemma drop_duplicates_keeps_all (l : list (Row Float)) :
  NoDup (txn_key <$> l) -> drop_duplicates l = l.
Proof.
  intros Hnd. unfold drop_duplicates, duplicated.
  apply mask_keep_all; [by rewrite length_fmap | done |].
  intros k _. apply not_elem_of_empty.
Qed.

Lemma drop_duplicates_full (l : list (Row Float)) :
  (drop_duplicates l = l ↔ NoDup (txn_key <$> l))
  ∧ (length (drop_duplicates l) = length l ↔ NoDup (txn_key <$> l)).
Proof.
  assert (drop_duplicates l = l ↔ NoDup (txn_key <$> l)) as Hfix.
  { split; [|apply drop_duplicates_keeps_all].
    intros H. rewrite <- H. apply keys_of_drop_duplicates. }
  split; [exact Hfix|].
  rewrite <- Hfix. split; [|by intros ->].
  unfold drop_duplicates, duplicated. apply mask_full_length.
  by rewrite length_fmap.
Qed.

(** X6: removing duplicates is idempotent; it returns its argument
    unchanged exactly when the keys of the argument are pairwise distinct,
    which is also exactly when it removes no row. *)
Theorem drop_duplicates_fixed_point (l : list (Row Float)) :
  drop_duplicates (drop_duplicates l) = drop_duplicates l
  ∧ (drop_duplicates l = l ↔ NoDup (txn_key <$> l))
  ∧ (length (drop_duplicates l) = length l ↔ NoDup (txn_key <$> l)).
Proof.
  clear to_datetime to_numeric round2 float_str.
  split; [|apply drop_duplicates_full].
  apply drop_duplicates_keeps_all, keys_of_drop_duplicates.
Qed.

(** X7: of an accepted table the three output counts add up to the input
    count, and the count of removed duplicates is zero exactly when the
    keys of the rows without issue are pairwise distinct, in which case
    the clean output is all of these rows. *)
Theorem duplicates_removed_zero df :
  has_col (columns df) "date" = true ->
  has_col (columns df) "amount" = true ->
  ∃ clean issues meta,
    transform df = inr (clean, issues, meta)
    ∧ (rows_out_clean meta + rows_out_issues meta + duplicates_removed meta
       = rows_in meta)%Z
    ∧ (duplicates_removed meta = 0%Z ↔ NoDup (txn_key <$> before df))
    ∧ (duplicates_removed meta = 0%Z -> records clean = before df).
Proof.
  intros Hd Ha. do 3 eexists.
  split; [apply TransformClaims.transform_accepts; assumption|].
  cbn [rows_in rows_out_issues rows_out_clean duplicates_removed records].
  pose proof (length_mask_select_split (out df) (has_issue <$> out df)
                ltac:(by rewrite length_fmap)) as Hsplit.
  pose proof (TransformClaims.length_drop_duplicates_le Float (before df)) as Hle.
  destruct (drop_duplicates_full (before df)) as (Hfix & Hlen).
  split; [|split].
  - unfold clean_before_dedup in *. unfold len.
    rewrite <- (length_normalized Float to_datetime to_numeric round2
                  float_str df). lia.
  - rewrite <- Hlen. lia.
  - intros H. apply Hfix, Hlen. lia.
Qed.

(** X8: every row of the issues output carries a raised flag, a flagged
    date comes with the empty ISO text and a flagged amount with no
    number; no row of the clean output carries a flag; and both outputs
    keep the order of the working frame. *)
Theorem outputs_agree_with_flags df :
  has_col (columns df) "date" = true ->
  has_col (columns df) "amount" = true ->
  ∃ clean issues meta,
    transform df = inr (clean, issues, meta)
    ∧ (∀ row, row ∈ records issues ->
         (issue_date_invalid row = true ∨ issue_amount_invalid row = true)
         ∧ (issue_date_invalid row = true -> date_iso row = "")
         ∧ (issue_amount_invalid row = true -> amount_num row = None))
    ∧ (∀ row, row ∈ records clean ->
         issue_date_invalid row = false ∧ issue_amount_invalid row = false)
    ∧ sublist (records issues) (out df)
    ∧ sublist (records clean) (out df).
Proof.
  intros Hd Ha. do 3 eexists.
  split; [apply TransformClaims.transform_accepts; assumption|].
  cbn [records].
  assert (∀ row, row ∈ out df ->
            has_issue row = issue_date_invalid row || issue_amount_invalid row
            ∧ (issue_date_invalid row = true -> date_iso row = "")
            ∧ (issue_amount_invalid row = true -> amount_num row = None))
    as Hrow.
  { intros row Hin.
    destruct (TransformClaims.elem_of_out Float to_datetime to_numeric round2
                float_str df row Hin) as (i & r & Hr & ->).
    unfold row_at. cbn [has_issue issue_date_invalid issue_amount_invalid
                        date_iso amount_num].
    split; [reflexivity|]. split.
    - destruct (to_datetime _ i); simpl; [discriminate | done].
    - destruct (to_numeric _); simpl; [discriminate | done]. }
  assert (sublist (drop_duplicates (before df)) (out df)) as Hsub.
  { etrans; [apply mask_select_sublist|]. apply mask_select_sublist. }
  split; [|split; [|split]].
  - intros row Hin.
    apply (TransformClaims.elem_of_issues Float to_datetime to_numeric round2
             float_str) in Hin as [Hin Hi].
    destruct (Hrow row Hin) as (Hh & H1 & H2).
    split; [|by split]. rewrite Hh in Hi. by apply orb_true_iff in Hi.
  - intros row Hin.
    assert (row ∈ before df) as Hb
      by (eapply elem_of_sublist; [exact Hin | apply mask_select_sublist]).
    apply (TransformClaims.elem_of_before Float to_datetime to_numeric round2
             float_str) in Hb as [Ho Hi].
    destruct (Hrow row Ho) as (Hh & _). rewrite Hh in Hi.
    by apply orb_false_iff in Hi.
  - apply mask_select_sublist.
  - exact Hsub.
Qed.

(** X9: a table with the required columns and no rows gives two empty
    outputs and counts that are all zero. *)
Theorem transform_of_no_rows df :
  has_col (columns df) "date" = true ->
  has_col (columns df) "amount" = true ->
  rows df = [] ->
  ∃ clean issues,
    transform df
    = inr (clean, issues,
           {| rows_in := 0; rows_out_clean := 0; rows_out_issues := 0;
              duplicates_removed := 0 |})
    ∧ records clean = [] ∧ records issues = [].
Proof.
  intros Hd Ha Hrows.
  rewrite (TransformClaims.transform_accepts Float to_datetime to_numeric
             round2 float_str df Hd Ha).
  assert (out df = []) as Hout.
  { apply length_zero_iff_nil.
    rewrite (length_normalized Float to_datetime to_numeric round2 float_str
               df), Hrows. reflexivity. }
  unfold clean_before_dedup, len. rewrite Hout, Hrows.
  do 2 eexists. split; [reflexivity|]. split; reflexivity.
Qed.

End Pandas.

End TransformExtras.

(** ** The key and the description in the words of the specification *)

Module KeyExtras.
Import Text TextFacts Transform TransformFacts KeyFacts.

Lemma words_cons c r :
  Spec.words (String c r)
  = if is_space c then Spec.words r
    else
      match r, Spec.words r with
      | String d _, w :: ws =>
          if is_space d then String c EmptyString :: Spec.words r
          else String c w :: ws
      | _, _ => String c EmptyString :: Spec.words r
      end.
Proof. destruct r; reflexivity. Qed.

Lemma words_nonspace_head c r :
  is_space c = false -> ∃ w ws, Spec.words (String c r) = w :: ws.
Proof.
  intros Hc. rewrite words_cons, Hc.
  destruct r as [|d r]; [by eexists _, _|].
  destruct (Spec.words (String d r)) as [|w ws]; [by eexists _, _|].
  destruct (is_space d); by eexists _, _.
Qed.

(** The words of a text that starts with a character other than
    whitespace depend on the rest through its words and through whether it
    starts with whitespace. *)
Lemma words_cons_congr c r r' :
  Spec.words r = Spec.words r' ->
  match r with String d _ => is_space d | EmptyString => true end
  = match r' with String d _ => is_space d | EmptyString => true end ->
  Spec.words (String c r) = Spec.words (String c r').
Proof.
  intros Hw Hh. rewrite !words_cons. destruct (is_space c) eqn:Hc; [done|].
  destruct r as [|d r], r' as [|d' r']; try reflexivity.
  - by rewrite <- Hw.
  - rewrite Hh, <- Hw. by destruct (Spec.words (String d r)).
  - by rewrite <- Hw, Hh.
Qed.

Lemma words_all_space s : all_space s = true -> Spec.words s = [].
Proof.
  unfold all_space. induction s as [|c s IH]; [reflexivity|].
  simpl str_all. intros [Hc Hs]%andb_true_iff.
  rewrite words_cons, Hc. by apply IH.
Qed.

Lemma words_sub_ws_from b s :
  Spec.words (sub_ws_from b s) = Spec.words s.
Proof.
  revert b. induction s as [|c s IH]; intros b; [reflexivity|].
  cbn [sub_ws_from]. destruct (is_space c) eqn:Hc.
  - rewrite (words_cons c s), Hc. destruct b; [apply IH|].
    rewrite words_cons. change (is_space " ") with true. apply IH.
  - apply words_cons_congr; [apply IH|].
    destruct s as [|d s]; [reflexivity|]. cbn [sub_ws_from].
    by destruct (is_space d) eqn:Hd.
Qed.

Lemma words_lstrip s : Spec.words (lstrip s) = Spec.words s.
Proof.
  induction s as [|c s IH]; [reflexivity|].
  cbn [lstrip]. destruct (is_space c) eqn:Hc; [|reflexivity].
  by rewrite (words_cons c s), Hc.
Qed.

Lemma rstrip_head s :
  match rstrip s with String d _ => is_space d | EmptyString => true end
  = match s with String d _ => is_space d | EmptyString => true end.
Proof.
  destruct s as [|d s]; [reflexivity|]. cbn [rstrip].
  destruct (rstrip s); [|reflexivity].
  by destruct (is_space d) eqn:Hd.
Qed.

Lemma words_rstrip s : Spec.words (rstrip s) = Spec.words s.
Proof.
  induction s as [|c s IH]; [reflexivity|].
  destruct (is_space c) eqn:Hc.
  - rewrite (words_cons c s), Hc, <- IH. cbn [rstrip].
    destruct (rstrip s) as [|d r] eqn:Hr; [by rewrite Hc|].
    by rewrite words_cons, Hc.
  - rewrite (rstrip_nonspace_head _ _ Hc).
    apply words_cons_congr; [exact IH | apply rstrip_head].
Qed.

Lemma words_clean_str s : Spec.words (clean_str s) = Spec.words s.
Proof.
  unfold clean_str, strip, sub_ws.
  by rewrite words_rstrip, words_lstrip, words_sub_ws_from.
Qed.

Lemma words_lower s : Spec.words (lower s) = lower <$> Spec.words s.
Proof.
  induction s as [|c s IH]; [reflexivity|].
  cbn [lower]. destruct (is_space c) eqn:Hc.
  - by rewrite !words_cons, TransformExtras.is_space_lower_char, Hc.
  - destruct s as [|d s].
    + by rewrite !words_cons, TransformExtras.is_space_lower_char, Hc.
    + cbn [lower] in *.
      rewrite (words_cons (lower_char c)), (words_cons c),
        TransformExtras.is_space_lower_char, Hc.
      cbv beta iota. rewrite IH, TransformExtras.is_space_lower_char.
      destruct (Spec.words (String d s)) as [|w ws]; [reflexivity|].
      by destruct (is_space d).
Qed.

Lemma small_lower_char c : Spec.small c = lower_char c.
Proof. destruct c as [[] [] [] [] [] [] [] []]; reflexivity. Qed.

Lemma small_word_lower w : Spec.small_word w = lower w.
Proof.
  induction w as [|c w IH]; [reflexivity|].
  simpl. by rewrite small_lower_char, IH.
Qed.

Lemma eqb_space_lower_char c :
  Ascii.eqb (lower_char c) " " = Ascii.eqb c " ".
Proof. destruct c as [[] [] [] [] [] [] [] []]; reflexivity. Qed.

Lemma shaped_lower trail sp e s :
  shaped trail sp e (lower s) = shaped trail sp e s.
Proof.
  revert sp e. induction s as [|c s IH]; intros sp e; [reflexivity|].
  cbn [lower shaped].
  by rewrite TransformExtras.is_space_lower_char, eqb_space_lower_char, !IH.
Qed.

Lemma shaped_nonempty trail sp s :
  shaped trail sp false s = true ->
  s ≠ "" ∧ shaped trail sp true s = true.
Proof. destruct s; [discriminate | done]. Qed.

Lemma shaped_words_nonempty sp e s :
  shaped false sp e s = true -> s ≠ "" -> Spec.words s ≠ [].
Proof.
  revert sp e. induction s as [|c s IH]; intros sp e Hs Hne; [done|].
  cbn [shaped] in Hs. destruct (is_space c) eqn:Hc.
  - apply andb_true_iff in Hs as [_ Hs].
    rewrite words_cons, Hc. apply (IH false false Hs).
    by destruct (shaped_nonempty _ _ _ Hs).
  - destruct (words_nonspace_head c s Hc) as (w & ws & ->). done.
Qed.

Lemma join_cons_cons sep x y l :
  Ingest.join sep (x :: y :: l) = x ++ sep ++ Ingest.join sep (y :: l).
Proof. reflexivity. Qed.

(** A normalised text is its words joined by single spaces. *)
Lemma shaped_join sp s :
  shaped false sp true s = true ->
  match s with
  | String d _ =>
      if is_space d then String " " (Ingest.join " " (Spec.words s))
      else Ingest.join " " (Spec.words s)
  | EmptyString => EmptyString
  end = s.
Proof.
  revert sp. induction s as [|c s IH]; intros sp Hs; [reflexivity|].
  cbn [shaped] in Hs. destruct (is_space c) eqn:Hc.
  - apply andb_true_iff in Hs as [[_ Hsp]%andb_true_iff Hs].
    apply Ascii.eqb_eq in Hsp as ->.
    destruct (shaped_nonempty _ _ _ Hs) as [Hne Hs'].
    rewrite words_cons, Hc. f_equal.
    specialize (IH false Hs'). destruct s as [|d s]; [done|].
    cbn [shaped] in Hs. destruct (is_space d); [discriminate | exact IH].
  - specialize (IH true Hs). rewrite words_cons, Hc.
    destruct s as [|d s]; [reflexivity|].
    destruct (is_space d) eqn:Hd.
    + assert (Spec.words (String d s) ≠ []) as Hw
        by (by apply (shaped_words_nonempty true true)).
      destruct (Spec.words (String d s)) as [|w ws] eqn:E; [done|].
      rewrite join_cons_cons.
      change (String c "" ++ " " ++ Ingest.join " " (w :: ws))
        with (String c (String " " (Ingest.join " " (w :: ws)))).
      by rewrite IH.
    + destruct (Spec.words (String d s)) as [|w ws] eqn:E.
      { destruct (words_nonspace_head d s Hd) as (? & ? & E').
        rewrite E in E'. discriminate. }
      rewrite <- IH. cbn [Ingest.join]. by destruct ws.
Qed.

Lemma clean_lower_join s :
  lower (clean_str s) = Ingest.join " " (lower <$> Spec.words s).
Proof.
  pose proof (strip_sub_ws_shaped s) as Hs. fold (clean_str s) in Hs.
  rewrite <- (shaped_lower false false true) in Hs.
  pose proof (shaped_join _ _ Hs) as Hj.
  rewrite words_lower, words_clean_str in Hj.
  destruct (lower (clean_str s)) as [|d r] eqn:E.
  - assert (Spec.words s = []) as ->; [|reflexivity].
    rewrite <- words_clean_str.
    destruct (clean_str s); [reflexivity | discriminate].
  - cbn [shaped] in Hs. destruct (is_space d); [discriminate | by rewrite Hj].
Qed.

(** The two normalisations of the code give equal texts exactly for
    descriptions with the same words, the case of the letters apart. *)
Lemma same_description_iff a b :
  lower (clean_str a) = lower (clean_str b) ↔ Spec.same_description a b.
Proof.
  unfold Spec.same_description.
  rewrite !(list_fmap_ext Spec.small_word lower)
    by (intros; apply small_word_lower).
  split.
  - intros E. apply (f_equal Spec.words) in E.
    by rewrite !words_lower, !words_clean_str in E.
  - intros E. by rewrite !clean_lower_join, E.
Qed.

Section Pandas.

Variable Float : Type.
Variable to_datetime : list string -> nat -> option Timestamp.
Variable to_numeric : string -> option Float.
Variable round2 : Float -> Float.
Variable float_str : Float -> string.

Local Abbreviation out := (normalized to_datetime to_numeric round2 float_str).

(** X28: two records, of one table or of two, get the same key exactly
    when they have the same [date_iso], descriptions with the same words
    (the case of the letters and the layout of the whitespace apart) and
    the same text of the rounded amount; and the texts of two amounts are
    the same exactly when both amounts are undefined or both are the same
    float, provided the rendering of floats gives distinct floats distinct
    texts, none of them the text of NA.  The rendering is assumed never to
    hold the separator. *)
Theorem txn_key_same_record df1 df2 i1 i2 c1 c2 :
  (∀ x, has_char "|" (float_str x) = false) ->
  rows df1 !! i1 = Some c1 ->
  rows df2 !! i2 = Some c2 ->
  ∃ row1 row2,
    out df1 !! i1 = Some row1 ∧ out df2 !! i2 = Some row2
    ∧ (txn_key row1 = txn_key row2
       ↔ date_iso row1 = date_iso row2
         ∧ Spec.same_description (Spec.description_of df1 c1)
             (Spec.description_of df2 c2)
         ∧ amount_key round2 float_str (amount_num row1)
           = amount_key round2 float_str (amount_num row2))
    ∧ ((∀ x y, float_str x = float_str y -> x = y) ->
       (∀ x, float_str x ≠ NA_str) ->
       (amount_key round2 float_str (amount_num row1)
        = amount_key round2 float_str (amount_num row2)
        ↔ round2 <$> amount_num row1 = round2 <$> amount_num row2)).
Proof.
  intros Hbar H1 H2.
  exists (row_at to_datetime to_numeric round2 float_str df1 i1 c1),
         (row_at to_datetime to_numeric round2 float_str df2 i2 c2).
  split; [by apply normalized_lookup|]. split; [by apply normalized_lookup|].
  split.
  - unfold row_at. cbn [txn_key date_iso amount_num].
    assert (∀ a, has_char "|" (amount_key round2 float_str a) = false) as Hak.
    { intros [a|]; [apply Hbar | reflexivity]. }
    assert (∀ df c, lower (clean_str (optional_cell df "description" c))
                    = lower (clean_str (Spec.description_of df c))) as Hdesc.
    { intros df c. unfold optional_cell, Spec.description_of.
      destruct (has_col (columns df) "description"); [|reflexivity].
      by rewrite TransformClaims.clean_str_idempotent. }
    rewrite !Hdesc, <- same_description_iff. split.
    + intros E.
      by apply (key_parts_inj _ _ _ _ _ _ (iso_no_bar _) (iso_no_bar _)
                  (Hak _) (Hak _)) in E.
    + by intros (-> & -> & ->).
  - intros Hinj Hna. unfold amount_key.
    destruct (amount_num _) as [a1|], (amount_num _) as [a2|]; simpl.
    + split; [intros E; f_equal; by apply Hinj | by intros [= ->]].
    + split; [intros E; by apply Hna in E | done].
    + split; [intros E; symmetry in E; by apply Hna in E | done].
    + done.
Qed.

End Pandas.

End KeyExtras.

(** ** The labels of the two output frames *)

Module LabelExtras.
Import Text Transform.

Lemma elem_of_set_col cols c x : x ∈ set_col cols c ↔ x ∈ cols ∨ x = c.
Proof.
  unfold set_col, has_col. case_bool_decide as H.
  - split; [by left | intros [?| ->]; done].
  - rewrite elem_of_app, list_elem_of_singleton. tauto.
Qed.

Lemma NoDup_set_col cols c : NoDup cols -> NoDup (set_col cols c).
Proof.
  intros Hnd. unfold set_col, has_col. case_bool_decide as H; [done|].
  apply NoDup_app. split; [done|]. split; [|apply NoDup_singleton].
  intros x Hx Hc. apply list_elem_of_singleton in Hc as ->. done.
Qed.

Lemma elem_of_foldl_set_col l cols x :
  x ∈ foldl set_col cols l ↔ x ∈ cols ∨ x ∈ l.
Proof.
  revert cols. induction l as [|c l IH]; intros cols; simpl.
  - split; [by left | intros [?|H]; [done | by apply elem_of_nil in H]].
  - rewrite IH, elem_of_set_col, elem_of_cons. tauto.
Qed.

Lemma NoDup_foldl_set_col l cols :
  NoDup cols -> NoDup (foldl set_col cols l).
Proof.
  revert cols. induction l as [|c l IH]; intros cols H; simpl; [done|].
  by apply IH, NoDup_set_col.
Qed.

Lemma elem_of_clean_labels cols c :
  c ∈ clean_labels cols
  ↔ c ∈ cols ∧ String.prefix "issue_" c = false ∧ c ≠ "has_issue".
Proof.
  unfold clean_labels. cbv zeta.
  rewrite elem_of_app, !list_elem_of_filter. split.
  - intros [[Hc Hin]|[(_ & Hp & Hn) Hc]]; [|done].
    split; [done|].
    repeat (apply elem_of_cons in Hin as [-> |Hin]; [by split|]).
    by apply elem_of_nil in Hin.
  - intros (Hc & Hp & Hn).
    destruct (decide (c ∈ ["date_iso"; "description"; "amount_num";
                            "category"; "source"; "source_file"; "txn_key"]))
      as [Hin|Hout]; [by left|].
    right. split; [|done]. split; [|done].
    try rewrite list_elem_of_filter. tauto.
Qed.

Lemma elem_of_issue_labels cols c :
  c ∈ issue_labels cols ↔ c ∈ cols ∧ c ≠ "has_issue".
Proof.
  unfold issue_labels. cbv zeta.
  rewrite elem_of_app, !list_elem_of_filter. split.
  - intros [[Hc Hin]|[(_ & Hn) Hc]]; [|done].
    split; [done|].
    repeat (apply elem_of_cons in Hin as [-> |Hin]; [done|]).
    by apply elem_of_nil in Hin.
  - intros (Hc & Hn).
    destruct (decide (c ∈ ["date"; "date_iso"; "description"; "amount";
                            "amount_num"; "category"; "source"; "source_file";
                            "txn_key"; "issue_date_invalid";
                            "issue_amount_invalid"]))
      as [Hin|Hout]; [by left|].
    right. split; [|done]. split; [|done].
    try rewrite list_elem_of_filter. tauto.
Qed.

Lemma NoDup_filter_app (P : string -> Prop) `{∀ c, Decision (P c)}
    (Q : string -> Prop) `{∀ c, Decision (Q c)} (std cols : list string) :
  NoDup std -> NoDup cols ->
  (∀ c, Q c -> c ∉ filter P std) ->
  NoDup (filter P std ++ filter Q cols).
Proof.
  intros Hs Hc Hdis. apply NoDup_app. split; [by apply NoDup_filter|].
  split; [|by apply NoDup_filter].
  intros x Hx Hq. apply list_elem_of_filter in Hq as [Hq _].
  by apply (Hdis x).
Qed.

Lemma NoDup_clean_labels cols : NoDup cols -> NoDup (clean_labels cols).
Proof.
  intros Hnd. unfold clean_labels. cbv zeta.
  apply NoDup_filter_app; [|done|by intros c (? & _)].
  apply (bool_decide_unpack _). vm_compute. exact I.
Qed.

Lemma NoDup_issue_labels cols : NoDup cols -> NoDup (issue_labels cols).
Proof.
  intros Hnd. unfold issue_labels. cbv zeta.
  apply NoDup_filter_app; [|done|by intros c (? & _)].
  apply (bool_decide_unpack _). vm_compute. exact I.
Qed.

Lemma elem_of_out_columns df c :
  c ∈ out_columns df
  ↔ c ∈ columns df
    ∨ c ∈ ["description"; "category"; "source"; "date_iso"; "amount_num";
           "issue_date_invalid"; "issue_amount_invalid"; "has_issue";
           "txn_key"].
Proof. apply elem_of_foldl_set_col. Qed.

Lemma filter_head {A} (P : A -> Prop) `{∀ x, Decision (P x)}
    (front back : list A) :
  Forall P front -> filter P (front ++ back)%list = (front ++ filter P back)%list.
Proof.
  intros HP. rewrite filter_app. f_equal.
  induction HP as [|x l Hx HP IH]; [reflexivity|].
  rewrite filter_cons, decide_True by done. by f_equal.
Qed.

Lemma clean_labels_head cols :
  (∀ c, c ∈ ["date_iso"; "description"; "amount_num"; "category"; "source"]
        -> c ∈ cols) ->
  ∃ rest, clean_labels cols
          = (["date_iso"; "description"; "amount_num"; "category"; "source"]
             ++ rest)%list.
Proof.
  intros Hin. unfold clean_labels. cbv zeta.
  set (base := filter _ _).
  exists (filter (λ c, c ∈ cols) ["source_file"; "txn_key"]
          ++ filter (λ c, (c ∉ base) ∧ String.prefix "issue_" c = false
                          ∧ c ≠ "has_issue") cols)%list.
  rewrite app_assoc. f_equal. subst base.
  apply (filter_head (λ c, c ∈ cols)
           ["date_iso"; "description"; "amount_num"; "category"; "source"]).
  by apply Forall_forall.
Qed.

(** X10: the labels of the clean output are the input labels and the six
    derived ones (description, category, source, date_iso, amount_num,
    txn_key), without has_issue and without any label that starts with
    issue_; the labels of the issues output are the input labels, the six
    derived ones and the two flags, without has_issue.  The clean output
    starts with date_iso, description, amount_num, category, source, and
    distinct input labels give distinct output labels. *)
Theorem output_labels {Float} to_datetime (to_numeric : string -> option Float)
    round2 float_str df :
  has_col (columns df) "date" = true ->
  has_col (columns df) "amount" = true ->
  ∃ clean issues meta,
    transform_transactions to_datetime to_numeric round2 float_str df
    = inr (clean, issues, meta)
    ∧ (∀ c, c ∈ labels clean
            ↔ (c ∈ columns df
               ∨ c ∈ ["description"; "category"; "source"; "date_iso";
                      "amount_num"; "txn_key"])
              ∧ String.prefix "issue_" c = false ∧ c ≠ "has_issue")
    ∧ (∀ c, c ∈ labels issues
            ↔ (c ∈ columns df
               ∨ c ∈ ["description"; "category"; "source"; "date_iso";
                      "amount_num"; "txn_key"; "issue_date_invalid";
                      "issue_amount_invalid"])
              ∧ c ≠ "has_issue")
    ∧ (∃ rest, labels clean
               = (["date_iso"; "description"; "amount_num"; "category";
                   "source"] ++ rest)%list)
    ∧ (NoDup (columns df) -> NoDup (labels clean) ∧ NoDup (labels issues)).
Proof.
  intros Hd Ha. do 3 eexists.
  split; [apply TransformClaims.transform_accepts; assumption|].
  cbn [labels]. split; [|split; [|split]].
  - intros c. rewrite elem_of_clean_labels, elem_of_out_columns.
    split.
    + intros ([Hc|Hin] & Hp & Hn); (split; [|done]); [by left|].
      right.
      repeat (apply elem_of_cons in Hin as [-> |Hin];
              [first [discriminate | done
                     | repeat first [apply list_elem_of_here
                                    | apply list_elem_of_further]]|]).
      by apply elem_of_nil in Hin.
    + intros ([Hc|Hin] & Hp & Hn); (split; [|done]); [by left|].
      right.
      repeat (apply elem_of_cons in Hin as [-> |Hin];
              [repeat first [apply list_elem_of_here
                            | apply list_elem_of_further]|]).
      by apply elem_of_nil in Hin.
  - intros c. rewrite elem_of_issue_labels, elem_of_out_columns.
    split.
    + intros ([Hc|Hin] & Hn); (split; [|done]); [by left|].
      right.
      repeat (apply elem_of_cons in Hin as [-> |Hin];
              [first [done
                     | repeat first [apply list_elem_of_here
                                    | apply list_elem_of_further]]|]).
      by apply elem_of_nil in Hin.
    + intros ([Hc|Hin] & Hn); (split; [|done]); [by left|].
      right.
      repeat (apply elem_of_cons in Hin as [-> |Hin];
              [repeat first [apply list_elem_of_here
                            | apply list_elem_of_further]|]).
      by apply elem_of_nil in Hin.
  - apply clean_labels_head. intros c Hc. apply elem_of_out_columns. right.
    repeat (apply elem_of_cons in Hc as [-> |Hc];
            [repeat first [apply list_elem_of_here
                          | apply list_elem_of_further]|]).
    by apply elem_of_nil in Hc.
  - intros Hnd.
    assert (NoDup (out_columns df)) as Hout
      by by apply NoDup_foldl_set_col.
    split; [by apply NoDup_clean_labels | by apply NoDup_issue_labels].
Qed.

End LabelExtras.

(** ** The four views and the stored tables *)

Module StoreExtras.
Import Store Queries.

Lemma where_run_other {Real} id (before t after : list (Txn Real)) :
  id ≠ "" ->
  (∀ r, r ∈ before ∨ r ∈ after -> run_id r ≠ Some id) ->
  where_run (Some id) (before ++ t ++ after)
  = where_run (Some id) t.
Proof.
  intros Hid Hother. unfold where_run.
  apply String.eqb_neq in Hid. rewrite Hid.
  rewrite !filter_app.
  assert (∀ l : list (Txn Real), (∀ r, r ∈ l -> run_id r ≠ Some id) ->
            filter (λ r, run_id r = Some id) l = []) as Hnil.
  { intros l Hl. induction l as [|x l IH]; [reflexivity|].
    rewrite filter_cons, decide_False by (apply Hl; by left).
    apply IH. intros r Hr. apply Hl. by right. }
  rewrite (Hnil before), (Hnil after); [|by auto|by auto].
  by rewrite app_nil_r.
Qed.

Lemma strongly_sorted_distinct {A K} (R : relation A) (f : A -> K) l :
  StronglySorted R l -> NoDup (f <$> l) ->
  StronglySorted (λ a b, R a b ∧ f a ≠ f b) l.
Proof.
  induction 1 as [|x l Hl IH Hx]; intros Hnd; [constructor|].
  rewrite fmap_cons in Hnd. apply NoDup_cons in Hnd as [Hf Hnd].
  constructor; [by apply IH|].
  apply Forall_forall. intros y Hy. split.
  - by apply (proj1 (Forall_forall _ _) Hx).
  - intros E. apply Hf. rewrite E. apply list_elem_of_fmap. by exists y.
Qed.

Global Instance text_le_total : Total text_le.
Proof.
  intros [x|] [y|]; simpl; auto. apply String.le_total.
Qed.

Global Instance text_le_trans : Transitive text_le.
Proof.
  intros [x|] [y|] [z|]; simpl; auto; try tauto.
  apply (transitivity (R := String.le)).
Qed.

Section SQLite.

Variable Real : Type.
Variable zero : Real.
Variable add : Real -> Real -> Real.
Variable abs : Real -> Real.
Variable round2 : Real -> Real.
Variable leb : Real -> Real -> bool.
Variable sqlite_overflow : list (Txn Real) -> bool.
Variable own_net_total : string -> option Real.

Local Abbreviation results :=
  (get_query_results Real zero add abs round2 leb sqlite_overflow
     own_net_total).
Local Abbreviation kpi := (kpi_summary Real zero add abs round2 leb).
Local Abbreviation monthly := (monthly_trends Real zero add abs round2 leb).
Local Abbreviation summary :=
  (category_summary Real add abs round2 leb own_net_total).
Local Abbreviation by_source := (source_file_summary Real add round2).


Lemma view_rows {A K} `{EqDecision K} (R : relation A)
    `{∀ x y, Decision (R x y)} (key : Txn Real -> K) (mk : K -> A)
    (t : list (Txn Real)) (a : A) :
  a ∈ merge_sort R (mk <$> group_keys key t)
  ↔ ∃ r, r ∈ t ∧ a = mk (key r).
Proof.
  rewrite merge_sort_Permutation, list_elem_of_fmap. unfold group_keys.
  split.
  - intros (k & -> & Hk).
    apply elem_of_remove_dups, list_elem_of_fmap in Hk as (r & -> & Hr).
    by exists r.
  - intros (r & Hr & ->). exists (key r). split; [done|].
    apply elem_of_remove_dups, list_elem_of_fmap. by exists r.
Qed.

Lemma view_counts {A K} `{EqDecision K} (R : relation A)
    `{∀ x y, Decision (R x y)} (key : Txn Real -> K) (mk : K -> A)
    (count : A -> nat) (t : list (Txn Real)) :
  (∀ k, count (mk k) = length (group key k t)) ->
  sum_list (count <$> merge_sort R (mk <$> group_keys key t))
  = length t.
Proof.
  intros Hc.
  rewrite (QueriesClaims.sum_list_Permutation _
             (count <$> (mk <$> group_keys key t)))
    by (apply fmap_Permutation, merge_sort_Permutation).
  rewrite <- list_fmap_compose.
  rewrite (list_fmap_ext _ (λ k, length (filter (λ r, key r = k) t))
             (group_keys key t)) by (intros; apply Hc).
  apply QueriesClaims.group_sizes_sum; [apply NoDup_remove_dups|].
  intros r Hr. apply elem_of_remove_dups, list_elem_of_fmap. by exists r.
Qed.

(** X12: the four views account for the same rows: the row count of the
    KPI summary is the number of rows of the run, and so is the sum of the
    row counts of the monthly trends, of the category summary and of the
    source-file summary. *)
Theorem views_count_the_same_rows rid (table : list (Txn Real)) :
  let n := length (where_run rid table) in
  k_row_count (kpi rid table) = n
  ∧ sum_list (m_row_count <$> monthly rid table) = n
  ∧ (∀ labels, sum_list (c_row_count <$> summary labels rid table) = n)
  ∧ sum_list (s_row_count <$> by_source rid table) = n.
Proof.
  intros n. subst n. split; [reflexivity|].
  split; [|split]; [apply view_counts; reflexivity | |
                    apply view_counts; reflexivity].
  intros labels. unfold category_summary. cbv zeta.
  destruct (has_column labels "net_total"); apply view_counts; reflexivity.
Qed.

(** X13: the monthly trends are in strictly ascending order of the month
    text, the group of the rows without date first. *)
Theorem monthly_trends_ascending rid (table : list (Txn Real)) :
  StronglySorted
    (λ a b, text_le (year_month a) (year_month b)
            ∧ year_month a ≠ year_month b)
    (monthly rid table).
Proof.
  apply (strongly_sorted_distinct (by_year_month Real) year_month).
  - assert (Transitive (by_year_month Real)) as Htr
      by (intros a b c; unfold by_year_month; apply text_le_trans).
    assert (Total (by_year_month Real)) as Htot
      by (intros a b; unfold by_year_month; apply text_le_total).
    exact (StronglySorted_merge_sort (by_year_month Real) _).
  - unfold monthly_trends.
    rewrite merge_sort_Permutation, <- list_fmap_compose.
    rewrite (list_fmap_ext _ id (group_keys month_key _)) by done.
    rewrite list_fmap_id. apply NoDup_remove_dups.
Qed.

(** X14: the source-file summary has one row for each source file of the
    run and no other, each with the number of rows of that file, which is
    positive; the rows are in descending order of that number. *)
Theorem source_file_summary_rows rid (table : list (Txn Real)) :
  let t := where_run rid table in
  let view := by_source rid table in
  NoDup (s_source_file <$> view)
  ∧ (∀ f, f ∈ (s_source_file <$> view) ↔ ∃ r, r ∈ t ∧ source_file r = f)
  ∧ (∀ s, s ∈ view ->
       s_row_count s
       = length (filter (λ r, source_file r = s_source_file s) t)
       ∧ 0 < s_row_count s)
  ∧ StronglySorted (λ a b, s_row_count b <= s_row_count a) view.
Proof.
  clear zero abs leb.
  intros t view. subst view. unfold source_file_summary. fold t.
  split; [|split; [|split]].
  - rewrite merge_sort_Permutation, <- list_fmap_compose.
    rewrite (list_fmap_ext _ id (group_keys source_file t)) by done.
    rewrite list_fmap_id. apply NoDup_remove_dups.
  - intros f. rewrite list_elem_of_fmap. split.
    + intros (s & -> & Hs). apply view_rows in Hs as (r & Hr & ->).
      by exists r.
    + intros (r & Hr & <-).
      exists (source_row Real add round2 t (source_file r)).
      split; [reflexivity|]. apply view_rows. by exists r.
  - intros s Hs. apply view_rows in Hs as (r & Hr & ->).
    cbn [s_row_count source_row s_source_file]. split; [reflexivity|].
    unfold group. destruct (filter _ t) as [|x l] eqn:E; [|simpl; lia].
    assert (r ∈ filter (λ r0 : Txn Real, source_file r0 = source_file r) t)
      as Hin by (apply list_elem_of_filter; done).
    rewrite E in Hin. by apply elem_of_nil in Hin.
  - assert (Transitive (by_row_count_desc Real)) as Htr
      by (intros a b c; unfold by_row_count_desc; lia).
    assert (Total (by_row_count_desc Real)) as Htot
      by (intros a b; unfold by_row_count_desc; lia).
    exact (StronglySorted_merge_sort (by_row_count_desc Real) _).
Qed.

(** X15: when no stored row belongs to the run, the KPI summary is the one
    row with count zero and NULL totals, and the three grouped views are
    empty. *)
Theorem views_of_no_rows rid (table : list (Txn Real)) :
  where_run rid table = [] ->
  kpi rid table
  = {| k_row_count := 0; total_income := None; total_expenses := None;
       k_net_total := None |}
  ∧ monthly rid table = []
  ∧ (∀ labels, summary labels rid table = [])
  ∧ by_source rid table = [].
Proof.
  intros H. unfold kpi_summary, monthly_trends, category_summary,
    source_file_summary. rewrite H.
  split; [by cbv|]. split; [by cbv|]. split; [|by cbv].
  intros labels. cbv zeta. by destruct (has_column labels "net_total").
Qed.

(** X16: a dataset without expenses: when every row of the run has an
    amount above zero, the income total is the net total; the expenses are
    zero when the run has a row and NULL when it has none.  Zero is
    assumed neutral for the sum, the absolute value and the rounding. *)
Theorem revenue_only_kpis rid (table : list (Txn Real)) :
  add zero zero = zero -> abs zero = zero -> round2 zero = zero ->
  (∀ r, r ∈ where_run rid table ->
     ∃ v, amount_num r = Some v ∧ leb v zero = false ∧ leb zero v = true) ->
  total_income (kpi rid table) = k_net_total (kpi rid table)
  ∧ (where_run rid table ≠ [] ->
       total_expenses (kpi rid table) = Some zero)
  ∧ (where_run rid table = [] ->
       total_expenses (kpi rid table) = None).
Proof.
  intros Hadd Habs Hround Hpos. unfold kpi_summary. cbv zeta.
  cbn [total_income k_net_total total_expenses].
  set (t := where_run rid table) in *.
  assert (positive_part Real zero leb <$> (amount_num <$> t)
          = amount_num <$> t) as ->.
  { rewrite <- list_fmap_compose. apply list_fmap_ext. intros i r Hr.
    destruct (Hpos r) as (v & Hv & Hlt & _);
      [eapply list_elem_of_lookup_2, Hr|].
    cbn [compose]. rewrite Hv. unfold positive_part. by rewrite Hlt. }
  split; [reflexivity|].
  assert (negative_part Real zero leb <$> (amount_num <$> t)
          = replicate (length t) (Some zero)) as ->.
  { rewrite <- list_fmap_compose.
    clearbody t. induction t as [|r t IH]; [reflexivity|].
    rewrite fmap_cons. cbn [length replicate]. f_equal.
    - destruct (Hpos r) as (v & Hv & _ & Hle); [by left|].
      cbn [compose]. rewrite Hv. unfold negative_part. by rewrite Hle.
    - apply IH. intros r' Hr'. apply Hpos. by right. }
  assert (∀ n, SUM Real add (replicate (S n) (Some zero)) = Some zero) as Hsum.
  { intros n. unfold SUM. cbn [replicate foldl from_option].
    induction n as [|n IH]; [reflexivity|].
    cbn [replicate foldl from_option]. rewrite Hadd. exact IH. }
  split.
  - intros Hne. destruct t as [|r t]; [done|]. cbn [length].
    rewrite Hsum. unfold ABS, ROUND2. simpl. by rewrite Habs, Hround.
  - intros ->. reflexivity.
Qed.

(** X17: the views of a run do not see the rows stored under other run
    identifiers: adding such rows before or after leaves the result for
    the run unchanged. *)
Theorem run_isolation id cols (before t after : list (Txn Real))
    (db db' : Database Real) :
  id ≠ "" ->
  (∀ r, r ∈ before ∨ r ∈ after -> run_id r ≠ Some id) ->
  transactions db = Some (cols, (before ++ t ++ after)%list) ->
  transactions db' = Some (cols, t) ->
  results db (Some id) = results db' (Some id).
Proof.
  intros Hid Hother Hdb Hdb'. unfold get_query_results. rewrite Hdb, Hdb'.
  destruct (forallb _ _); [|reflexivity].
  rewrite (where_run_other id before t after Hid Hother).
  destruct (sqlite_overflow _); [reflexivity|].
  unfold kpi_summary, monthly_trends, category_summary, source_file_summary.
  by rewrite !(where_run_other id before t after Hid Hother).
Qed.

End SQLite.

End StoreExtras.

(** ** Loading a run and querying it *)

Module LoadExtras.
Import Transform Store.

Lemma digit_inj a b : a < 10 -> b < 10 -> digit a = digit b -> a = b.
Proof.
  intros Ha Hb H. apply (f_equal Ref.digit_val) in H.
  rewrite !RefFacts.digit_val_digit in H. apply (inj Some) in H.
  by rewrite !Nat.mod_small in H.
Qed.

Lemma digit_mod n : digit n = digit (n mod 10).
Proof. unfold digit. by rewrite Nat.Div0.mod_mod. Qed.

Lemma two_digits_inj a b :
  a < 100 -> b < 100 -> two_digits a = two_digits b -> a = b.
Proof.
  intros Ha Hb H.
  assert (digit (a / 10) = digit (b / 10)) as H1
    by (unfold two_digits in H; congruence).
  assert (digit a = digit b) as H2
    by (unfold two_digits in H; congruence).
  rewrite (digit_mod a), (digit_mod b) in H2.
  apply digit_inj in H1;
    [|apply Nat.Div0.div_lt_upper_bound; lia
     |apply Nat.Div0.div_lt_upper_bound; lia].
  apply digit_inj in H2; [|apply Nat.mod_upper_bound; lia
                          |apply Nat.mod_upper_bound; lia].
  rewrite (Nat.div_mod_eq a 10), (Nat.div_mod_eq b 10). congruence.
Qed.

Lemma four_digits_inj a b :
  a < 100 * 100 -> b < 100 * 100 -> four_digits a = four_digits b -> a = b.
Proof.
  intros Ha Hb H. unfold four_digits in H.
  assert (two_digits (a / 100) = two_digits (b / 100)
          ∧ two_digits a = two_digits b) as [H1 H2]
    by (unfold two_digits in *; cbv [String.append] in H; split; congruence).
  apply two_digits_inj in H1;
    [|apply Nat.Div0.div_lt_upper_bound; lia
     |apply Nat.Div0.div_lt_upper_bound; lia].
  assert (two_digits (a mod 100) = two_digits (b mod 100)) as H3.
  { unfold two_digits in *.
    rewrite (digit_mod (a mod 100)), (digit_mod (b mod 100)).
    rewrite (digit_mod (a mod 100 / 10)), (digit_mod (b mod 100 / 10)).
    rewrite (digit_mod a), (digit_mod b) in H2.
    rewrite (digit_mod (a / 10)), (digit_mod (b / 10)) in H2.
    replace (a mod 100 mod 10) with (a mod 10)
      by (change 100 with (10 * 10); by rewrite Nat.Div0.mod_mul_r,
            Nat.mul_comm, Nat.Div0.mod_add, Nat.Div0.mod_mod).
    replace (b mod 100 mod 10) with (b mod 10)
      by (change 100 with (10 * 10); by rewrite Nat.Div0.mod_mul_r,
            Nat.mul_comm, Nat.Div0.mod_add, Nat.Div0.mod_mod).
    replace (a mod 100 / 10 mod 10) with (a / 10 mod 10)
      by (change 100 with (10 * 10); rewrite Nat.Div0.mod_mul_r,
            (Nat.mul_comm 10), Nat.div_add by lia;
          rewrite (Nat.div_small (a mod 10))
            by (apply Nat.mod_upper_bound; lia);
          by rewrite Nat.add_0_l, Nat.Div0.mod_mod).
    replace (b mod 100 / 10 mod 10) with (b / 10 mod 10)
      by (change 100 with (10 * 10); rewrite Nat.Div0.mod_mul_r,
            (Nat.mul_comm 10), Nat.div_add by lia;
          rewrite (Nat.div_small (b mod 10))
            by (apply Nat.mod_upper_bound; lia);
          by rewrite Nat.add_0_l, Nat.Div0.mod_mod).
    exact H2. }
  apply two_digits_inj in H3; [|apply Nat.mod_upper_bound; lia
                                |apply Nat.mod_upper_bound; lia].
  rewrite (Nat.div_mod_eq a 100), (Nat.div_mod_eq b 100). congruence.
Qed.

(** X18: the run identifier has fifteen characters, digits but for the
    underscore in the middle, so it is never empty; the load time has
    twenty characters; and two clock readings with a four-digit year give
    the same identifier only when they are the same second. *)
Theorem run_id_shape (now : DateTime) :
  String.length (_make_run_id now) = 15
  ∧ String.get 8 (_make_run_id now) = Some "_"%char
  ∧ (∀ i c, String.get i (_make_run_id now) = Some c -> i ≠ 8 ->
       Ref.is_digit c = true)
  ∧ _make_run_id now ≠ ""
  ∧ String.length (_utc_now_iso now) = 20
  ∧ (∀ other, in_range now -> in_range other ->
       _make_run_id now = _make_run_id other -> now = other).
Proof.
  split; [reflexivity|]. split; [reflexivity|].
  split; [|split; [discriminate|split; [reflexivity|]]].
  - intros i c Hget Hi.
    unfold _make_run_id, four_digits, two_digits in Hget.
    cbv [String.append] in Hget.
    do 15 (destruct i as [|i];
           [first [done | injection Hget as <-;
                          apply RefFacts.is_digit_digit]|]).
    discriminate.
  - intros other (Hy & Hm & Hd & Hh & Hmi & Hs) (Hy' & Hm' & Hd' & Hh' & Hmi' & Hs') H.
    unfold _make_run_id in H.
    assert (∀ a b s t, String.length a = String.length b ->
              a ++ s = b ++ t -> a = b ∧ s = t) as Hsplit.
    { induction a as [|x a IH]; intros [|y b] s t Hl E; try discriminate.
      - done.
      - simpl in Hl.
        change (String x (a ++ s) = String y (b ++ t)) in E.
        injection E as -> E.
        destruct (IH b s t ltac:(lia) E) as [-> ->]. done. }
    apply Hsplit in H as [Hyear H]; [|reflexivity].
    apply Hsplit in H as [Hmonth H]; [|reflexivity].
    apply Hsplit in H as [Hday H]; [|reflexivity].
    apply (Hsplit "_" "_") in H as [_ H]; [|reflexivity].
    apply Hsplit in H as [Hhour H]; [|reflexivity].
    apply Hsplit in H as [Hminute Hsecond]; [|reflexivity].
    apply four_digits_inj in Hyear; [|lia|lia].
    apply two_digits_inj in Hmonth; [|lia|lia].
    apply two_digits_inj in Hday; [|lia|lia].
    apply two_digits_inj in Hhour; [|lia|lia].
    apply two_digits_inj in Hminute; [|lia|lia].
    apply two_digits_inj in Hsecond; [|lia|lia].
    destruct now, other. simpl in *. congruence.
Qed.

Section SQLite.

Variable Real : Type.

(** X19: [load_to_sqlite] raises the [ValueError] of its mode check
    exactly for a mode other than replace and append, and it returns only
    for one of these two modes. *)
Theorem load_mode_check (clean issues : Table Real) path mode t1 t2
    (db : Database Real) :
  (load_to_sqlite clean issues path mode t1 t2 db
   = inl (ValueError "mode must be 'replace' or 'append'")
   ↔ mode ≠ "replace" ∧ mode ≠ "append")
  ∧ (∀ res, load_to_sqlite clean issues path mode t1 t2 db = inr res ->
       mode = "replace" ∨ mode = "append").
Proof.
  unfold load_to_sqlite.
  destruct (String.eqb_spec mode "replace") as [->|Hr].
  { simpl. split; [split; [done | by intros [? _]] | by left]. }
  destruct (String.eqb_spec mode "append") as [->|Ha].
  { simpl. split; [split; [done | by intros [_ ?]] | by right]. }
  simpl. split; [done | by intros ? ?].
Qed.

(** X20: a load in replace mode, whatever the database held: the stored
    table transactions is the clean frame with its two audit columns, row
    for row, and the table of issues is the issues frame; every row
    carries the run identifier and the load time of the metadata; the
    returned counts are the lengths of the two frames and are the counts
    logged under the run identifier; the log entries of other runs stay
    as they were. *)
Theorem load_replace_stores_the_frames (clean issues : Table Real) path
    t1 t2 (db : Database Real) :
  ∃ meta clean_out issues_out db',
    load_to_sqlite clean issues path "replace" t1 t2 db
    = inr (meta, clean_out, issues_out, db')
    ∧ run_id meta = _make_run_id t1
    ∧ loaded_at_utc meta = _utc_now_iso t2
    ∧ rows_loaded_clean meta = Z.of_nat (length (records clean))
    ∧ rows_loaded_issues meta = Z.of_nat (length (records issues))
    ∧ base <$> a_records clean_out = records clean
    ∧ base <$> a_records issues_out = records issues
    ∧ (∀ a, a ∈ a_records clean_out ∨ a ∈ a_records issues_out ->
         au_run_id a = run_id meta ∧ au_loaded_at_utc a = loaded_at_utc meta)
    ∧ (∀ c, c ∈ a_labels clean_out
            ↔ c ∈ labels clean ∨ c = "run_id" ∨ c = "loaded_at_utc")
    ∧ transactions db'
      = Some (a_labels clean_out,
              Queries.to_sql (run_id meta) <$> records clean)
    ∧ data_issues db' = Some (a_labels issues_out, a_records issues_out)
    ∧ (∃ log, pipeline_runs db' = Some log
         ∧ log !! run_id meta
           = Some {| log_loaded_at_utc := loaded_at_utc meta;
                     log_rows_clean := rows_loaded_clean meta;
                     log_rows_issues := rows_loaded_issues meta |}
         ∧ ∀ other, other ≠ run_id meta ->
             log !! other = default ∅ (pipeline_runs db) !! other).
Proof.
  do 4 eexists. split; [reflexivity|].
  cbn [run_id loaded_at_utc rows_loaded_clean rows_loaded_issues
       _add_audit_columns a_records a_labels transactions data_issues
       pipeline_runs to_sql_table String.eqb Ascii.eqb Bool.eqb].
  rewrite !length_fmap.
  split; [reflexivity|]. split; [reflexivity|]. split; [reflexivity|].
  split; [reflexivity|].
  split; [by rewrite <- list_fmap_compose, list_fmap_id|].
  split; [by rewrite <- list_fmap_compose, list_fmap_id|].
  split; [|split; [|split; [|split]]].
  - intros a [Ha|Ha]; apply list_elem_of_fmap in Ha as (r & -> & _); done.
  - intros c. rewrite !LabelExtras.elem_of_set_col. tauto.
  - by rewrite <- list_fmap_compose.
  - reflexivity.
  - eexists. split; [reflexivity|]. split.
    + apply lookup_insert_eq.
    + intros other Ho. by apply lookup_insert_ne.
Qed.

Variable zero : Real.
Variable add : Real -> Real -> Real.
Variable abs : Real -> Real.
Variable round2 : Real -> Real.
Variable leb : Real -> Real -> bool.
Variable sqlite_overflow : list (Queries.Txn Real) -> bool.
Variable own_net_total : string -> option Real.
Variable to_datetime : list string -> nat -> option Timestamp.
Variable to_numeric : string -> option Real.
Variable float_str : Real -> string.

Lemma has_column_elem labels c :
  c ∈ labels -> Queries.has_column labels c = true.
Proof.
  intros Hc. unfold Queries.has_column. apply existsb_exists.
  exists c. split; [by apply list_elem_of_In | apply String.eqb_refl].
Qed.

Lemma where_run_loaded id (l : list (Transform.Row Real)) :
  id ≠ "" ->
  Queries.where_run (Some id) (Queries.to_sql id <$> l)
  = Queries.to_sql id <$> l.
Proof.
  intros Hid. unfold Queries.where_run.
  apply String.eqb_neq in Hid. rewrite Hid.
  induction l as [|r l IH]; [reflexivity|].
  rewrite fmap_cons, filter_cons, decide_True by reflexivity.
  by rewrite IH.
Qed.

Lemma load_replace_fields (clean issues : Table Real) path t1 t2
    (db db' : Database Real) lmeta clean_out issues_out :
  load_to_sqlite clean issues path "replace" t1 t2 db
  = inr (lmeta, clean_out, issues_out, db') ->
  run_id lmeta = _make_run_id t1
  ∧ rows_loaded_clean lmeta = Z.of_nat (length (records clean))
  ∧ rows_loaded_issues lmeta = Z.of_nat (length (records issues))
  ∧ transactions db'
    = Some (set_col (set_col (labels clean) "run_id") "loaded_at_utc",
            Queries.to_sql (_make_run_id t1) <$> records clean).
Proof.
  intros H. unfold load_to_sqlite in H.
  cbn [String.eqb Ascii.eqb Bool.eqb orb negb] in H. cbv zeta in H.
  match type of H with
  | inr (?m, _, _, ?d) = _ =>
      assert (lmeta = m) as -> by congruence;
      assert (db' = d) as -> by congruence
  end.
  cbn [run_id rows_loaded_clean rows_loaded_issues _add_audit_columns
       a_records a_labels transactions to_sql_table String.eqb Ascii.eqb
       Bool.eqb].
  rewrite !length_fmap, <- list_fmap_compose. done.
Qed.

Lemma transform_fields df clean issues tmeta :
  transform_transactions to_datetime to_numeric round2 float_str df
  = inr (clean, issues, tmeta) ->
  has_col (columns df) "date" = true
  ∧ has_col (columns df) "amount" = true
  ∧ labels clean = clean_labels (out_columns df)
  ∧ rows_out_clean tmeta = Z.of_nat (length (records clean))
  ∧ rows_out_issues tmeta = Z.of_nat (length (records issues)).
Proof.
  intros Ht.
  assert (has_col (columns df) "date" = true
          ∧ has_col (columns df) "amount" = true) as [Hd Ha].
  { unfold transform_transactions in Ht.
    destruct (has_col (columns df) "date"); [|discriminate].
    destruct (has_col (columns df) "amount"); [done | discriminate]. }
  rewrite (TransformClaims.transform_accepts Real to_datetime to_numeric
             round2 float_str df Hd Ha) in Ht.
  injection Ht as <- <- <-. done.
Qed.

(** X21: the steps of [run_pipeline] after the ingest.  When the transform
    of a table and the load of its output in replace mode return, the
    counts of the load are those of the transform; the query for the run
    identifier of the load never raises the error of a missing table; when
    the query returns, the row count of the KPI summary is the number of
    clean rows; and the query returns when the table has the column
    source_file and the arithmetic of SQLite does not overflow on the
    stored rows. *)
Theorem transform_load_query df path t1 t2 (db db' : Database Real)
    clean issues tmeta lmeta clean_out issues_out :
  transform_transactions to_datetime to_numeric round2 float_str df
  = inr (clean, issues, tmeta) ->
  load_to_sqlite clean issues path "replace" t1 t2 db
  = inr (lmeta, clean_out, issues_out, db') ->
  let result :=
    get_query_results Real zero add abs round2 leb sqlite_overflow
      own_net_total db' (Some (run_id lmeta)) in
  rows_loaded_clean lmeta = rows_out_clean tmeta
  ∧ rows_loaded_issues lmeta = rows_out_issues tmeta
  ∧ (∀ msg, result ≠ inl (RuntimeError msg))
  ∧ (∀ q, result = inr q ->
       k_row_count (r_kpi_summary q) = length (records clean)
       ∧ Z.of_nat (k_row_count (r_kpi_summary q)) = rows_out_clean tmeta)
  ∧ (has_col (columns df) "source_file" = true ->
     sqlite_overflow (Queries.to_sql (run_id lmeta) <$> records clean)
     = false ->
     ∃ q, result = inr q).
Proof.
  intros Ht Hl.
  destruct (transform_fields _ _ _ _ Ht) as (Hd & Ha & Hlab & Hn & Hm).
  destruct (load_replace_fields _ _ _ _ _ _ _ _ _ _ Hl)
    as (Hrun & Hc & Hi & Hdb).
  cbv zeta. rewrite Hrun, Hc, Hi, Hn, Hm.
  assert (_make_run_id t1 ≠ "") as Hid by discriminate.
  unfold get_query_results. rewrite Hdb.
  rewrite (where_run_loaded _ _ Hid).
  split; [reflexivity|]. split; [reflexivity|]. split; [|split].
  - intros msg. destruct (forallb _ _); [destruct (sqlite_overflow _)|];
      discriminate.
  - intros q Hq.
    destruct (forallb _ _); [destruct (sqlite_overflow _)|];
      try discriminate.
    injection Hq as <-. cbn [r_kpi_summary]. unfold kpi_summary.
    cbn [k_row_count].
    rewrite (where_run_loaded _ _ Hid), !length_fmap. done.
  - intros Hs Hov.
    assert (∀ c, c ∈ view_columns (Some (_make_run_id t1)) ->
              c ∈ set_col (set_col (labels clean) "run_id") "loaded_at_utc")
      as Hcols.
    { unfold view_columns. apply String.eqb_neq in Hid. rewrite Hid.
      intros c Hc'.
      rewrite !LabelExtras.elem_of_set_col, Hlab,
        LabelExtras.elem_of_clean_labels, LabelExtras.elem_of_out_columns.
      apply bool_decide_eq_true in Hs.
      repeat (apply elem_of_cons in Hc' as [-> |Hc']).
      - left. left. split; [|done]. right.
        repeat first [apply list_elem_of_here | apply list_elem_of_further].
      - left. left. split; [|done]. right.
        repeat first [apply list_elem_of_here | apply list_elem_of_further].
      - left. left. split; [|done]. right.
        repeat first [apply list_elem_of_here | apply list_elem_of_further].
      - left. left. split; [|done]. by left.
      - left. by right.
      - by apply elem_of_nil in Hc'. }
    rewrite (proj2 (forallb_forall _ _)).
    + rewrite Hov. by eexists.
    + intros c Hc'. apply has_column_elem, Hcols. by apply list_elem_of_In.
Qed.

End SQLite.

End LoadExtras.

(** ** Column labels on the way in *)

Module IngestExtras.
Import Text TextFacts Transform Ingest.

Lemma rstrip_cons c s :
  rstrip (String c s)
  = match rstrip s with
    | EmptyString => if is_space c then EmptyString else String c EmptyString
    | r' => String c r'
    end.
Proof. reflexivity. Qed.

Lemma rstrip_idempotent s : rstrip (rstrip s) = rstrip s.
Proof.
  induction s as [|c s IH]; [reflexivity|].
  rewrite rstrip_cons. destruct (rstrip s) as [|c' r'] eqn:Hr.
  - destruct (is_space c) eqn:Hc; [reflexivity|]. simpl. by rewrite Hc.
  - rewrite rstrip_cons, IH. reflexivity.
Qed.

Lemma lstrip_head s :
  lstrip s = "" ∨ ∃ c r, lstrip s = String c r ∧ is_space c = false.
Proof.
  induction s as [|c s IH]; [by left|].
  cbn [lstrip]. destruct (is_space c) eqn:Hc; [exact IH|].
  right. by exists c, s.
Qed.

(** The stripped text is empty or starts with a character that is not
    whitespace, and stripping it on the right changes nothing. *)
Lemma strip_ends s :
  (strip s = "" ∨ ∃ c r, strip s = String c r ∧ is_space c = false)
  ∧ rstrip (strip s) = strip s.
Proof.
  unfold strip. split; [|apply rstrip_idempotent].
  destruct (lstrip_head s) as [->|(c & r & -> & Hc)]; [by left|].
  right. rewrite (rstrip_nonspace_head _ _ Hc). by exists c, (rstrip r).
Qed.

Lemma strip_fixed t :
  (t = "" ∨ ∃ c r, t = String c r ∧ is_space c = false) ->
  rstrip t = t -> strip t = t.
Proof.
  intros [->|(c & r & -> & Hc)] Hr; [reflexivity|].
  unfold strip. cbn [lstrip]. by rewrite Hc.
Qed.

Lemma strip_idempotent s : strip (strip s) = strip s.
Proof. destruct (strip_ends s). by apply strip_fixed. Qed.

Lemma rstrip_replace_space t :
  rstrip t = t -> rstrip (replace_space t) = replace_space t.
Proof.
  induction t as [|c t IH]; [reflexivity|].
  cbn [replace_space]. rewrite !rstrip_cons.
  destruct (rstrip t) as [|c' r'] eqn:Hr.
  - destruct (is_space c) eqn:Hc; [discriminate|].
    intros [= <-]. cbn [replace_space rstrip].
    destruct (Ascii.eqb_spec c " ") as [->|_]; [discriminate|].
    by rewrite Hc.
  - intros [= <-]. rewrite IH by reflexivity.
    cbn [replace_space]. reflexivity.
Qed.

Lemma lower_char_replace c :
  lower_char (if Ascii.eqb c " " then "_"%char else c)
  = if Ascii.eqb (lower_char c) " " then "_"%char else lower_char c.
Proof. destruct c as [[] [] [] [] [] [] [] []]; reflexivity. Qed.

Lemma lower_replace_space s :
  lower (replace_space s) = replace_space (lower s).
Proof.
  induction s as [|c s IH]; [reflexivity|].
  cbn [lower replace_space]. by rewrite lower_char_replace, IH.
Qed.

Lemma replace_space_idempotent s :
  replace_space (replace_space s) = replace_space s.
Proof.
  induction s as [|c s IH]; [reflexivity|].
  cbn [replace_space]. rewrite IH. f_equal.
  destruct (Ascii.eqb_spec c " ") as [->|Hc]; [reflexivity|].
  by apply Ascii.eqb_neq in Hc as ->.
Qed.

Lemma has_space_replace_space s : has_char " " (replace_space s) = false.
Proof.
  induction s as [|c s IH]; [reflexivity|].
  cbn [replace_space has_char]. rewrite IH, orb_false_r.
  destruct (Ascii.eqb_spec c " ") as [->|Hc]; [reflexivity|].
  by apply Ascii.eqb_neq.
Qed.

Lemma strip_standardize_label c :
  strip (standardize_label c) = standardize_label c.
Proof.
  unfold standardize_label. destruct (strip_ends c) as [Hhead Htail].
  apply strip_fixed.
  - destruct Hhead as [->|(x & r & -> & Hx)]; [by left|].
    right. cbn [lower replace_space]. do 2 eexists. split; [reflexivity|].
    pose proof (TransformExtras.is_space_lower_char x) as Hl.
    rewrite Hx in Hl.
    destruct (Ascii.eqb_spec (lower_char x) " ") as [E|_]; [|exact Hl].
    rewrite E in Hl. discriminate.
  - apply rstrip_replace_space.
    by rewrite TransformExtras.lower_rstrip, Htail.
Qed.

(** X22: a standardised label holds no space, is in lower case and has
    no whitespace at its ends, and standardising it again changes nothing;
    so a header that is already standard keeps its name. *)
Theorem standardize_columns_normal_form cols :
  length (_standardize_columns cols) = length cols
  ∧ _standardize_columns (_standardize_columns cols)
    = _standardize_columns cols
  ∧ ∀ i c, cols !! i = Some c ->
      ∃ l, _standardize_columns cols !! i = Some l
           ∧ has_char " " l = false
           ∧ lower l = l
           ∧ strip l = l.
Proof.
  assert (∀ c, standardize_label (standardize_label c) = standardize_label c)
    as Hidem.
  { intros c. unfold standardize_label at 1.
    rewrite strip_standardize_label. unfold standardize_label.
    by rewrite lower_replace_space, replace_space_idempotent,
      TransformExtras.lower_idempotent. }
  unfold _standardize_columns. split; [apply length_fmap|]. split.
  - rewrite <- list_fmap_compose. apply list_fmap_ext. intros i c _.
    apply Hidem.
  - intros i c Hc. exists (standardize_label c).
    rewrite list_lookup_fmap, Hc. split; [reflexivity|].
    split; [apply has_space_replace_space|]. split.
    + unfold standardize_label.
      by rewrite lower_replace_space, TransformExtras.lower_idempotent.
    + apply strip_standardize_label.
Qed.

(** X23: [_find_first_existing_column] returns the first alias, in the
    order of the list, that is a column of the frame, and nothing exactly
    when no alias is a column. *)
Theorem find_first_existing_column_first df_cols aliases :
  (_find_first_existing_column df_cols aliases = None
   ↔ ∀ a, a ∈ aliases -> a ∉ df_cols)
  ∧ ∀ a, _find_first_existing_column df_cols aliases = Some a
         ↔ ∃ i, aliases !! i = Some a ∧ a ∈ df_cols
                ∧ ∀ j b, j < i -> aliases !! j = Some b -> b ∉ df_cols.
Proof.
  induction aliases as [|x l [IHn IHs]].
  { split; [split; [intros _ a Ha; by apply elem_of_nil in Ha | done]|].
    intros a. split; [done | by intros (i & ? & _)]. }
  cbn [_find_first_existing_column]. case_bool_decide as Hx.
  - split.
    + split; [done|]. intros H. destruct (H x); [by left | done].
    + intros a. split.
      * intros [= <-]. exists 0. split; [done|]. split; [done|].
        intros j b Hj. lia.
      * intros ([|i] & Hi & Ha & Hfirst).
        -- simpl in Hi. by injection Hi as ->.
        -- destruct (Hfirst 0 x); [lia | done | done].
  - split.
    + rewrite IHn. split.
      * intros H a [-> |Ha]%elem_of_cons; [done | by apply H].
      * intros H a Ha. apply H. by right.
    + intros a. rewrite IHs. split.
      * intros (i & Hi & Ha & Hfirst). exists (S i).
        split; [done|]. split; [done|].
        intros [|j] b Hj Hb; simpl in Hb.
        -- by injection Hb as <-.
        -- apply (Hfirst j); [lia | done].
      * intros ([|i] & Hi & Ha & Hfirst); simpl in Hi.
        -- injection Hi as ->. done.
        -- exists i. split; [done|]. split; [done|].
           intros j b Hj Hb. apply (Hfirst (S j)); [lia | done].
Qed.

(** X24: the validation that ends the ingest and the check that opens
    the transform agree: a frame passes the first exactly when the second
    accepts it, and the first fails exactly when a required column is
    missing. *)
Theorem ingest_validation_matches_transform {Float} to_datetime
    (to_numeric : string -> option Float) round2 float_str df :
  (validate_required (columns df) = inr tt
   ↔ ∃ res, transform_transactions to_datetime to_numeric round2 float_str df
            = inr res)
  ∧ ((∃ msg, validate_required (columns df) = inl (UserFacingError msg))
     ↔ ∃ msg, transform_transactions to_datetime to_numeric round2
                float_str df = inl (ValueError msg))
  ∧ (∀ c, c ∈ missing_required (columns df)
          ↔ (c = "date" ∨ c = "amount") ∧ c ∉ columns df).
Proof.
  assert (∀ c, c ∈ missing_required (columns df)
               ↔ (c = "date" ∨ c = "amount") ∧ c ∉ columns df) as Hmiss.
  { intros c. unfold missing_required, CANONICAL_REQUIRED.
    rewrite list_elem_of_filter, !elem_of_cons, elem_of_nil. tauto. }
  assert (validate_required (columns df) = inr tt
          ↔ "date" ∈ columns df ∧ "amount" ∈ columns df) as Hok.
  { unfold validate_required.
    destruct (missing_required (columns df)) as [|m rest] eqn:E.
    - split; [intros _|done].
      split; apply dec_stable; intros Hn.
      + apply (proj1 (elem_of_nil "date")), Hmiss. auto.
      + apply (proj1 (elem_of_nil "amount")), Hmiss. auto.
    - split; [done|]. intros [Hd Ha].
      assert (m ∈ m :: rest) as Hin by (by left).
      apply Hmiss in Hin as [[-> | ->] Hn]; done. }
  assert ((∃ msg, validate_required (columns df) = inl (UserFacingError msg))
          ↔ ¬ ("date" ∈ columns df ∧ "amount" ∈ columns df)) as Hbad.
  { rewrite <- Hok. destruct (validate_required (columns df)) as [[msg]|[]].
    - split; [done | by eexists].
    - split; [by intros [? ?] | done]. }
  split; [|split; [|exact Hmiss]].
  - rewrite Hok. unfold transform_transactions, has_col.
    do 2 case_bool_decide; simpl; split;
      first [by intros [? ?] | by eexists | tauto | idtac].
  - rewrite Hbad. unfold transform_transactions, has_col.
    do 2 case_bool_decide; simpl; split;
      first [by intros [? ?] | by eexists | tauto | idtac].
Qed.

End IngestExtras.

(** ** Sheet names and column widths *)

Module ReportExtras.
Import Text TextFacts Report.

Lemma length_str_take n s : String.length (str_take n s) <= n.
Proof.
  revert s. induction n as [|n IH]; intros [|c s]; simpl; try lia.
  specialize (IH s). lia.
Qed.

Lemma str_take_all n s : String.length s <= n -> str_take n s = s.
Proof.
  revert s. induction n as [|n IH]; intros [|c s]; simpl; try done; try lia.
  intros H. f_equal. apply IH. lia.
Qed.

Lemma str_take_app s t : str_take (String.length s) (s ++ t) = s.
Proof.
  induction s as [|c s IH]; [by destruct t|].
  change (String c s ++ t) with (String c (s ++ t)). simpl. by rewrite IH.
Qed.

Lemma length_str_app s t :
  String.length (s ++ t) = String.length s + String.length t.
Proof.
  induction s as [|c s IH]; [reflexivity|].
  change (String c s ++ t) with (String c (s ++ t)). simpl. by rewrite IH.
Qed.

Lemma rstrip_app_nonblank s t :
  rstrip t ≠ "" -> rstrip (s ++ t) = s ++ rstrip t.
Proof.
  intros Ht. induction s as [|c s IH]; [reflexivity|].
  change (String c s ++ t) with (String c (s ++ t)).
  change (String c s ++ rstrip t) with (String c (s ++ rstrip t)).
  rewrite IngestExtras.rstrip_cons, IH.
  destruct (s ++ rstrip t) as [|c' r] eqn:E; [|reflexivity].
  destruct s; [|discriminate].
  change (rstrip t = "") in E. done.
Qed.

(** X25: a sheet name has at most 31 characters and is a prefix of the
    stripped name; a name of at most 31 characters without whitespace at
    its ends is kept as it is, and so are the six names of the report,
    which are pairwise distinct. *)
Theorem safe_sheet_name_bound name :
  String.length (_safe_sheet_name name) <= 31
  ∧ String.prefix (_safe_sheet_name name) (strip name) = true
  ∧ (strip name = name -> String.length name <= 31 ->
       _safe_sheet_name name = name)
  ∧ Forall (λ n, _safe_sheet_name n = n) sheet_names
  ∧ NoDup sheet_names.
Proof.
  unfold _safe_sheet_name. split; [apply length_str_take|].
  split; [|split; [|split]].
  - generalize 31. generalize (strip name). intros s n. revert s.
    induction n as [|n IH]; intros [|c s]; simpl; try done.
    rewrite IH. by destruct (ascii_dec c c).
  - intros -> Hlen. by apply str_take_all.
  - unfold sheet_names. repeat constructor.
  - apply (bool_decide_unpack _). vm_compute. exact I.
Qed.

(** X26: applying [_safe_sheet_name] twice is not always applying it
    once: for a name made of 30 characters that are not whitespace, a
    space and further text, the first application ends with the space and
    the second removes it.  In the loop of [generate_excel_report] the
    sheet is written under the name cut twice and looked up under the name
    cut once: the two titles differ for such a name, and they coincide for
    each of the six sheet names of the report. *)
Theorem safe_sheet_name_not_idempotent s c t :
  String.length s = 30 ->
  str_all (λ x, negb (is_space x)) s = true ->
  is_space c = false ->
  _safe_sheet_name (s ++ " " ++ String c t) = s ++ " "
  ∧ _safe_sheet_name (_safe_sheet_name (s ++ " " ++ String c t)) = s
  ∧ _safe_sheet_name (_safe_sheet_name (s ++ " " ++ String c t))
    ≠ _safe_sheet_name (s ++ " " ++ String c t)
  ∧ loop_titles (s ++ " " ++ String c t) = (s, s ++ " ")
  ∧ (loop_titles (s ++ " " ++ String c t)).1
    ≠ (loop_titles (s ++ " " ++ String c t)).2
  ∧ Forall (λ n, loop_titles n = (n, n)) sheet_names.
Proof.
  intros Hlen Hs Hc.
  assert (lstrip s = s ∧ rstrip s = s ∧ s ≠ "") as (Hl & Hr & Hne).
  { split; [|split].
    - destruct s as [|x s]; [reflexivity|]. simpl in *.
      apply andb_true_iff in Hs as [Hx _]. apply negb_true_iff in Hx.
      by rewrite Hx.
    - clear Hlen. induction s as [|x s IH]; [reflexivity|].
      simpl in Hs. apply andb_true_iff in Hs as [Hx Hs].
      apply negb_true_iff in Hx.
      rewrite (rstrip_nonspace_head _ _ Hx), (IH Hs). reflexivity.
    - intros ->. discriminate. }
  assert (∀ u, lstrip (s ++ u) = s ++ u) as Hlu.
  { intros u. destruct s as [|x s]; [done|].
    change (String x s ++ u) with (String x (s ++ u)). simpl in *.
    apply andb_true_iff in Hs as [Hx _]. apply negb_true_iff in Hx.
    by rewrite Hx. }
  assert (_safe_sheet_name (s ++ " " ++ String c t) = s ++ " ") as H1.
  { unfold _safe_sheet_name, strip. rewrite Hlu.
    assert (rstrip (" " ++ String c t) = " " ++ String c (rstrip t)) as Ht.
    { change (" " ++ String c t) with (String " " (String c t)).
      rewrite IngestExtras.rstrip_cons, (rstrip_nonspace_head _ _ Hc).
      reflexivity. }
    rewrite rstrip_app_nonblank by (rewrite Ht; discriminate).
    rewrite Ht, <- str_app_assoc.
    replace 31 with (String.length (s ++ " ")).
    - apply str_take_app.
    - rewrite length_str_app, Hlen. reflexivity. }
  assert (_safe_sheet_name (s ++ " ") = s) as H2.
  { unfold _safe_sheet_name, strip. rewrite Hlu.
    assert (rstrip (s ++ " ") = s) as ->.
    { clear Hlen Hl Hlu H1. induction s as [|x s IH]; [done|].
      change (String x s ++ " ") with (String x (s ++ " ")).
      simpl in Hs. apply andb_true_iff in Hs as [Hx Hs].
      apply negb_true_iff in Hx.
      rewrite (rstrip_nonspace_head _ _ Hx).
      destruct s as [|y s]; [reflexivity|].
      rewrite IH; [reflexivity | done | | done].
      by rewrite (rstrip_nonspace_head _ _ Hx) in Hr; injection Hr. }
    apply str_take_all. lia. }
  assert (s ≠ s ++ " ") as Hdiff.
  { intros E. apply (f_equal String.length) in E.
    rewrite length_str_app in E. simpl in E. lia. }
  unfold loop_titles, _write_df. cbv zeta.
  split; [exact H1|]. rewrite H1, H2. split; [reflexivity|].
  split; [exact Hdiff|]. split; [reflexivity|]. split; [exact Hdiff|].
  unfold sheet_names. repeat constructor.
Qed.

(** X27: the width of a column is at most 45 and at least 2; it is 45 or
    leaves two characters beyond the header and beyond each of the first
    fifty cells; the cells after the fiftieth do not count; and an
    uncapped width is that of the header or of one of these cells. *)
Theorem column_width_bounds header cells :
  2 <= column_width header cells <= 45
  ∧ (column_width header cells = 45
     ∨ String.length header + 2 <= column_width header cells
       ∧ ∀ i c, i < 50 -> cells !! i = Some c ->
           String.length c + 2 <= column_width header cells)
  ∧ column_width header cells = column_width header (take 50 cells)
  ∧ (column_width header cells = 45
     ∨ column_width header cells = String.length header + 2
     ∨ ∃ i c, i < 50 ∧ cells !! i = Some c
              ∧ column_width header cells = String.length c + 2).
Proof.
  unfold column_width. cbv zeta.
  rewrite take_take, Nat.min_id.
  set (h := String.length header).
  assert (∀ l : list nat,
            match l with [] => h | _ => foldr Nat.max 0 (h :: l) end
            = foldr Nat.max h l) as Hfold.
  { intros l. destruct l as [|x l]; [reflexivity|].
    generalize (x :: l). intros k. simpl.
    induction k as [|y k IH]; simpl; lia. }
  rewrite Hfold. clear Hfold.
  set (sample := String.length <$> take 50 cells).
  assert (h <= foldr Nat.max h sample) as Hh.
  { generalize sample. intros l. induction l; simpl; lia. }
  assert (∀ n, n ∈ sample -> n <= foldr Nat.max h sample) as Hmax.
  { generalize sample. intros l n Hn.
    induction l as [|x l IH]; [by apply elem_of_nil in Hn|].
    apply elem_of_cons in Hn as [-> |Hn]; simpl; [lia|].
    specialize (IH Hn). lia. }
  assert (foldr Nat.max h sample = h
          ∨ foldr Nat.max h sample ∈ sample) as Hatt.
  { generalize sample. intros l. induction l as [|x l IH]; [by left|].
    simpl. destruct IH as [IH|IH].
    - rewrite IH. destruct (Nat.max_spec x h) as [[_ ->]|[_ ->]];
        [by left | right; by left].
    - destruct (Nat.max_spec x (foldr Nat.max h l)) as [[_ ->]|[_ ->]];
        [right; by right | right; by left]. }
  assert (∀ i c, i < 50 -> cells !! i = Some c -> String.length c ∈ sample)
    as Hin.
  { intros i c Hi Hc. subst sample. apply list_elem_of_fmap. exists c.
    split; [reflexivity|]. apply (list_elem_of_lookup_2 _ i).
    by rewrite lookup_take_lt. }
  split; [lia|]. split; [|split; [reflexivity|]].
  - destruct (decide (foldr Nat.max h sample + 2 <= 45)) as [Hle|Hgt].
    + right. rewrite Nat.min_l by lia. split; [lia|].
      intros i c Hi Hc. specialize (Hmax _ (Hin i c Hi Hc)). lia.
    + left. lia.
  - destruct (decide (foldr Nat.max h sample + 2 <= 45)) as [Hle|Hgt];
      [|left; lia].
    right. rewrite Nat.min_l by lia. destruct Hatt as [->|Hs]; [by left|].
    right. subst sample. apply list_elem_of_fmap in Hs as (c & Hc & Hs).
    apply list_elem_of_lookup in Hs as [i Hi].
    exists i, c. apply lookup_take_Some in Hi as [Hi Hlt].
    split; [done|]. split; [done|]. lia.
Qed.

End ReportExtras.

(** ** The further properties on the sample inputs *)

Module ExtraRuns.
Import Text Transform.

Lemma duplicates_removed_zero_witness :
  has_col (columns Ref.sample) "date" = true
  ∧ has_col (columns Ref.sample) "amount" = true
  ∧ ∃ clean issues meta,
    Ref.transform Ref.sample = inr (clean, issues, meta)
    ∧ (rows_out_clean meta + rows_out_issues meta + duplicates_removed meta
       = rows_in meta)%Z
    ∧ (duplicates_removed meta = 0%Z
       ↔ NoDup (txn_key <$> clean_before_dedup Ref.to_datetime
                              Ref.to_numeric Ref.round2 Ref.float_str
                              Ref.sample))
    ∧ (duplicates_removed meta = 0%Z ->
       records clean
       = clean_before_dedup Ref.to_datetime Ref.to_numeric Ref.round2
           Ref.float_str Ref.sample).
Proof.
  split; [reflexivity|]. split; [reflexivity|].
  apply (TransformExtras.duplicates_removed_zero Z Ref.to_datetime
           Ref.to_numeric Ref.round2 Ref.float_str Ref.sample);
    reflexivity.
Defined.

Lemma outputs_agree_with_flags_witness :
  has_col (columns Ref.sample) "date" = true
  ∧ has_col (columns Ref.sample) "amount" = true
  ∧ ∃ clean issues meta,
    Ref.transform Ref.sample = inr (clean, issues, meta)
    ∧ (∀ row, row ∈ records issues ->
         (issue_date_invalid row = true ∨ issue_amount_invalid row = true)
         ∧ (issue_date_invalid row = true -> date_iso row = "")
         ∧ (issue_amount_invalid row = true -> amount_num row = None))
    ∧ (∀ row, row ∈ records clean ->
         issue_date_invalid row = false ∧ issue_amount_invalid row = false)
    ∧ sublist (records issues) Ref.frame
    ∧ sublist (records clean) Ref.frame.
Proof.
  split; [reflexivity|]. split; [reflexivity|].
  apply (TransformExtras.outputs_agree_with_flags Z Ref.to_datetime
           Ref.to_numeric Ref.round2 Ref.float_str Ref.sample);
    reflexivity.
Defined.

Lemma transform_of_no_rows_witness :
  has_col (columns Samples.no_rows) "date" = true
  ∧ has_col (columns Samples.no_rows) "amount" = true
  ∧ rows Samples.no_rows = []
  ∧ ∃ clean issues,
    Ref.transform Samples.no_rows
    = inr (clean, issues,
           {| rows_in := 0; rows_out_clean := 0; rows_out_issues := 0;
              duplicates_removed := 0 |})
    ∧ records clean = [] ∧ records issues = [].
Proof.
  split; [reflexivity|]. split; [reflexivity|]. split; [reflexivity|].
  apply (TransformExtras.transform_of_no_rows Z Ref.to_datetime
           Ref.to_numeric Ref.round2 Ref.float_str Samples.no_rows);
    reflexivity.
Defined.

Lemma output_labels_witness :
  has_col (columns Ref.sample) "date" = true
  ∧ has_col (columns Ref.sample) "amount" = true
  ∧ ∃ clean issues meta,
    Ref.transform Ref.sample = inr (clean, issues, meta)
    ∧ (∀ c, c ∈ labels clean
            ↔ (c ∈ columns Ref.sample
               ∨ c ∈ ["description"; "category"; "source"; "date_iso";
                      "amount_num"; "txn_key"])
              ∧ String.prefix "issue_" c = false ∧ c ≠ "has_issue")
    ∧ (∀ c, c ∈ labels issues
            ↔ (c ∈ columns Ref.sample
               ∨ c ∈ ["description"; "category"; "source"; "date_iso";
                      "amount_num"; "txn_key"; "issue_date_invalid";
                      "issue_amount_invalid"])
              ∧ c ≠ "has_issue")
    ∧ (∃ rest, labels clean
               = (["date_iso"; "description"; "amount_num"; "category";
                   "source"] ++ rest)%list)
    ∧ (NoDup (columns Ref.sample) ->
       NoDup (labels clean) ∧ NoDup (labels issues)).
Proof.
  split; [reflexivity|]. split; [reflexivity|].
  apply (LabelExtras.output_labels Ref.to_datetime Ref.to_numeric
           Ref.round2 Ref.float_str Ref.sample); reflexivity.
Defined.

Lemma views_of_no_rows_witness :
  Queries.where_run (Some "20231231_235959") (Ref.stored Ref.ledger) = []
  ∧ Store.kpi_summary Z 0%Z Z.add Z.abs Ref.round2 Ref.real_leb
      (Some "20231231_235959") (Ref.stored Ref.ledger)
    = {| Store.k_row_count := 0; Store.total_income := None;
         Store.total_expenses := None; Store.k_net_total := None |}
  ∧ Queries.monthly_trends Z 0%Z Z.add Z.abs Ref.round2 Ref.real_leb
      (Some "20231231_235959") (Ref.stored Ref.ledger) = []
  ∧ (∀ labels,
       Queries.category_summary Z Z.add Z.abs Ref.round2 Ref.real_leb
         (λ _, None) labels (Some "20231231_235959") (Ref.stored Ref.ledger)
       = [])
  ∧ Store.source_file_summary Z Z.add Ref.round2
      (Some "20231231_235959") (Ref.stored Ref.ledger) = [].
Proof.
  assert (Queries.where_run (Some "20231231_235959") (Ref.stored Ref.ledger)
          = []) as H by (vm_compute; reflexivity).
  split; [exact H|].
  exact (StoreExtras.views_of_no_rows Z 0%Z Z.add Z.abs Ref.round2
           Ref.real_leb (λ _, None) (Some "20231231_235959")
           (Ref.stored Ref.ledger) H).
Defined.

Lemma revenue_rows r :
  r ∈ Queries.where_run (Some Ref.run) Samples.revenue ->
  ∃ v, Queries.amount_num r = Some v ∧ Ref.real_leb v 0 = false
       ∧ Ref.real_leb 0 v = true.
Proof.
  intros Hr.
  assert (Queries.where_run (Some Ref.run) Samples.revenue = Samples.revenue)
    as E by (vm_compute; reflexivity).
  rewrite E in Hr. unfold Samples.revenue in Hr.
  repeat (apply elem_of_cons in Hr as [-> |Hr]; [by eexists|]).
  by apply elem_of_nil in Hr.
Qed.

Lemma revenue_only_kpis_witness :
  let kpi := Store.kpi_summary Z 0%Z Z.add Z.abs Ref.round2 Ref.real_leb
               (Some Ref.run) Samples.revenue in
  (0 + 0 = 0)%Z ∧ Z.abs 0 = 0%Z ∧ Ref.round2 0 = 0%Z
  ∧ Store.total_income kpi = Store.k_net_total kpi
  ∧ (Queries.where_run (Some Ref.run) Samples.revenue ≠ [] ->
       Store.total_expenses kpi = Some 0%Z)
  ∧ (Queries.where_run (Some Ref.run) Samples.revenue = [] ->
       Store.total_expenses kpi = None).
Proof.
  intros kpi. split; [reflexivity|]. split; [reflexivity|].
  split; [reflexivity|].
  exact (StoreExtras.revenue_only_kpis Z 0%Z Z.add Z.abs Ref.round2
           Ref.real_leb (Some Ref.run) Samples.revenue eq_refl eq_refl
           eq_refl revenue_rows).
Defined.

Lemma earlier_rows (r : Queries.Txn Z) :
  r ∈ Samples.earlier ∨ r ∈ [] -> Queries.run_id r ≠ Some Ref.run.
Proof.
  intros [Hr|Hr]; [|by apply elem_of_nil in Hr].
  unfold Samples.earlier in Hr.
  apply elem_of_cons in Hr as [-> |Hr]; [discriminate|].
  by apply elem_of_nil in Hr.
Qed.

Lemma run_isolation_witness :
  let cols := ["amount_num"; "date_iso"; "category"; "source_file";
               "run_id"] in
  let db :=
    {| Store.transactions :=
         Some (cols, (Samples.earlier ++ Samples.revenue ++ [])%list);
       Store.data_issues := None; Store.pipeline_runs := None |} in
  let db' :=
    {| Store.transactions := Some (cols, Samples.revenue);
       Store.data_issues := None; Store.pipeline_runs := None |} in
  Ref.run ≠ ""
  ∧ Store.get_query_results Z 0%Z Z.add Z.abs Ref.round2 Ref.real_leb
      (λ _, false) (λ _, None) db (Some Ref.run)
    = Store.get_query_results Z 0%Z Z.add Z.abs Ref.round2 Ref.real_leb
        (λ _, false) (λ _, None) db' (Some Ref.run).
Proof.
  intros cols db db'.
  assert (Ref.run ≠ "") as H by discriminate.
  split; [exact H|].
  exact (StoreExtras.run_isolation Z 0%Z Z.add Z.abs Ref.round2
           Ref.real_leb (λ _, false) (λ _, None) Ref.run cols
           Samples.earlier Samples.revenue [] db db' H earlier_rows
           eq_refl eq_refl).
Defined.

Lemma transform_load_query_witness :
  ∃ clean issues tmeta lmeta clean_out issues_out db',
    Ref.transform Ref.ledger = inr (clean, issues, tmeta)
    ∧ Store.load_to_sqlite clean issues "database/finance.db" "replace"
        Samples.clock Samples.clock Store.empty_db
      = inr (lmeta, clean_out, issues_out, db')
    ∧ Store.rows_loaded_clean lmeta = rows_out_clean tmeta
    ∧ Store.rows_loaded_issues lmeta = rows_out_issues tmeta
    ∧ (∀ msg,
         Store.get_query_results Z 0%Z Z.add Z.abs Ref.round2 Ref.real_leb
           (λ _, false) (λ _, None) db' (Some (Store.run_id lmeta))
         ≠ inl (Store.RuntimeError msg))
    ∧ (∀ q,
         Store.get_query_results Z 0%Z Z.add Z.abs Ref.round2 Ref.real_leb
           (λ _, false) (λ _, None) db' (Some (Store.run_id lmeta))
         = inr q ->
         Store.k_row_count (Store.r_kpi_summary q) = length (records clean)
         ∧ Z.of_nat (Store.k_row_count (Store.r_kpi_summary q))
           = rows_out_clean tmeta)
    ∧ (has_col (columns Ref.ledger) "source_file" = true ->
       false = false ->
       ∃ q,
         Store.get_query_results Z 0%Z Z.add Z.abs Ref.round2 Ref.real_leb
           (λ _, false) (λ _, None) db' (Some (Store.run_id lmeta))
         = inr q).
Proof.
  do 7 eexists.
  split; [apply TransformClaims.transform_accepts; reflexivity|].
  split; [reflexivity|].
  eapply (LoadExtras.transform_load_query Z 0%Z Z.add Z.abs Ref.round2
           Ref.real_leb (λ _, false) (λ _, None) Ref.to_datetime
           Ref.to_numeric Ref.float_str Ref.ledger "database/finance.db"
           Samples.clock Samples.clock Store.empty_db);
    [apply TransformClaims.transform_accepts; reflexivity | reflexivity].
Defined.

Lemma safe_sheet_name_not_idempotent_witness :
  String.length Samples.thirty = 30
  ∧ str_all (λ x, negb (is_space x)) Samples.thirty = true
  ∧ is_space "2" = false
  ∧ Report._safe_sheet_name (Samples.thirty ++ " " ++ "2024")
    = Samples.thirty ++ " "
  ∧ Report._safe_sheet_name
      (Report._safe_sheet_name (Samples.thirty ++ " " ++ "2024"))
    = Samples.thirty
  ∧ Report._safe_sheet_name
      (Report._safe_sheet_name (Samples.thirty ++ " " ++ "2024"))
    ≠ Report._safe_sheet_name (Samples.thirty ++ " " ++ "2024")
  ∧ Report.loop_titles (Samples.thirty ++ " " ++ "2024")
    = (Samples.thirty, Samples.thirty ++ " ")
  ∧ (Report.loop_titles (Samples.thirty ++ " " ++ "2024")).1
    ≠ (Report.loop_titles (Samples.thirty ++ " " ++ "2024")).2
  ∧ Forall (λ n, Report.loop_titles n = (n, n)) Report.sheet_names.
Proof.
  split; [reflexivity|]. split; [reflexivity|]. split; [reflexivity|].
  exact (ReportExtras.safe_sheet_name_not_idempotent Samples.thirty "2" "024"
           eq_refl eq_refl eq_refl).
Defined.

Lemma txn_key_same_record_witness :
  let c1 := default ∅ (rows Samples.coffees !! 0) in
  let c2 := default ∅ (rows Samples.coffees !! 1) in
  (∀ x, has_char "|" (Ref.float_str x) = false)
  ∧ rows Samples.coffees !! 0 = Some c1
  ∧ rows Samples.coffees !! 1 = Some c2
  ∧ ∃ row1 row2,
    normalized Ref.to_datetime Ref.to_numeric Ref.round2 Ref.float_str
      Samples.coffees !! 0 = Some row1
    ∧ normalized Ref.to_datetime Ref.to_numeric Ref.round2 Ref.float_str
        Samples.coffees !! 1 = Some row2
    ∧ (txn_key row1 = txn_key row2
       ↔ date_iso row1 = date_iso row2
         ∧ Spec.same_description (Spec.description_of Samples.coffees c1)
             (Spec.description_of Samples.coffees c2)
         ∧ amount_key Ref.round2 Ref.float_str (amount_num row1)
           = amount_key Ref.round2 Ref.float_str (amount_num row2))
    ∧ ((∀ x y, Ref.float_str x = Ref.float_str y -> x = y) ->
       (∀ x, Ref.float_str x ≠ NA_str) ->
       (amount_key Ref.round2 Ref.float_str (amount_num row1)
        = amount_key Ref.round2 Ref.float_str (amount_num row2)
        ↔ Ref.round2 <$> amount_num row1 = Ref.round2 <$> amount_num row2)).
Proof.
  intros c1 c2. split; [exact RefFacts.float_str_no_bar|].
  split; [reflexivity|]. split; [reflexivity|].
  exact (KeyExtras.txn_key_same_record Z Ref.to_datetime Ref.to_numeric
           Ref.round2 Ref.float_str Samples.coffees Samples.coffees 0 1
           c1 c2 RefFacts.float_str_no_bar eq_refl eq_refl).
Defined.

(** Three descriptions: the first two have the same words and get the
    same key, the third is one word and gets another. *)
Example coffees_keys :
  txn_key <$> normalized Ref.to_datetime Ref.to_numeric Ref.round2
                Ref.float_str Samples.coffees
  = ["2024-01-02|coffee shop|4.5"; "2024-01-02|coffee shop|4.5";
     "2024-01-02|coffeeshop|4.5"]
  ∧ Spec.words "Coffee  Shop" = ["Coffee"; "Shop"]
  ∧ Spec.same_description "Coffee  Shop" " coffee shop "
  ∧ ¬ Spec.same_description "Coffee  Shop" "coffeeshop".
Proof.
  split; [vm_compute; reflexivity|]. split; [reflexivity|].
  split; [reflexivity | discriminate].
Qed.

(** The sample run end to end: the identifier of the load and the four
    views of the stored rows. *)
Example sample_views :
  Store._make_run_id Samples.clock = Ref.run
  ∧ Store._utc_now_iso Samples.clock = "2024-01-05T12:00:00Z"
  ∧ Store.kpi_summary Z 0%Z Z.add Z.abs Ref.round2 Ref.real_leb
      (Some Ref.run) Ref.transactions
    = {| Store.k_row_count := 4; Store.total_income := Some 2450%Z;
         Store.total_expenses := Some 120000%Z;
         Store.k_net_total := Some (-117550)%Z |}
  ∧ Ingest.standardize_label "  Net Revenue " = "net_revenue"
  ∧ Report.column_width "amount_num" ["4.5"; "-1200.0"] = 12.
Proof. vm_compute. auto. Qed.

End ExtraRuns.
